(** * The assessment session of TESTRUN-SORT, embedded in Rocq

    The repository holds two React components that both implement the
    interview session:

    - [Chat]: the chat-panel variant (src/unnamed/part_000), whose single
      exit point is [endAssessment];
    - [Live]: the live-transcription variant
      (src/src/components/assessment/AssessmentInterface.tsx).

    A React function component is re-run on every render; the handlers it
    defines close over the state values of the render that created them,
    while the [setX] functions write to the state the next render will see.
    The embedding keeps the two apart: every handler takes the render
    snapshot [c] it closes over (what the code reads) and acts on the live
    store inside a [World] (what the code writes).  Callbacks handed to
    [setTimeout], to the speech synthesiser or to the recogniser carry the
    snapshot of the render that created them.

    Numbers follow JavaScript: [JS.number] rounds every arithmetic result to
    binary64.  Wall-clock fields (timestamps, durations), audio blobs and
    styling are left out; no statement below depends on them. *)

From Stdlib Require Import ZArith QArith Qround Bool List String Ascii Lia.
From Stdlib Require Import DecimalString PrimFloat SpecFloat FloatOps.
Import ListNotations.
Open Scope string_scope.
Open Scope Z_scope.
Open Scope list_scope.

(** ** JavaScript numbers *)

Module JS.

(** A Number is a binary64 value.  Finite values are kept as reduced
    rationals; signed zeros are not distinguished (all operands below are
    counts). *)
Inductive number :=
| Finite (q : Q)
| Infinity (negative : bool)
| NaN.

(** Nearest integer to [n / d] for [0 <= n], [0 < d], ties to even. *)
Definition nearest_even (n d : Z) : Z :=
  let k := n / d in
  match 2 * (n mod d) ?= d with
  | Lt => k
  | Gt => k + 1
  | Eq => if Z.even k then k else k + 1
  end.

(** [p / (q * 2^e)] as a fraction of integers. *)
Definition scaled (p q : positive) (e : Z) : Z * Z :=
  (Z.pos p * 2 ^ Z.max 0 (- e), Z.pos q * 2 ^ Z.max 0 e).

(** Rounding of the positive rational [p / q] to 53 significant bits.  The
    exponent [e] is chosen so that [2^52 <= p / (q * 2^e) < 2^53].  The
    exponent range of binary64 is not modelled: the quotients and products
    of counts taken below stay far inside it. *)
Definition round_pos (p q : positive) : Q :=
  let lead := Z.log2 (Z.pos p) - Z.log2 (Z.pos q) in
  let '(n0, d0) := scaled p q (lead - 52) in
  let e := if 2 ^ 52 * d0 <=? n0 then lead - 52 else lead - 53 in
  let '(n, d) := scaled p q e in
  let m := nearest_even n d in
  Qred (if 0 <=? e then inject_Z (m * 2 ^ e) else Qmake m (Z.to_pos (2 ^ (- e)))).

Definition binary64 (x : Q) : Q :=
  match Qnum x with
  | Z0 => 0%Q
  | Zpos p => round_pos p (Qden x)
  | Zneg p => Qred (- round_pos p (Qden x))%Q
  end.

Definition of_Z (z : Z) : number := Finite (binary64 (inject_Z z)).
Definition of_nat (n : nat) : number := of_Z (Z.of_nat n).

Definition is_neg (x : Q) : bool := Qnum x <? 0.
Definition is_zero (x : Q) : bool := Qnum x =? 0.

(** [a / b] *)
Definition div (a b : number) : number :=
  match a, b with
  | NaN, _ | _, NaN => NaN
  | Infinity _, Infinity _ => NaN
  | Infinity s, Finite y => Infinity (xorb s (is_neg y))
  | Finite x, Infinity _ => Finite 0
  | Finite x, Finite y =>
      if is_zero y then (if is_zero x then NaN else Infinity (is_neg x))
      else Finite (binary64 (x / y)%Q)
  end.

(** [a * b] *)
Definition mul (a b : number) : number :=
  match a, b with
  | NaN, _ | _, NaN => NaN
  | Infinity s, Infinity t => Infinity (xorb s t)
  | Infinity s, Finite y => if is_zero y then NaN else Infinity (xorb s (is_neg y))
  | Finite x, Infinity t => if is_zero x then NaN else Infinity (xorb (is_neg x) t)
  | Finite x, Finite y => Finite (binary64 (x * y)%Q)
  end.

(** [Math.round(x)]: the nearest integer, halves towards plus infinity. *)
Definition round (x : number) : number :=
  match x with
  | Finite q => Finite (inject_Z (Qfloor (q + (1 # 2))%Q))
  | _ => x
  end.

(** [a >= b] *)
Definition ge (a b : number) : bool :=
  match a, b with
  | NaN, _ | _, NaN => false
  | Infinity s, Infinity t => negb s || t
  | Infinity s, Finite _ => negb s
  | Finite _, Infinity t => t
  | Finite x, Finite y => Qle_bool y x
  end.

(** The value of a binary64 of the kernel, to compare [binary64] with. *)
Definition of_spec_float (x : spec_float) : number :=
  match x with
  | S754_zero _ => Finite 0
  | S754_infinity s => Infinity s
  | S754_nan => NaN
  | S754_finite s m e =>
      let v := if s then Z.neg m else Z.pos m in
      Finite (Qred (if 0 <=? e then inject_Z (v * 2 ^ e)
                    else Qmake v (Z.to_pos (2 ^ (- e)))))
  end.

Definition float_of_Z (z : Z) : float := SF2Prim (binary_normalize prec emax z 0 false).

(** [x.trim()] is the empty string *)
Definition is_space (a : ascii) : bool :=
  let n := nat_of_ascii a in
  (((9 <=? n) && (n <=? 13)) || (n =? 32))%nat.

Fixpoint blank (s : string) : bool :=
  match s with
  | EmptyString => true
  | String a rest => is_space a && blank rest
  end.

(** A string used as a condition is true when it is not empty. *)
Definition truthy (s : string) : bool :=
  match s with EmptyString => false | _ => true end.

(** [`${n}`] for an integer *)
Definition show (n : nat) : string := NilZero.string_of_uint (Nat.to_uint n).

Definition showZ (z : Z) : string :=
  if z <? 0 then String "-" (show (Z.to_nat (- z))) else show (Z.to_nat z).

Definition eqb (a b : number) : bool :=
  match a, b with
  | Finite x, Finite y => (Qnum x =? Qnum y) && (Qden x =? Qden y)%positive
  | Infinity s, Infinity t => Bool.eqb s t
  | NaN, NaN => true
  | _, _ => false
  end.

(** [s.padStart(targetLength, padString)] *)
Fixpoint fill (n : nat) (padString rest : string) : string :=
  match n with
  | O => EmptyString
  | S m =>
      match rest with
      | String a r => String a (fill m padString r)
      | EmptyString =>
          match padString with
          | String a r => String a (fill m padString r)
          | EmptyString => EmptyString
          end
      end
  end.

Definition padStart (targetLength : nat) (padString : string) (s : string) : string :=
  if (String.length s <? targetLength)%nat
  then (fill (targetLength - String.length s) padString padString ++ s)%string
  else s.

(** [s.trim()] *)
Fixpoint trimStart (s : string) : string :=
  match s with
  | EmptyString => EmptyString
  | String a rest => if is_space a then trimStart rest else s
  end.

Fixpoint trimEnd (s : string) : string :=
  match s with
  | EmptyString => EmptyString
  | String a rest => if blank s then EmptyString else String a (trimEnd rest)
  end.

Definition trim (s : string) : string := trimEnd (trimStart s).

(** *** Regular expressions

    The expressions the code uses are of two shapes: a literal between two
    word boundaries, with the flags [g] or [gi], and [/\s+/g].  Texts are
    sequences of ASCII characters here, as for [blank]. *)

(** [\w] *)
Definition is_word (a : ascii) : bool :=
  let n := nat_of_ascii a in
  (((48 <=? n) && (n <=? 57)) || ((65 <=? n) && (n <=? 90)) || (n =? 95)
   || ((97 <=? n) && (n <=? 122)))%nat.

Definition is_word_opt (a : option ascii) : bool :=
  match a with
  | Some a => is_word a
  | None => false
  end.

Definition head (s : string) : option ascii :=
  match s with
  | EmptyString => None
  | String a _ => Some a
  end.

(** [\b] between the character [prev] and the text [s] that follows it:
    exactly one side is a word character; there is none beyond either end
    of the text. *)
Definition boundary (prev : option ascii) (s : string) : bool :=
  xorb (is_word_opt prev) (is_word_opt (head s)).

(** Under the flag [i] characters are compared by their upper case. *)
Definition upper (a : ascii) : ascii :=
  let n := nat_of_ascii a in
  if ((97 <=? n) && (n <=? 122))%nat then ascii_of_nat (n - 32) else a.

Definition same (ignoreCase : bool) (a b : ascii) : bool :=
  if ignoreCase then Ascii.eqb (upper a) (upper b) else Ascii.eqb a b.

(** The literal [pat] read at the head of [s]: the last character read
    ([prev] when [pat] is empty) and the text after it. *)
Fixpoint literal (ignoreCase : bool) (pat : string) (prev : option ascii) (s : string)
  : option (option ascii * string) :=
  match pat with
  | EmptyString => Some (prev, s)
  | String p pat' =>
      match s with
      | EmptyString => None
      | String a rest => if same ignoreCase p a then literal ignoreCase pat' (Some a) rest else None
      end
  end.

(** [/pat\b/] matches at the head of [s]. *)
Definition wordEnds (ignoreCase : bool) (pat : string) (prev : option ascii) (s : string) : bool :=
  match literal ignoreCase pat prev s with
  | Some (last, rest) => boundary last rest
  | None => false
  end.

(** [/\bpat\b/] matches at the head of [s], which follows [prev]. *)
Definition wordAt (ignoreCase : bool) (pat : string) (prev : option ascii) (s : string) : bool :=
  boundary prev s && wordEnds ignoreCase pat prev s.

(** [s.replace(/\bpat\b/g, rep)] for a literal [pat] that is not empty and
    a replacement without [$]: the text is read from the left; at a match
    the replacement is written and reading goes on after the match ([skip]
    counts the characters of the match still to pass), elsewhere the
    character is copied. *)
Fixpoint replaceWordFrom (ignoreCase : bool) (pat rep : string)
    (prev : option ascii) (skip : nat) (s : string) : string :=
  match s with
  | EmptyString => EmptyString
  | String a rest =>
      match skip with
      | S k => replaceWordFrom ignoreCase pat rep (Some a) k rest
      | O =>
          if wordAt ignoreCase pat prev s
          then (rep ++ replaceWordFrom ignoreCase pat rep (Some a) (String.length pat - 1) rest)%string
          else String a (replaceWordFrom ignoreCase pat rep (Some a) 0 rest)
      end
  end.

Definition replaceWord (ignoreCase : bool) (pat rep : string) (s : string) : string :=
  replaceWordFrom ignoreCase pat rep None 0 s.

(** [s.replace(/\s+/g, ' ')]; [inRun] says that the character before was
    white space. *)
Fixpoint replaceSpacesFrom (inRun : bool) (s : string) : string :=
  match s with
  | EmptyString => EmptyString
  | String a rest =>
      if is_space a
      then (if inRun then replaceSpacesFrom true rest
            else String " " (replaceSpacesFrom true rest))
      else String a (replaceSpacesFrom false rest)
  end.

Definition replaceSpaces (s : string) : string := replaceSpacesFrom false s.

End JS.
(** ** The chat-panel variant (src/unnamed/part_000) *)

Module Chat.

Inductive Sender := ai | candidate.

(** Message ids are either the sentinel ["interim-message"] or a value of
    [uuidv4()], a 36-character identifier that is never the sentinel. *)
Inductive MessageId :=
| interim_message
| uuid (n : nat).

Definition is_interim_id (i : MessageId) : bool :=
  match i with interim_message => true | uuid _ => false end.

Record ConversationMessage := mkMessage {
  id : MessageId;
  sender : Sender;
  message : string;
  isInterim : bool
}.

Record SecurityAlert := mkAlert {
  alertType : string;
  alertMessage : string;
  severity : string
}.

Record FaceDetectionData := mkFaceData {
  faceDetected : bool;
  faceCount : nat
}.

Inductive Reason := completed | violation | timeout.

Definition is_completed (r : Reason) : bool :=
  match r with completed => true | _ => false end.

Record AssessmentConfig := mkConfig {
  duration : Z;
  questions : list string;
  enableFaceDetection : bool;
  enableScreenLock : bool;
  enableAudioRecording : bool;
  maxViolations : nat;
  allowRetake : bool
}.

(** What the page offers: ["speechSynthesis" in window], a
    [SpeechRecognition] constructor, and whether [getUserMedia] resolves. *)
Record Browser := mkBrowser {
  speechSynthesis : bool;
  speechRecognition : bool;
  getUserMedia : bool
}.

(** The [useState] cells of the component. *)
Record State := mkState {
  messages : list ConversationMessage;
  inputMessage : string;
  isRecording : bool;
  isTyping : bool;
  currentQuestionIndex : nat;
  timeRemaining : Z;
  timerActive : bool;
  securityAlerts : list SecurityAlert;
  faceDetectionData : option FaceDetectionData;
  interimTranscript : string;
  isAISpeaking : bool;
  isMicMuted : bool;
  waitingForUserResponse : bool;
  userHasResponded : bool;
  isAssessmentTerminated : bool;
  terminationReason : option Reason;
  showTerminationLoader : bool;
  questionTimeoutRef : option nat;
  assessmentInitialized : bool;
  questionsAnswered : nat
}.

Definition with_messages (f : list ConversationMessage -> list ConversationMessage) (s : State) : State :=
  mkState (f (messages s)) (inputMessage s) (isRecording s) (isTyping s)
    (currentQuestionIndex s) (timeRemaining s) (timerActive s) (securityAlerts s)
    (faceDetectionData s) (interimTranscript s) (isAISpeaking s) (isMicMuted s)
    (waitingForUserResponse s) (userHasResponded s) (isAssessmentTerminated s)
    (terminationReason s) (showTerminationLoader s) (questionTimeoutRef s)
    (assessmentInitialized s) (questionsAnswered s).
Definition with_inputMessage (f : string -> string) (s : State) : State :=
  mkState (messages s) (f (inputMessage s)) (isRecording s) (isTyping s)
    (currentQuestionIndex s) (timeRemaining s) (timerActive s) (securityAlerts s)
    (faceDetectionData s) (interimTranscript s) (isAISpeaking s) (isMicMuted s)
    (waitingForUserResponse s) (userHasResponded s) (isAssessmentTerminated s)
    (terminationReason s) (showTerminationLoader s) (questionTimeoutRef s)
    (assessmentInitialized s) (questionsAnswered s).
Definition with_isRecording (f : bool -> bool) (s : State) : State :=
  mkState (messages s) (inputMessage s) (f (isRecording s)) (isTyping s)
    (currentQuestionIndex s) (timeRemaining s) (timerActive s) (securityAlerts s)
    (faceDetectionData s) (interimTranscript s) (isAISpeaking s) (isMicMuted s)
    (waitingForUserResponse s) (userHasResponded s) (isAssessmentTerminated s)
    (terminationReason s) (showTerminationLoader s) (questionTimeoutRef s)
    (assessmentInitialized s) (questionsAnswered s).
Definition with_isTyping (f : bool -> bool) (s : State) : State :=
  mkState (messages s) (inputMessage s) (isRecording s) (f (isTyping s))
    (currentQuestionIndex s) (timeRemaining s) (timerActive s) (securityAlerts s)
    (faceDetectionData s) (interimTranscript s) (isAISpeaking s) (isMicMuted s)
    (waitingForUserResponse s) (userHasResponded s) (isAssessmentTerminated s)
    (terminationReason s) (showTerminationLoader s) (questionTimeoutRef s)
    (assessmentInitialized s) (questionsAnswered s).
Definition with_currentQuestionIndex (f : nat -> nat) (s : State) : State :=
  mkState (messages s) (inputMessage s) (isRecording s) (isTyping s)
    (f (currentQuestionIndex s)) (timeRemaining s) (timerActive s) (securityAlerts s)
    (faceDetectionData s) (interimTranscript s) (isAISpeaking s) (isMicMuted s)
    (waitingForUserResponse s) (userHasResponded s) (isAssessmentTerminated s)
    (terminationReason s) (showTerminationLoader s) (questionTimeoutRef s)
    (assessmentInitialized s) (questionsAnswered s).
Definition with_timeRemaining (f : Z -> Z) (s : State) : State :=
  mkState (messages s) (inputMessage s) (isRecording s) (isTyping s)
    (currentQuestionIndex s) (f (timeRemaining s)) (timerActive s) (securityAlerts s)
    (faceDetectionData s) (interimTranscript s) (isAISpeaking s) (isMicMuted s)
    (waitingForUserResponse s) (userHasResponded s) (isAssessmentTerminated s)
    (terminationReason s) (showTerminationLoader s) (questionTimeoutRef s)
    (assessmentInitialized s) (questionsAnswered s).
Definition with_timerActive (f : bool -> bool) (s : State) : State :=
  mkState (messages s) (inputMessage s) (isRecording s) (isTyping s)
    (currentQuestionIndex s) (timeRemaining s) (f (timerActive s)) (securityAlerts s)
    (faceDetectionData s) (interimTranscript s) (isAISpeaking s) (isMicMuted s)
    (waitingForUserResponse s) (userHasResponded s) (isAssessmentTerminated s)
    (terminationReason s) (showTerminationLoader s) (questionTimeoutRef s)
    (assessmentInitialized s) (questionsAnswered s).
Definition with_securityAlerts (f : list SecurityAlert -> list SecurityAlert) (s : State) : State :=
  mkState (messages s) (inputMessage s) (isRecording s) (isTyping s)
    (currentQuestionIndex s) (timeRemaining s) (timerActive s) (f (securityAlerts s))
    (faceDetectionData s) (interimTranscript s) (isAISpeaking s) (isMicMuted s)
    (waitingForUserResponse s) (userHasResponded s) (isAssessmentTerminated s)
    (terminationReason s) (showTerminationLoader s) (questionTimeoutRef s)
    (assessmentInitialized s) (questionsAnswered s).
Definition with_faceDetectionData (f : option FaceDetectionData -> option FaceDetectionData) (s : State) : State :=
  mkState (messages s) (inputMessage s) (isRecording s) (isTyping s)
    (currentQuestionIndex s) (timeRemaining s) (timerActive s) (securityAlerts s)
    (f (faceDetectionData s)) (interimTranscript s) (isAISpeaking s) (isMicMuted s)
    (waitingForUserResponse s) (userHasResponded s) (isAssessmentTerminated s)
    (terminationReason s) (showTerminationLoader s) (questionTimeoutRef s)
    (assessmentInitialized s) (questionsAnswered s).
Definition with_interimTranscript (f : string -> string) (s : State) : State :=
  mkState (messages s) (inputMessage s) (isRecording s) (isTyping s)
    (currentQuestionIndex s) (timeRemaining s) (timerActive s) (securityAlerts s)
    (faceDetectionData s) (f (interimTranscript s)) (isAISpeaking s) (isMicMuted s)
    (waitingForUserResponse s) (userHasResponded s) (isAssessmentTerminated s)
    (terminationReason s) (showTerminationLoader s) (questionTimeoutRef s)
    (assessmentInitialized s) (questionsAnswered s).
Definition with_isAISpeaking (f : bool -> bool) (s : State) : State :=
  mkState (messages s) (inputMessage s) (isRecording s) (isTyping s)
    (currentQuestionIndex s) (timeRemaining s) (timerActive s) (securityAlerts s)
    (faceDetectionData s) (interimTranscript s) (f (isAISpeaking s)) (isMicMuted s)
    (waitingForUserResponse s) (userHasResponded s) (isAssessmentTerminated s)
    (terminationReason s) (showTerminationLoader s) (questionTimeoutRef s)
    (assessmentInitialized s) (questionsAnswered s).
Definition with_isMicMuted (f : bool -> bool) (s : State) : State :=
  mkState (messages s) (inputMessage s) (isRecording s) (isTyping s)
    (currentQuestionIndex s) (timeRemaining s) (timerActive s) (securityAlerts s)
    (faceDetectionData s) (interimTranscript s) (isAISpeaking s) (f (isMicMuted s))
    (waitingForUserResponse s) (userHasResponded s) (isAssessmentTerminated s)
    (terminationReason s) (showTerminationLoader s) (questionTimeoutRef s)
    (assessmentInitialized s) (questionsAnswered s).
Definition with_waitingForUserResponse (f : bool -> bool) (s : State) : State :=
  mkState (messages s) (inputMessage s) (isRecording s) (isTyping s)
    (currentQuestionIndex s) (timeRemaining s) (timerActive s) (securityAlerts s)
    (faceDetectionData s) (interimTranscript s) (isAISpeaking s) (isMicMuted s)
    (f (waitingForUserResponse s)) (userHasResponded s) (isAssessmentTerminated s)
    (terminationReason s) (showTerminationLoader s) (questionTimeoutRef s)
    (assessmentInitialized s) (questionsAnswered s).
Definition with_userHasResponded (f : bool -> bool) (s : State) : State :=
  mkState (messages s) (inputMessage s) (isRecording s) (isTyping s)
    (currentQuestionIndex s) (timeRemaining s) (timerActive s) (securityAlerts s)
    (faceDetectionData s) (interimTranscript s) (isAISpeaking s) (isMicMuted s)
    (waitingForUserResponse s) (f (userHasResponded s)) (isAssessmentTerminated s)
    (terminationReason s) (showTerminationLoader s) (questionTimeoutRef s)
    (assessmentInitialized s) (questionsAnswered s).
Definition with_isAssessmentTerminated (f : bool -> bool) (s : State) : State :=
  mkState (messages s) (inputMessage s) (isRecording s) (isTyping s)
    (currentQuestionIndex s) (timeRemaining s) (timerActive s) (securityAlerts s)
    (faceDetectionData s) (interimTranscript s) (isAISpeaking s) (isMicMuted s)
    (waitingForUserResponse s) (userHasResponded s) (f (isAssessmentTerminated s))
    (terminationReason s) (showTerminationLoader s) (questionTimeoutRef s)
    (assessmentInitialized s) (questionsAnswered s).
Definition with_terminationReason (f : option Reason -> option Reason) (s : State) : State :=
  mkState (messages s) (inputMessage s) (isRecording s) (isTyping s)
    (currentQuestionIndex s) (timeRemaining s) (timerActive s) (securityAlerts s)
    (faceDetectionData s) (interimTranscript s) (isAISpeaking s) (isMicMuted s)
    (waitingForUserResponse s) (userHasResponded s) (isAssessmentTerminated s)
    (f (terminationReason s)) (showTerminationLoader s) (questionTimeoutRef s)
    (assessmentInitialized s) (questionsAnswered s).
Definition with_showTerminationLoader (f : bool -> bool) (s : State) : State :=
  mkState (messages s) (inputMessage s) (isRecording s) (isTyping s)
    (currentQuestionIndex s) (timeRemaining s) (timerActive s) (securityAlerts s)
    (faceDetectionData s) (interimTranscript s) (isAISpeaking s) (isMicMuted s)
    (waitingForUserResponse s) (userHasResponded s) (isAssessmentTerminated s)
    (terminationReason s) (f (showTerminationLoader s)) (questionTimeoutRef s)
    (assessmentInitialized s) (questionsAnswered s).
Definition with_questionTimeoutRef (f : option nat -> option nat) (s : State) : State :=
  mkState (messages s) (inputMessage s) (isRecording s) (isTyping s)
    (currentQuestionIndex s) (timeRemaining s) (timerActive s) (securityAlerts s)
    (faceDetectionData s) (interimTranscript s) (isAISpeaking s) (isMicMuted s)
    (waitingForUserResponse s) (userHasResponded s) (isAssessmentTerminated s)
    (terminationReason s) (showTerminationLoader s) (f (questionTimeoutRef s))
    (assessmentInitialized s) (questionsAnswered s).
Definition with_assessmentInitialized (f : bool -> bool) (s : State) : State :=
  mkState (messages s) (inputMessage s) (isRecording s) (isTyping s)
    (currentQuestionIndex s) (timeRemaining s) (timerActive s) (securityAlerts s)
    (faceDetectionData s) (interimTranscript s) (isAISpeaking s) (isMicMuted s)
    (waitingForUserResponse s) (userHasResponded s) (isAssessmentTerminated s)
    (terminationReason s) (showTerminationLoader s) (questionTimeoutRef s)
    (f (assessmentInitialized s)) (questionsAnswered s).
Definition with_questionsAnswered (f : nat -> nat) (s : State) : State :=
  mkState (messages s) (inputMessage s) (isRecording s) (isTyping s)
    (currentQuestionIndex s) (timeRemaining s) (timerActive s) (securityAlerts s)
    (faceDetectionData s) (interimTranscript s) (isAISpeaking s) (isMicMuted s)
    (waitingForUserResponse s) (userHasResponded s) (isAssessmentTerminated s)
    (terminationReason s) (showTerminationLoader s) (questionTimeoutRef s)
    (assessmentInitialized s) (f (questionsAnswered s)).

(** The state of the first render. *)
Definition initialState : State :=
  mkState [] "" false false 0%nat (10 * 60) false [] None "" false true false false
    false None false None false 0%nat.

(** The object handed to [onAssessmentComplete]. *)
Module Result.
Record AssessmentResult := mkResult {
  questionsAnswered : nat;
  totalQuestions : nat;
  securityAlertsCount : nat;
  securityAlerts : list SecurityAlert;
  messages : list ConversationMessage;
  terminationReason : option string;
  status : string;
  score : JS.number;
  passed : bool;
  timeRemaining : Z
}.
End Result.
Definition AssessmentResult := Result.AssessmentResult.

(** Functions handed to [setTimeout], each with the render it closes over. *)
Inductive Timeout :=
| AfterMount (c : State)
| AskQuestion (c : State) (questionIndex : nat)
| QuestionTimeout (c : State) (questionIndex : nat)
| Thinking (c : State)
| Deliver (result : AssessmentResult).

(** The [onComplete] arguments of [speakText]. *)
Inductive OnComplete :=
| WelcomeSpoken (c : State)
| QuestionSpoken (c : State) (questionIndex : nat)
| CompletionSpoken (result : AssessmentResult).

Record Pending := mkPending {
  handle : nat;
  delay : Z;
  callback : Timeout
}.

Record Utterance := mkUtterance {
  text : string;
  onEnd : OnComplete
}.

(** Everything a handler can touch: the React store, the browser's timers and
    speech queue, the closures held by long-lived subscriptions (the timer
    effect's interval, the memoised [handleFaceAwayViolation], the
    recogniser's [onresult]) and the calls made to [onAssessmentComplete]. *)
Record World := mkWorld {
  store : State;
  timeouts : list Pending;
  nextTimeout : nat;
  utterances : list Utterance;
  nextUuid : nat;
  interval : option State;
  faceAwayMemo : State;
  recognition : option State;
  listening : bool;
  delivered : list AssessmentResult
}.

Definition on_store (f : State -> State) (s : World) : World :=
  mkWorld (f (store s)) (timeouts s) (nextTimeout s) (utterances s) (nextUuid s)
    (interval s) (faceAwayMemo s) (recognition s) (listening s) (delivered s).
Definition on_timeouts (f : list Pending -> list Pending) (s : World) : World :=
  mkWorld (store s) (f (timeouts s)) (nextTimeout s) (utterances s) (nextUuid s)
    (interval s) (faceAwayMemo s) (recognition s) (listening s) (delivered s).
Definition on_nextTimeout (f : nat -> nat) (s : World) : World :=
  mkWorld (store s) (timeouts s) (f (nextTimeout s)) (utterances s) (nextUuid s)
    (interval s) (faceAwayMemo s) (recognition s) (listening s) (delivered s).
Definition on_utterances (f : list Utterance -> list Utterance) (s : World) : World :=
  mkWorld (store s) (timeouts s) (nextTimeout s) (f (utterances s)) (nextUuid s)
    (interval s) (faceAwayMemo s) (recognition s) (listening s) (delivered s).
Definition on_nextUuid (f : nat -> nat) (s : World) : World :=
  mkWorld (store s) (timeouts s) (nextTimeout s) (utterances s) (f (nextUuid s))
    (interval s) (faceAwayMemo s) (recognition s) (listening s) (delivered s).
Definition on_interval (f : option State -> option State) (s : World) : World :=
  mkWorld (store s) (timeouts s) (nextTimeout s) (utterances s) (nextUuid s)
    (f (interval s)) (faceAwayMemo s) (recognition s) (listening s) (delivered s).
Definition on_faceAwayMemo (f : State -> State) (s : World) : World :=
  mkWorld (store s) (timeouts s) (nextTimeout s) (utterances s) (nextUuid s)
    (interval s) (f (faceAwayMemo s)) (recognition s) (listening s) (delivered s).
Definition on_recognition (f : option State -> option State) (s : World) : World :=
  mkWorld (store s) (timeouts s) (nextTimeout s) (utterances s) (nextUuid s)
    (interval s) (faceAwayMemo s) (f (recognition s)) (listening s) (delivered s).
Definition on_listening (f : bool -> bool) (s : World) : World :=
  mkWorld (store s) (timeouts s) (nextTimeout s) (utterances s) (nextUuid s)
    (interval s) (faceAwayMemo s) (recognition s) (f (listening s)) (delivered s).
Definition on_delivered (f : list AssessmentResult -> list AssessmentResult) (s : World) : World :=
  mkWorld (store s) (timeouts s) (nextTimeout s) (utterances s) (nextUuid s)
    (interval s) (faceAwayMemo s) (recognition s) (listening s) (f (delivered s)).

Definition initialWorld : World :=
  mkWorld initialState [] 0%nat [] 0%nat None initialState None false [].

Definition Action := World -> World.

Definition skip : Action := fun w => w.
Definition andThen (a b : Action) : Action := fun w => b (a w).
Notation "a ;; b" := (andThen a b) (at level 61, right associativity).
Definition when (b : bool) (a : Action) : Action := if b then a else skip.

(** *** State setters *)

Definition setState (u : State -> State) : Action := on_store u.

Definition setMessages f := setState (with_messages f).
Definition setInputMessage v := setState (with_inputMessage (fun _ => v)).
Definition setIsRecording v := setState (with_isRecording (fun _ => v)).
Definition setIsTyping v := setState (with_isTyping (fun _ => v)).
Definition setCurrentQuestionIndex v := setState (with_currentQuestionIndex (fun _ => v)).
Definition setTimeRemaining f := setState (with_timeRemaining f).
Definition setTimerActive v := setState (with_timerActive (fun _ => v)).
Definition setSecurityAlerts f := setState (with_securityAlerts f).
Definition setFaceDetectionData v := setState (with_faceDetectionData (fun _ => v)).
Definition setInterimTranscript v := setState (with_interimTranscript (fun _ => v)).
Definition setIsAISpeaking v := setState (with_isAISpeaking (fun _ => v)).
Definition setIsMicMuted v := setState (with_isMicMuted (fun _ => v)).
Definition setWaitingForUserResponse v := setState (with_waitingForUserResponse (fun _ => v)).
Definition setUserHasResponded v := setState (with_userHasResponded (fun _ => v)).
Definition setIsAssessmentTerminated v := setState (with_isAssessmentTerminated (fun _ => v)).
Definition setTerminationReason v := setState (with_terminationReason (fun _ => v)).
Definition setShowTerminationLoader v := setState (with_showTerminationLoader (fun _ => v)).
Definition setQuestionTimeoutRef v := setState (with_questionTimeoutRef (fun _ => v)).
Definition setAssessmentInitialized v := setState (with_assessmentInitialized (fun _ => v)).
Definition setQuestionsAnswered f := setState (with_questionsAnswered f).

(** *** Browser services *)

Definition setTimeout (k : Timeout) (ms : Z) (ret : nat -> Action) : Action :=
  fun w =>
    let h := nextTimeout w in
    ret h (on_nextTimeout S (on_timeouts (fun l => l ++ [mkPending h ms k]) w)).

Definition clearTimeout (h : nat) : Action :=
  on_timeouts (filter (fun p => negb (handle p =? h)%nat)).

Definition uuidv4 (ret : MessageId -> Action) : Action :=
  fun w => ret (uuid (nextUuid w)) (on_nextUuid S w).

Definition onAssessmentComplete (r : AssessmentResult) : Action :=
  on_delivered (fun l => l ++ [r]).

Definition not_interim (msg : ConversationMessage) : bool :=
  negb (is_interim_id (id msg)).

(** [Math.round((a / b) * 100)] *)
Definition percentage (a b : nat) : JS.number :=
  JS.round (JS.mul (JS.div (JS.of_nat a) (JS.of_nat b)) (JS.of_Z 100)).

Section Component.

Variable config : AssessmentConfig.
Variable window : Browser.

(** The speech callbacks, written inline in the source: the one of the
    welcome message (initialisation effect), the one of a question
    ([askQuestion], arming the 30-second timeout) and the one of the closing
    message ([endAssessment]). *)
Definition onComplete (k : OnComplete) : Action :=
  match k with
  | WelcomeSpoken c =>
      setTimeout (AskQuestion c 0) 1000 (fun _ => skip)
  | QuestionSpoken c questionIndex =>
      setWaitingForUserResponse true ;;
      setIsMicMuted false ;;
      setTimeout (QuestionTimeout c questionIndex) 30000 (fun timeout =>
      setQuestionTimeoutRef (Some timeout))
  | CompletionSpoken result =>
      setTimeout (Deliver result) 3000 (fun _ => skip)
  end.

(** [speakText].  [speechSynthesis.cancel()] makes the utterance in flight
    raise its end or error event, which runs its callback like a normal
    completion; so a cancelled utterance stays in the queue of pending
    completions. *)
Definition speakText (txt : string) (k : OnComplete) : Action :=
  if speechSynthesis window then
    setIsAISpeaking true ;;
    setIsMicMuted true ;;
    on_utterances (fun l => l ++ [mkUtterance txt k])
  else
    setIsAISpeaking false ;;
    onComplete k.

(** [utterance.onend] and [utterance.onerror] *)
Definition utteranceDone (u : Utterance) : Action :=
  setIsAISpeaking false ;;
  onComplete (onEnd u).

Definition stopRecording : Action :=
  on_listening (fun _ => false) ;;
  setIsRecording false.

Definition completionMessage (reason : Reason) (finalQuestionsAnswered : nat) : string :=
  match reason with
  | completed =>
      "Congratulations! You have successfully completed the assessment. Your responses have been recorded and will be analyzed."
  | violation =>
      "The assessment has been terminated due to security violations. You looked away from the camera for too long."
  | timeout =>
      ("Time's up! The assessment has been terminated due to time limit exceeded. You answered "
       ++ JS.show finalQuestionsAnswered ++ " out of "
       ++ JS.show (List.length (questions config)) ++ " questions.")%string
  end.

(** [Math.round((finalQuestionsAnswered / config.questions.length) * 100)] *)
Definition scorePercentage (finalQuestionsAnswered : nat) : JS.number :=
  percentage finalQuestionsAnswered (List.length (questions config)).

Definition assessmentResult (c : State) (reason : Reason) : AssessmentResult :=
  let finalQuestionsAnswered :=
    if is_completed reason then List.length (questions config) else questionsAnswered c in
  let passed := JS.ge (scorePercentage finalQuestionsAnswered) (JS.of_Z 60) in
  Result.mkResult
    finalQuestionsAnswered
    (List.length (questions config))
    (List.length (securityAlerts c))
    (securityAlerts c)
    (messages c)
    (match reason with
     | violation => Some "Session terminated due to security violations"
     | timeout => Some "Session terminated due to time limit exceeded"
     | completed => None
     end)
    (if is_completed reason then "completed" else "terminated")
    (scorePercentage finalQuestionsAnswered)
    (if is_completed reason then true else passed)
    (match reason with timeout => 0 | _ => timeRemaining c end).

(** [endAssessment].  Its [speechSynthesis.cancel()] is covered by
    [speakText]; stopping the media tracks and [onTerminate] have no effect on
    the state kept here. *)
Definition endAssessment (c : State) (reason : Reason) : Action :=
  if isAssessmentTerminated c then skip else
  setIsAssessmentTerminated true ;;
  setTerminationReason (Some reason) ;;
  setTimerActive false ;;
  when (isRecording c) stopRecording ;;
  setShowTerminationLoader true ;;
  uuidv4 (fun i =>
  let finalMessage :=
    mkMessage i ai
      (completionMessage reason (Result.questionsAnswered (assessmentResult c reason)))
      false in
  setMessages (fun prev => prev ++ [finalMessage]) ;;
  speakText (message finalMessage) (CompletionSpoken (assessmentResult c reason))).

Definition askQuestion (c : State) (questionIndex : nat) : Action :=
  if isAssessmentTerminated c || waitingForUserResponse c then skip else
  if (List.length (questions config) <=? questionIndex)%nat then endAssessment c completed else
  when ((questionIndex =? 0)%nat && negb (timerActive c)) (setTimerActive true) ;;
  setCurrentQuestionIndex questionIndex ;;
  let question := nth questionIndex (questions config) "" in
  uuidv4 (fun i =>
  let questionMessage := mkMessage i ai question false in
  setMessages (fun prev => prev ++ [questionMessage]) ;;
  setWaitingForUserResponse false ;;
  setUserHasResponded false ;;
  speakText question (QuestionSpoken c questionIndex)).

Definition welcome : string :=
  "Welcome to your AI assessment! I'll be asking you questions over the next 10 minutes. Please ensure you remain visible on camera throughout the assessment. Let's begin with the first question.".

(** What a timeout does when it fires. *)
Definition runTimeout (k : Timeout) : Action :=
  match k with
  | AfterMount c =>
      uuidv4 (fun i =>
      let initialMessage := mkMessage i ai welcome false in
      setMessages (fun _ => [initialMessage]) ;;
      speakText (message initialMessage) (WelcomeSpoken c))
  | AskQuestion c questionIndex =>
      askQuestion c questionIndex
  | QuestionTimeout c questionIndex =>
      if negb (userHasResponded c) && negb (isAssessmentTerminated c) then
        let nextQuestionIndex := (questionIndex + 1)%nat in
        if (nextQuestionIndex <? List.length (questions config))%nat
        then askQuestion c nextQuestionIndex
        else endAssessment c completed
      else skip
  | Thinking c =>
      setIsTyping false ;;
      let nextQuestionIndex := (currentQuestionIndex c + 1)%nat in
      if (nextQuestionIndex <? List.length (questions config))%nat then
        setUserHasResponded false ;;
        setWaitingForUserResponse false ;;
        setTimeout (AskQuestion c nextQuestionIndex) 500 (fun _ => skip)
      else endAssessment c completed
  | Deliver result =>
      setShowTerminationLoader false ;;
      onAssessmentComplete result
  end.

(** [initializeAudio] followed by [initializeSpeechRecognition]: the
    recogniser's [onresult] closes over the render that installs it. *)
Definition initializeSpeechRecognition (c : State) : Action :=
  when (speechRecognition window) (on_recognition (fun _ => Some c)).

Definition initializeAudio (c : State) : Action :=
  when (getUserMedia window) (initializeSpeechRecognition c).

(** The initialisation effect. *)
Definition initialize (c : State) : Action :=
  if isAssessmentTerminated c || assessmentInitialized c then skip else
  setAssessmentInitialized true ;;
  setTimeout (AfterMount c) 1000 (fun _ => skip) ;;
  initializeAudio c.

(** The function given to [setInterval] by the timer effect. *)
Definition intervalCallback (c : State) : Action :=
  fun w =>
    let prev := timeRemaining (store w) in
    if prev <=? 1
    then (endAssessment c timeout ;; setTimeRemaining (fun _ => 0)) w
    else setTimeRemaining (fun _ => prev - 1) w.

Definition handleSendMessage (c : State) (msg : string) : Action :=
  if JS.blank msg || isAssessmentTerminated c then skip else
  match questionTimeoutRef c with
  | Some h => clearTimeout h ;; setQuestionTimeoutRef None
  | None => skip
  end ;;
  setMessages (filter not_interim) ;;
  uuidv4 (fun i =>
  let userMessage := mkMessage i candidate msg false in
  setMessages (fun prev => prev ++ [userMessage]) ;;
  setInputMessage "" ;;
  setWaitingForUserResponse false ;;
  setUserHasResponded true ;;
  setQuestionsAnswered (fun prev => (prev + 1)%nat) ;;
  setIsTyping true ;;
  setTimeout (Thinking c) 1500 (fun _ => skip)).

Definition startRecording (c : State) : Action :=
  if isAssessmentTerminated c then skip else
  fun w =>
    let w1 := match recognition w with
              | None => initializeSpeechRecognition c w
              | Some _ => w
              end in
    match recognition w1 with
    | Some _ =>
        if negb (isAISpeaking c)
        then (setIsRecording true ;; setInterimTranscript "" ;;
              on_listening (fun _ => true)) w1
        else w1
    | None => w1
    end.

Definition toggleMicrophone (c : State) : Action :=
  if isAISpeaking c || isAssessmentTerminated c then skip else
  if isRecording c
  then stopRecording ;; setIsMicMuted true
  else startRecording c ;; setIsMicMuted false.

(** [recognition.onresult], given the concatenated interim and final
    transcripts of the event. *)
Definition onresult (c : State) (interimText finalTranscript : string) : Action :=
  when (JS.truthy interimText)
    (setInterimTranscript interimText ;;
     let interimMessage := mkMessage interim_message candidate interimText true in
     setMessages (fun prev => filter not_interim prev ++ [interimMessage])) ;;
  when (JS.truthy finalTranscript)
    (handleSendMessage c finalTranscript ;;
     stopRecording).

(** [recognition.onend] *)
Definition onend : Action :=
  on_listening (fun _ => false) ;;
  setIsRecording false.

Definition handleSecurityAlert (c : State) (alert : SecurityAlert) : Action :=
  if isAssessmentTerminated c then skip else
  setSecurityAlerts (fun prev => prev ++ [alert]) ;;
  when (String.eqb (severity alert) "high"
        || (maxViolations config <=? List.length (securityAlerts c))%nat)
    (endAssessment c violation).

Definition handleFaceDetectionUpdate (data : FaceDetectionData) : Action :=
  setFaceDetectionData (Some data).

Definition handleFaceAwayViolation (c : State) : Action :=
  if isAssessmentTerminated c then skip else
  let faceAwayAlert :=
    mkAlert "face_not_detected" "Face not detected for extended period" "high" in
  setSecurityAlerts (fun prev => prev ++ [faceAwayAlert]) ;;
  endAssessment c violation.

(** *** The page as a transition system *)

(** The [disabled] attributes of the controls, and the early return that
    shows only the loader while [showTerminationLoader] is set (the inputs
    and the video monitor are not rendered then). *)
Definition micEnabled (s : State) : bool :=
  negb (showTerminationLoader s)
  && negb (isTyping s || isAISpeaking s || negb (waitingForUserResponse s)
           || isAssessmentTerminated s).

Definition textareaEnabled (s : State) : bool :=
  negb (showTerminationLoader s)
  && negb (isTyping s || isRecording s || isAISpeaking s
           || negb (waitingForUserResponse s) || isAssessmentTerminated s).

Definition sendEnabled (s : State) : bool :=
  negb (showTerminationLoader s)
  && negb (JS.blank (inputMessage s) || isTyping s || isAISpeaking s
           || negb (waitingForUserResponse s) || isAssessmentTerminated s).

Definition monitorMounted (s : State) : bool :=
  negb (showTerminationLoader s).

(** What can happen to the page. *)
Inductive Event :=
| Mount
| TimeoutFires (h : nat)
| SpeechEnds (j : nat)
| IntervalFires
| TypeText (input : string)
| ClickSend
| PressEnter
| ClickMicrophone
| RecognitionResult (interimText finalTranscript : string)
| RecognitionEnd
| SecurityAlertRaised (alert : SecurityAlert)
| FaceDetectionUpdate (data : FaceDetectionData)
| FaceAwayViolation.

Definition removeNth {A} (j : nat) (l : list A) : list A :=
  firstn j l ++ skipn (S j) l.

(** The handler an event runs.  Handlers reached from the rendered tree
    (inputs, props of the video monitor) are those of the latest render;
    timeouts, utterances, the interval, the recogniser and the memoised
    [handleFaceAwayViolation] run with the render they captured. *)
Definition dispatch (e : Event) : Action :=
  fun w =>
    let c := store w in
    match e with
    | Mount => initialize c w
    | TimeoutFires h =>
        match find (fun p => (handle p =? h)%nat) (timeouts w) with
        | Some p => runTimeout (callback p) (clearTimeout h w)
        | None => w
        end
    | SpeechEnds j =>
        match nth_error (utterances w) j with
        | Some u => utteranceDone u (on_utterances (removeNth j) w)
        | None => w
        end
    | IntervalFires =>
        match interval w with
        | Some ci => intervalCallback ci w
        | None => w
        end
    | TypeText input =>
        if textareaEnabled c then setInputMessage input w else w
    | ClickSend =>
        if sendEnabled c then handleSendMessage c (inputMessage c) w else w
    | PressEnter =>
        if textareaEnabled c then handleSendMessage c (inputMessage c) w else w
    | ClickMicrophone =>
        if micEnabled c then toggleMicrophone c w else w
    | RecognitionResult interimText finalTranscript =>
        match recognition w with
        | Some cr => if listening w then onresult cr interimText finalTranscript w else w
        | None => w
        end
    | RecognitionEnd =>
        if listening w then onend w else w
    | SecurityAlertRaised alert =>
        if monitorMounted c then handleSecurityAlert c alert w else w
    | FaceDetectionUpdate data =>
        if monitorMounted c then handleFaceDetectionUpdate data w else w
    | FaceAwayViolation =>
        if monitorMounted c then handleFaceAwayViolation (faceAwayMemo w) w else w
    end.

(** The render that follows an event.  The timer effect depends on
    [timerActive, timeRemaining, isAssessmentTerminated]: when one of them
    changed, the old interval is cleared and a new one is set up, by this
    render, if the timer may run.  [handleFaceAwayViolation] is memoised on
    [isAssessmentTerminated]. *)
Definition timerMayRun (s : State) : bool :=
  timerActive s && (0 <? timeRemaining s) && negb (isAssessmentTerminated s).

Definition sameTimerDeps (a b : State) : bool :=
  Bool.eqb (timerActive a) (timerActive b)
  && (timeRemaining a =? timeRemaining b)
  && Bool.eqb (isAssessmentTerminated a) (isAssessmentTerminated b).

Definition render (before : State) : Action :=
  fun w =>
    let s := store w in
    let w1 :=
      if sameTimerDeps before s then w
      else on_interval (fun _ => if timerMayRun s then Some s else None) w in
    if Bool.eqb (isAssessmentTerminated before) (isAssessmentTerminated s) then w1
    else on_faceAwayMemo (fun _ => s) w1.

Definition step (e : Event) (w : World) : World :=
  render (store w) (dispatch e w).

Definition run (events : list Event) (w : World) : World :=
  fold_left (fun w e => step e w) events w.

(** How many steps of a run turn [timerActive] from false to true. *)
Fixpoint timerStarts (events : list Event) (w : World) : nat :=
  match events with
  | [] => 0
  | e :: rest =>
      ((if negb (timerActive (store w)) && timerActive (store (step e w)) then 1 else 0)
       + timerStarts rest (step e w))%nat
  end.

(** The event is the timeout that asks question 0. *)
Definition asksFirstQuestion (e : Event) (w : World) : bool :=
  match e with
  | TimeoutFires h =>
      match find (fun p => (handle p =? h)%nat) (timeouts w) with
      | Some p =>
          match callback p with
          | AskQuestion _ 0 => true
          | _ => false
          end
      | None => false
      end
  | _ => false
  end.

(** What can still lead to question 0 being asked: the initialisation
    effect that has not run yet, its pending timeout, the welcome utterance
    and the timeout that asks question 0. *)
Definition leadsToFirstQuestion (p : Pending) : bool :=
  match callback p with
  | AfterMount _ | AskQuestion _ 0 => true
  | _ => false
  end.

Definition isWelcome (u : Utterance) : bool :=
  match onEnd u with
  | WelcomeSpoken _ => true
  | _ => false
  end.

Definition starters (w : World) : nat :=
  ((if assessmentInitialized (store w) then 0 else 1)
   + List.length (filter leadsToFirstQuestion (timeouts w))
   + List.length (filter isWelcome (utterances w)))%nat.

(** A session in which no question is answered passes through three kinds
    of worlds.  While question [k] is being spoken, all earlier questions
    having timed out, the only pending thing is the utterance of question
    [k], made by the render of the initialisation effect ... *)
Definition speaking (k : nat) (w : World) : Prop :=
  timeouts w = []
  /\ nextTimeout w = (2 + k)%nat
  /\ utterances w
     = [mkUtterance (nth k (questions config) "") (QuestionSpoken initialState k)]
  /\ delivered w = []
  /\ questionsAnswered (store w) = 0%nat.

(** ... while question [k] waits for an answer, its 30-second timeout ... *)
Definition awaiting (k : nat) (w : World) : Prop :=
  timeouts w = [mkPending (2 + k) 30000 (QuestionTimeout initialState k)]
  /\ nextTimeout w = (3 + k)%nat
  /\ utterances w = []
  /\ delivered w = []
  /\ questionsAnswered (store w) = 0%nat.

(** ... and while the closing message is being spoken, its utterance. *)
Definition closing (w : World) : Prop :=
  timeouts w = []
  /\ nextTimeout w = (2 + List.length (questions config))%nat
  /\ utterances w
     = [mkUtterance (completionMessage completed (List.length (questions config)))
          (CompletionSpoken (assessmentResult initialState completed))]
  /\ delivered w = []
  /\ isAssessmentTerminated (store w) = true
  /\ terminationReason (store w) = Some completed
  /\ questionsAnswered (store w) = 0%nat.

(** The renders captured by what is pending.  A render that went on to
    speak a question saw the session neither terminated nor waiting for a
    response nor answered, and the question exists; any other captured
    render either waits for a response or saw no response. *)
Definition quiet (c : State) : bool :=
  waitingForUserResponse c || negb (userHasResponded c).

Definition asked (c : State) (questionIndex : nat) : bool :=
  negb (isAssessmentTerminated c) && negb (waitingForUserResponse c)
  && negb (userHasResponded c)
  && (questionIndex <? List.length (questions config))%nat.

Definition timeoutSettled (p : Pending) : bool :=
  match callback p with
  | AfterMount c | AskQuestion c _ | Thinking c => quiet c
  | QuestionTimeout c questionIndex => asked c questionIndex
  | Deliver _ => true
  end.

Definition utteranceSettled (u : Utterance) : bool :=
  match onEnd u with
  | WelcomeSpoken c => quiet c
  | QuestionSpoken c questionIndex => asked c questionIndex
  | CompletionSpoken _ => true
  end.

Definition delivers (p : Pending) : bool :=
  match callback p with
  | Deliver _ => true
  | _ => false
  end.

Definition closes (u : Utterance) : bool :=
  match onEnd u with
  | CompletionSpoken _ => true
  | _ => false
  end.

(** Before the initialisation effect has run, nothing waits for a response
    and only a closing message and its result can be pending. *)
Definition unmounted (w : World) : Prop :=
  waitingForUserResponse (store w) = false
  /\ userHasResponded (store w) = false
  /\ recognition w = None
  /\ Forall (fun p => delivers p = true) (timeouts w)
  /\ Forall (fun u => closes u = true) (utterances w).

Definition settled (w : World) : Prop :=
  (assessmentInitialized (store w) = false -> unmounted w)
  /\ Forall (fun p => timeoutSettled p = true) (timeouts w)
  /\ Forall (fun u => utteranceSettled u = true) (utterances w)
  /\ match recognition w with
     | Some c => quiet c = true
     | None => True
     end.



(** The interval of the timer effect exists exactly while the timer may
    run, and the render it captured agrees with the current state on the
    dependencies of the effect. *)
Definition ticking (w : World) : Prop :=
  match interval w with
  | Some c => sameTimerDeps c (store w) = true /\ timerMayRun (store w) = true
  | None => timerMayRun (store w) = false
  end.

(** The page timer starts at ten minutes, whatever [config.duration] says. *)
Definition timerInRange (w : World) : Prop :=
  0 <= timeRemaining (store w) <= 600
  /\ (timeRemaining (store w) = 0 -> isAssessmentTerminated (store w) = true).



(** Every result on its way to the caller was built by [endAssessment]. *)
Definition built (r : AssessmentResult) : Prop :=
  exists c reason, r = assessmentResult c reason.

Definition deliversBuilt (p : Pending) : Prop :=
  match callback p with
  | Deliver r => built r
  | _ => True
  end.

Definition speaksBuilt (u : Utterance) : Prop :=
  match onEnd u with
  | CompletionSpoken r => built r
  | _ => True
  end.

Definition resultsBuilt (w : World) : Prop :=
  Forall deliversBuilt (timeouts w)
  /\ Forall speaksBuilt (utterances w)
  /\ Forall built (delivered w).

(** The interim messages of the conversation. *)
Definition interim (msg : ConversationMessage) : bool := is_interim_id (id msg).

Definition interimCount (l : list ConversationMessage) : nat :=
  List.length (filter interim l).

(** Without a speech recogniser nothing is ever dictated. *)
Definition deaf (w : World) : Prop :=
  recognition w = None
  /\ listening w = false
  /\ isRecording (store w) = false
  /\ interimTranscript (store w) = ""
  /\ interimCount (messages (store w)) = 0%nat.

End Component.

(** *** What the page shows *)

(** [formatTime] *)
Definition formatTime (seconds : Z) : string :=
  let minutes := seconds / 60 in
  let remainingSeconds := Z.rem seconds 60 in
  (JS.padStart 2 "0" (JS.showZ minutes) ++ ":"
   ++ JS.padStart 2 "0" (JS.showZ remainingSeconds))%string.

(** The classes of the timer badge in the header and the line under the
    time on the timer card. *)
Definition timerBadge (timeRemaining : Z) : string :=
  if timeRemaining <=? 300 then "bg-red-100 text-red-700"
  else if timeRemaining <=? 600 then "bg-orange-100 text-orange-700"
  else "bg-blue-100 text-blue-700".

Definition timerHint (timeRemaining : Z) : string :=
  if timeRemaining <=? 300 then "Hurry up!"
  else if timeRemaining <=? 600 then "Time running low"
  else "Keep going!".

(** [getLoaderContent], of the screen shown while [showTerminationLoader]
    is set. *)
Record LoaderContent := mkLoader {
  title : string;
  loaderMessage : string;
  bgColor : string;
  headerColor : string;
  iconColor : string;
  icon : string
}.

Definition getLoaderContent (terminationReason : option Reason) : LoaderContent :=
  match terminationReason with
  | Some completed =>
      mkLoader "Assessment Completed"
        "Congratulations! You have successfully completed your assessment."
        "from-green-50 to-green-100" "from-green-600 to-green-700" "text-green-600"
        "✓"
  | Some violation =>
      mkLoader "Assessment Terminated"
        "Your assessment was terminated due to security violations."
        "from-red-50 to-red-100" "from-red-600 to-red-700" "text-red-600"
        "⚠"
  | Some timeout =>
      mkLoader "Time Limit Exceeded"
        "Your assessment was terminated because the time limit was reached."
        "from-orange-50 to-orange-100" "from-orange-600 to-orange-700" "text-orange-600"
        "⏰"
  | None =>
      mkLoader "Processing" "Please wait..."
        "from-blue-50 to-blue-100" "from-blue-600 to-blue-700" "text-blue-600"
        "⏳"
  end.

(** While the loader is shown the session is terminated and has a reason. *)
Definition loaderHasReason (w : World) : Prop :=
  showTerminationLoader (store w) = true ->
  isAssessmentTerminated (store w) = true /\ terminationReason (store w) <> None.

End Chat.

(** ** The live-transcription variant
    (src/src/components/assessment/AssessmentInterface.tsx)

    The speech-recognition adapter of this variant (its refs, restart policy
    and transcript correction) and the audio-level meter are not embedded. *)

Module Live.

Inductive Sender := ai | candidate.

Record Message := mkMessage {
  id : string;
  sender : Sender;
  content : string;
  transcribed : bool
}.

Record SecurityAlert := mkAlert {
  alertId : string;
  alertType : string;
  alertMessage : string;
  severity : string
}.

Record FaceDetectionData := mkFaceData {
  faceDetected : bool;
  faceCount : nat
}.

Record AssessmentConfig := mkConfig {
  duration : Z;
  questions : list string;
  enableFaceDetection : bool;
  enableScreenLock : bool;
  enableAudioRecording : bool;
  maxViolations : nat
}.

(** The [useState] cells of the component. *)
Record State := mkState {
  isMuted : bool;
  isAssessmentActive : bool;
  currentQuestion : nat;
  messages : list Message;
  inputText : string;
  isAITyping : bool;
  timeRemaining : Z;
  timerStarted : bool;
  securityAlerts : list SecurityAlert;
  finalTranscript : string;
  faceDetectionData : FaceDetectionData;
  faceWarningCount : nat;
  showFaceWarning : bool;
  isAssessmentTerminated : bool;
  isAIReading : bool;
  canUserRespond : bool
}.

Definition with_isMuted (f : bool -> bool) (s : State) : State :=
  mkState (f (isMuted s)) (isAssessmentActive s) (currentQuestion s) (messages s)
    (inputText s) (isAITyping s) (timeRemaining s) (timerStarted s) (securityAlerts s)
    (finalTranscript s) (faceDetectionData s) (faceWarningCount s) (showFaceWarning s)
    (isAssessmentTerminated s) (isAIReading s) (canUserRespond s).
Definition with_isAssessmentActive (f : bool -> bool) (s : State) : State :=
  mkState (isMuted s) (f (isAssessmentActive s)) (currentQuestion s) (messages s)
    (inputText s) (isAITyping s) (timeRemaining s) (timerStarted s) (securityAlerts s)
    (finalTranscript s) (faceDetectionData s) (faceWarningCount s) (showFaceWarning s)
    (isAssessmentTerminated s) (isAIReading s) (canUserRespond s).
Definition with_currentQuestion (f : nat -> nat) (s : State) : State :=
  mkState (isMuted s) (isAssessmentActive s) (f (currentQuestion s)) (messages s)
    (inputText s) (isAITyping s) (timeRemaining s) (timerStarted s) (securityAlerts s)
    (finalTranscript s) (faceDetectionData s) (faceWarningCount s) (showFaceWarning s)
    (isAssessmentTerminated s) (isAIReading s) (canUserRespond s).
Definition with_messages (f : list Message -> list Message) (s : State) : State :=
  mkState (isMuted s) (isAssessmentActive s) (currentQuestion s) (f (messages s))
    (inputText s) (isAITyping s) (timeRemaining s) (timerStarted s) (securityAlerts s)
    (finalTranscript s) (faceDetectionData s) (faceWarningCount s) (showFaceWarning s)
    (isAssessmentTerminated s) (isAIReading s) (canUserRespond s).
Definition with_inputText (f : string -> string) (s : State) : State :=
  mkState (isMuted s) (isAssessmentActive s) (currentQuestion s) (messages s)
    (f (inputText s)) (isAITyping s) (timeRemaining s) (timerStarted s)
    (securityAlerts s) (finalTranscript s) (faceDetectionData s) (faceWarningCount s)
    (showFaceWarning s) (isAssessmentTerminated s) (isAIReading s) (canUserRespond s)
   .
Definition with_isAITyping (f : bool -> bool) (s : State) : State :=
  mkState (isMuted s) (isAssessmentActive s) (currentQuestion s) (messages s)
    (inputText s) (f (isAITyping s)) (timeRemaining s) (timerStarted s)
    (securityAlerts s) (finalTranscript s) (faceDetectionData s) (faceWarningCount s)
    (showFaceWarning s) (isAssessmentTerminated s) (isAIReading s) (canUserRespond s)
   .
Definition with_timeRemaining (f : Z -> Z) (s : State) : State :=
  mkState (isMuted s) (isAssessmentActive s) (currentQuestion s) (messages s)
    (inputText s) (isAITyping s) (f (timeRemaining s)) (timerStarted s)
    (securityAlerts s) (finalTranscript s) (faceDetectionData s) (faceWarningCount s)
    (showFaceWarning s) (isAssessmentTerminated s) (isAIReading s) (canUserRespond s)
   .
Definition with_timerStarted (f : bool -> bool) (s : State) : State :=
  mkState (isMuted s) (isAssessmentActive s) (currentQuestion s) (messages s)
    (inputText s) (isAITyping s) (timeRemaining s) (f (timerStarted s))
    (securityAlerts s) (finalTranscript s) (faceDetectionData s) (faceWarningCount s)
    (showFaceWarning s) (isAssessmentTerminated s) (isAIReading s) (canUserRespond s)
   .
Definition with_securityAlerts (f : list SecurityAlert -> list SecurityAlert) (s : State) : State :=
  mkState (isMuted s) (isAssessmentActive s) (currentQuestion s) (messages s)
    (inputText s) (isAITyping s) (timeRemaining s) (timerStarted s)
    (f (securityAlerts s)) (finalTranscript s) (faceDetectionData s)
    (faceWarningCount s) (showFaceWarning s) (isAssessmentTerminated s)
    (isAIReading s) (canUserRespond s).
Definition with_finalTranscript (f : string -> string) (s : State) : State :=
  mkState (isMuted s) (isAssessmentActive s) (currentQuestion s) (messages s)
    (inputText s) (isAITyping s) (timeRemaining s) (timerStarted s) (securityAlerts s)
    (f (finalTranscript s)) (faceDetectionData s) (faceWarningCount s)
    (showFaceWarning s) (isAssessmentTerminated s) (isAIReading s) (canUserRespond s)
   .
Definition with_faceDetectionData (f : FaceDetectionData -> FaceDetectionData) (s : State) : State :=
  mkState (isMuted s) (isAssessmentActive s) (currentQuestion s) (messages s)
    (inputText s) (isAITyping s) (timeRemaining s) (timerStarted s) (securityAlerts s)
    (finalTranscript s) (f (faceDetectionData s)) (faceWarningCount s)
    (showFaceWarning s) (isAssessmentTerminated s) (isAIReading s) (canUserRespond s)
   .
Definition with_faceWarningCount (f : nat -> nat) (s : State) : State :=
  mkState (isMuted s) (isAssessmentActive s) (currentQuestion s) (messages s)
    (inputText s) (isAITyping s) (timeRemaining s) (timerStarted s) (securityAlerts s)
    (finalTranscript s) (faceDetectionData s) (f (faceWarningCount s))
    (showFaceWarning s) (isAssessmentTerminated s) (isAIReading s) (canUserRespond s)
   .
Definition with_showFaceWarning (f : bool -> bool) (s : State) : State :=
  mkState (isMuted s) (isAssessmentActive s) (currentQuestion s) (messages s)
    (inputText s) (isAITyping s) (timeRemaining s) (timerStarted s) (securityAlerts s)
    (finalTranscript s) (faceDetectionData s) (faceWarningCount s)
    (f (showFaceWarning s)) (isAssessmentTerminated s) (isAIReading s)
    (canUserRespond s).
Definition with_isAssessmentTerminated (f : bool -> bool) (s : State) : State :=
  mkState (isMuted s) (isAssessmentActive s) (currentQuestion s) (messages s)
    (inputText s) (isAITyping s) (timeRemaining s) (timerStarted s) (securityAlerts s)
    (finalTranscript s) (faceDetectionData s) (faceWarningCount s) (showFaceWarning s)
    (f (isAssessmentTerminated s)) (isAIReading s) (canUserRespond s).
Definition with_isAIReading (f : bool -> bool) (s : State) : State :=
  mkState (isMuted s) (isAssessmentActive s) (currentQuestion s) (messages s)
    (inputText s) (isAITyping s) (timeRemaining s) (timerStarted s) (securityAlerts s)
    (finalTranscript s) (faceDetectionData s) (faceWarningCount s) (showFaceWarning s)
    (isAssessmentTerminated s) (f (isAIReading s)) (canUserRespond s).
Definition with_canUserRespond (f : bool -> bool) (s : State) : State :=
  mkState (isMuted s) (isAssessmentActive s) (currentQuestion s) (messages s)
    (inputText s) (isAITyping s) (timeRemaining s) (timerStarted s) (securityAlerts s)
    (finalTranscript s) (faceDetectionData s) (faceWarningCount s) (showFaceWarning s)
    (isAssessmentTerminated s) (isAIReading s) (f (canUserRespond s)).

(** The object handed to [onAssessmentComplete]. *)
Module Result.
Record AssessmentResult := mkResult {
  messagesCount : nat;
  securityAlertsCount : nat;
  messages : list Message;
  securityAlerts : list SecurityAlert;
  questionsAnswered : nat;
  totalQuestions : nat;
  userResponses : list string;
  terminationReason : option string
}.
End Result.
Definition AssessmentResult := Result.AssessmentResult.

(** Functions handed to [setTimeout]. *)
Inductive Timeout :=
| StartSpeaking (c : State) (welcome : string)
| Respond (c : State) (userMessage : Message)
| Complete (c : State) (userMessage : Message) (aiResponse : string)
| HideFaceWarning.

Record Pending := mkPending {
  handle : nat;
  delay : Z;
  callback : Timeout
}.

(** An utterance built by [speakText(text, isFirstQuestion)] in render [c]. *)
Record Utterance := mkUtterance {
  text : string;
  isFirstQuestion : bool;
  closure : State
}.

Record World := mkWorld {
  store : State;
  timeouts : list Pending;
  nextTimeout : nat;
  utterances : list Utterance;
  clock : nat;
  dialogs : list string;
  delivered : list AssessmentResult
}.

Definition on_store (f : State -> State) (s : World) : World :=
  mkWorld (f (store s)) (timeouts s) (nextTimeout s) (utterances s) (clock s)
    (dialogs s) (delivered s).
Definition on_timeouts (f : list Pending -> list Pending) (s : World) : World :=
  mkWorld (store s) (f (timeouts s)) (nextTimeout s) (utterances s) (clock s)
    (dialogs s) (delivered s).
Definition on_nextTimeout (f : nat -> nat) (s : World) : World :=
  mkWorld (store s) (timeouts s) (f (nextTimeout s)) (utterances s) (clock s)
    (dialogs s) (delivered s).
Definition on_utterances (f : list Utterance -> list Utterance) (s : World) : World :=
  mkWorld (store s) (timeouts s) (nextTimeout s) (f (utterances s)) (clock s)
    (dialogs s) (delivered s).
Definition on_clock (f : nat -> nat) (s : World) : World :=
  mkWorld (store s) (timeouts s) (nextTimeout s) (utterances s) (f (clock s))
    (dialogs s) (delivered s).
Definition on_dialogs (f : list string -> list string) (s : World) : World :=
  mkWorld (store s) (timeouts s) (nextTimeout s) (utterances s) (clock s)
    (f (dialogs s)) (delivered s).
Definition on_delivered (f : list AssessmentResult -> list AssessmentResult) (s : World) : World :=
  mkWorld (store s) (timeouts s) (nextTimeout s) (utterances s) (clock s) (dialogs s)
    (f (delivered s)).

Definition Action := World -> World.

Definition skip : Action := fun w => w.
Definition andThen (a b : Action) : Action := fun w => b (a w).
Notation "a ;; b" := (andThen a b) (at level 61, right associativity).
Definition when (b : bool) (a : Action) : Action := if b then a else skip.

Definition setState (u : State -> State) : Action := on_store u.

Definition setIsMuted v := setState (with_isMuted (fun _ => v)).
Definition setIsAssessmentActive v := setState (with_isAssessmentActive (fun _ => v)).
Definition setCurrentQuestion v := setState (with_currentQuestion (fun _ => v)).
Definition setMessages f := setState (with_messages f).
Definition setInputText v := setState (with_inputText (fun _ => v)).
Definition setIsAITyping v := setState (with_isAITyping (fun _ => v)).
Definition setTimeRemaining f := setState (with_timeRemaining f).
Definition setTimerStarted v := setState (with_timerStarted (fun _ => v)).
Definition setSecurityAlerts f := setState (with_securityAlerts f).
Definition setFinalTranscript v := setState (with_finalTranscript (fun _ => v)).
Definition setFaceDetectionData v := setState (with_faceDetectionData (fun _ => v)).
Definition setFaceWarningCount v := setState (with_faceWarningCount (fun _ => v)).
Definition setShowFaceWarning v := setState (with_showFaceWarning (fun _ => v)).
Definition setIsAssessmentTerminated v := setState (with_isAssessmentTerminated (fun _ => v)).
Definition setIsAIReading v := setState (with_isAIReading (fun _ => v)).
Definition setCanUserRespond v := setState (with_canUserRespond (fun _ => v)).

Definition setTimeout (k : Timeout) (ms : Z) : Action :=
  fun w =>
    on_nextTimeout S (on_timeouts (fun l => l ++ [mkPending (nextTimeout w) ms k]) w).

Definition alert (msg : string) : Action :=
  on_dialogs (fun l => l ++ [msg]).

Definition onAssessmentComplete (r : AssessmentResult) : Action :=
  on_delivered (fun l => l ++ [r]).

(** [Date.now()]: a clock that never shows the same value twice. *)
Definition dateNow (ret : nat -> Action) : Action :=
  fun w => ret (clock w) (on_clock S w).

Definition is_candidate (m : Message) : bool :=
  match sender m with candidate => true | ai => false end.

Section Component.

Variable config : AssessmentConfig.

(** ["speechSynthesis" in window] *)
Variable speechSynthesis : bool.

Definition initialState : State :=
  mkState true false 0%nat [] "" false (duration config * 60) false [] ""
    (mkFaceData false 0%nat) 0%nat false false false false.

Definition initialWorld : World :=
  mkWorld initialState [] 0%nat [] 0%nat [] [].

Definition handleSecurityAlert (alert : SecurityAlert) : Action :=
  setSecurityAlerts (fun prev => prev ++ [alert]).

Definition handleFaceDetectionUpdate (data : FaceDetectionData) : Action :=
  setFaceDetectionData data.

Definition handleFaceAwayViolation (c : State) : Action :=
  let newCount := (faceWarningCount c + 1)%nat in
  setFaceWarningCount newCount ;;
  if (2 <=? newCount)%nat then
    setIsAssessmentTerminated true ;;
    setIsAssessmentActive false ;;
    dateNow (fun now =>
    let assessmentResult :=
      Result.mkResult
        (List.length (filter is_candidate (messages c)))
        (List.length (securityAlerts c) + 1)
        (messages c)
        (securityAlerts c
         ++ [mkAlert (JS.show now) "face_not_detected"
               "Assessment terminated: Face not detected for extended period" "high"])
        (currentQuestion c)
        (List.length (questions config))
        (map content (filter is_candidate (messages c)))
        (Some "Assessment terminated: You have been away from the camera for more than 30 seconds twice.") in
    onAssessmentComplete assessmentResult)
  else
    setShowFaceWarning true ;;
    setTimeout HideFaceWarning 5000.

(** The function given to [setInterval] by the timer effect. *)
Definition intervalCallback (c : State) : Action :=
  fun w =>
    let prev := timeRemaining (store w) in
    if prev <=? 1 then
      (setIsAssessmentTerminated true ;;
       setIsAssessmentActive false ;;
       onAssessmentComplete
         (Result.mkResult
            (List.length (filter is_candidate (messages c)))
            (List.length (securityAlerts c))
            (messages c)
            (securityAlerts c)
            (currentQuestion c)
            (List.length (questions config))
            (map content (filter is_candidate (messages c)))
            (Some "Assessment terminated: Time limit reached.")) ;;
       setTimeRemaining (fun _ => 0)) w
    else setTimeRemaining (fun _ => prev - 1) w.

(** [speakText]: without speech synthesis nothing is spoken and no callback
    ever runs. *)
Definition speakText (c : State) (txt : string) (isFirst : bool) : Action :=
  when speechSynthesis (on_utterances (fun l => l ++ [mkUtterance txt isFirst c])).

(** [utterance.onstart] *)
Definition onstart (u : Utterance) : Action :=
  setIsAIReading true ;;
  setCanUserRespond false.

(** [utterance.onend] *)
Definition onend (u : Utterance) : Action :=
  setIsAIReading false ;;
  setCanUserRespond true ;;
  when (isFirstQuestion u) (setTimerStarted true) ;;
  when (isMuted (closure u)) (setIsMuted false).

(** [utterance.onerror] *)
Definition onerror (u : Utterance) : Action :=
  setIsAIReading false ;;
  setCanUserRespond true ;;
  when (isFirstQuestion u) (setTimerStarted true).

Definition toggleMute (c : State) : Action :=
  if isAIReading c then skip else setIsMuted (negb (isMuted c)).

Definition newline : string := String (ascii_of_nat 10) "".

Definition welcomeContent : string :=
  ("Welcome to your AI interview assessment. I'm your AI interviewer today. We have "
   ++ JS.showZ (duration config) ++ " minutes for "
   ++ JS.show (List.length (questions config)) ++ " questions. "
   ++ newline ++ newline
   ++ "Please ensure your camera and microphone are working properly. Keep your face aligned with the silhouette guide. You can respond using voice (which will be transcribed automatically) or by typing your responses."
   ++ newline ++ newline
   ++ "I will read each question aloud. Please wait for me to finish before responding. The timer will start after I finish reading the first question."
   ++ newline ++ newline
   ++ "Let's begin with our first question: "
   ++ nth 0 (questions config) "undefined")%string.

Definition startAssessment (c : State) : Action :=
  setIsAssessmentActive true ;;
  setFaceWarningCount 0%nat ;;
  setIsAssessmentTerminated false ;;
  setTimerStarted false ;;
  let welcomeMessage := mkMessage "1" ai welcomeContent false in
  setMessages (fun _ => [welcomeMessage]) ;;
  setTimeout (StartSpeaking c (content welcomeMessage)) 1000.

Definition sendMessage (c : State) : Action :=
  if negb (faceDetected (faceDetectionData c)) then
    alert "Please align your face with the camera before submitting your answer."
  else if JS.blank (inputText c) || negb (canUserRespond c) then skip
  else
    dateNow (fun now =>
    let userMessage :=
      mkMessage (JS.show now) candidate (inputText c) (JS.truthy (finalTranscript c)) in
    setMessages (fun prev => prev ++ [userMessage]) ;;
    setInputText "" ;;
    setFinalTranscript "" ;;
    setIsAITyping true ;;
    setCanUserRespond false ;;
    setIsMuted true ;;
    setTimeout (Respond c userMessage) 2000).

Definition completionResponse : string :=
  "Thank you for completing all the questions. Your assessment is now complete. We'll review your responses and get back to you soon.".

(** What a timeout does when it fires. *)
Definition runTimeout (k : Timeout) : Action :=
  match k with
  | StartSpeaking c txt => speakText c txt true
  | Respond c userMessage =>
      let nextQuestion := (currentQuestion c + 1)%nat in
      let more := (nextQuestion <? List.length (questions config))%nat in
      let aiResponse :=
        if more then
          ("Thank you for that response. Let's move on to question "
           ++ JS.show (nextQuestion + 1) ++ ": "
           ++ nth nextQuestion (questions config) "undefined")%string
        else completionResponse in
      (if more then setCurrentQuestion nextQuestion
       else setTimeout (Complete c userMessage aiResponse) 3000) ;;
      dateNow (fun now =>
      let aiMessage := mkMessage (JS.show (now + 1)) ai aiResponse false in
      setMessages (fun prev => prev ++ [aiMessage]) ;;
      setIsAITyping false ;;
      speakText c aiResponse false)
  | Complete c userMessage aiResponse =>
      dateNow (fun now =>
      onAssessmentComplete
        (Result.mkResult
           (List.length (messages c) + 2)
           (List.length (securityAlerts c))
           (messages c ++ [userMessage; mkMessage (JS.show (now + 1)) ai aiResponse false])
           (securityAlerts c)
           (List.length (questions config))
           (List.length (questions config))
           (map content (filter is_candidate (messages c)) ++ [content userMessage])
           None))
  | HideFaceWarning => setShowFaceWarning false
  end.

(** *** The page as a transition system *)

(** The start card is rendered while the assessment is not active; the
    input area while it is active and not terminated. *)
Definition startEnabled (s : State) : bool :=
  negb (isAssessmentActive s) && negb (isAssessmentTerminated s).

Definition inputAreaRendered (s : State) : bool :=
  isAssessmentActive s && negb (isAssessmentTerminated s).

Definition textareaEnabled (s : State) : bool :=
  inputAreaRendered s && negb (isAIReading s || negb (canUserRespond s)).

Definition sendEnabled (s : State) : bool :=
  inputAreaRendered s
  && negb (JS.blank (inputText s) || isAIReading s || negb (canUserRespond s)
           || negb (faceDetected (faceDetectionData s))).

Definition muteEnabled (s : State) : bool :=
  inputAreaRendered s && negb (isAIReading s).

(** The timer effect lists every value its callback reads among its
    dependencies, so the interval always belongs to the latest render. *)
Definition timerMayRun (s : State) : bool :=
  isAssessmentActive s && timerStarted s && (0 <? timeRemaining s)
  && negb (isAssessmentTerminated s).

Inductive Event :=
| ClickStart
| TimeoutFires (h : nat)
| SpeechStarts (j : nat)
| SpeechEnds (j : nat)
| SpeechFails (j : nat)
| IntervalFires
| TypeText (input : string)
| ClickSend
| PressEnter
| ClickMute
| SecurityAlertRaised (alert : SecurityAlert)
| FaceDetectionUpdate (data : FaceDetectionData)
| FaceAwayViolation.

Definition removeNth {A} (j : nat) (l : list A) : list A :=
  firstn j l ++ skipn (S j) l.

Definition dispatch (e : Event) : Action :=
  fun w =>
    let c := store w in
    match e with
    | ClickStart =>
        if startEnabled c then startAssessment c w else w
    | TimeoutFires h =>
        match find (fun p => (handle p =? h)%nat) (timeouts w) with
        | Some p =>
            runTimeout (callback p)
              (on_timeouts (filter (fun p => negb (handle p =? h)%nat)) w)
        | None => w
        end
    | SpeechStarts j =>
        match nth_error (utterances w) j with
        | Some u => onstart u w
        | None => w
        end
    | SpeechEnds j =>
        match nth_error (utterances w) j with
        | Some u => onend u (on_utterances (removeNth j) w)
        | None => w
        end
    | SpeechFails j =>
        match nth_error (utterances w) j with
        | Some u => onerror u (on_utterances (removeNth j) w)
        | None => w
        end
    | IntervalFires =>
        if timerMayRun c then intervalCallback c w else w
    | TypeText input =>
        if textareaEnabled c then setInputText input w else w
    | ClickSend =>
        if sendEnabled c then sendMessage c w else w
    | PressEnter =>
        if textareaEnabled c then sendMessage c w else w
    | ClickMute =>
        if muteEnabled c then toggleMute c w else w
    | SecurityAlertRaised alert => handleSecurityAlert alert w
    | FaceDetectionUpdate data => handleFaceDetectionUpdate data w
    | FaceAwayViolation => handleFaceAwayViolation c w
    end.

Definition step (e : Event) (w : World) : World := dispatch e w.

Definition run (events : list Event) (w : World) : World :=
  fold_left (fun w e => step e w) events w.

(** How many steps of a run turn [timerStarted] from false to true. *)
Fixpoint timerStarts (events : list Event) (w : World) : nat :=
  match events with
  | [] => 0
  | e :: rest =>
      ((if negb (timerStarted (store w)) && timerStarted (store (step e w)) then 1 else 0)
       + timerStarts rest (step e w))%nat
  end.

(** What can still lead to the first question being spoken: the start
    button, the timeout that speaks the welcome text, its utterance. *)
Definition speaksWelcome (p : Pending) : bool :=
  match callback p with
  | StartSpeaking _ _ => true
  | _ => false
  end.

Definition starters (w : World) : nat :=
  ((if startEnabled (store w) then 1 else 0)
   + List.length (filter speaksWelcome (timeouts w))
   + List.length (filter isFirstQuestion (utterances w)))%nat.

(** The event is the end or the error of an utterance flagged as the first
    question. *)
Definition firstQuestionCompleted (e : Event) (w : World) : bool :=
  match e with
  | SpeechEnds j | SpeechFails j =>
      match nth_error (utterances w) j with
      | Some u => isFirstQuestion u
      | None => false
      end
  | _ => false
  end.

(** What the three places that build a result agree on: the alert count is
    the length of the alert list, the responses are the candidate's messages
    of the transcript, in order, the total is the number of questions and the
    number of answered questions does not exceed it.  A result without a
    termination reason counts all messages of its transcript, one with a
    reason counts the candidate's. *)
Definition coherent (r : AssessmentResult) : Prop :=
  Result.securityAlertsCount r = List.length (Result.securityAlerts r)
  /\ Result.userResponses r = map content (filter is_candidate (Result.messages r))
  /\ Result.totalQuestions r = List.length (questions config)
  /\ (Result.questionsAnswered r <= Result.totalQuestions r)%nat
  /\ match Result.terminationReason r with
     | None =>
         Result.messagesCount r = List.length (Result.messages r)
         /\ Result.questionsAnswered r = Result.totalQuestions r
     | Some _ => Result.messagesCount r = List.length (Result.userResponses r)
     end.

(** The message carried by a pending reply or completion is the candidate's. *)
Definition carriesAnswer (p : Pending) : Prop :=
  match callback p with
  | Respond _ userMessage | Complete _ userMessage _ => sender userMessage = candidate
  | _ => True
  end.

Definition resultsCoherent (w : World) : Prop :=
  (currentQuestion (store w) <= List.length (questions config))%nat
  /\ Forall carriesAnswer (timeouts w)
  /\ Forall coherent (delivered w).

(** The page timer starts at [config.duration] minutes. *)
Definition timerInRange (w : World) : Prop :=
  timeRemaining (store w) <= duration config * 60
  /\ (0 <= duration config -> 0 <= timeRemaining (store w)).


(** *** What the page shows *)

(** [getProgressPercentage], and [Math.round] of it as the header shows it. *)
Definition getProgressPercentage (c : State) : JS.number :=
  JS.mul (JS.div (JS.of_nat (currentQuestion c + 1))
            (JS.of_nat (List.length (questions config))))
    (JS.of_Z 100).

Definition progressShown (c : State) : JS.number :=
  JS.round (getProgressPercentage c).

(** The sentence of the panel shown once [isAssessmentTerminated] is set. *)
Definition terminationCause (c : State) : string :=
  if timeRemaining c =? 0 then "time limit reached"
  else "repeated face detection failures (2 warnings)".

Definition timeLimitReached (r : AssessmentResult) : Prop :=
  Result.terminationReason r = Some "Assessment terminated: Time limit reached.".

Definition facedAway (r : AssessmentResult) : Prop :=
  Result.terminationReason r
  = Some "Assessment terminated: You have been away from the camera for more than 30 seconds twice.".

(** While the session is not terminated time is left and no result names a
    reason; once it is terminated, either the time is up and a result names
    the time limit, or time is left, a result names the face-away violations
    and none names the time limit. *)
Definition causeRecorded (w : World) : Prop :=
  if isAssessmentTerminated (store w)
  then (timeRemaining (store w) = 0 /\ Exists timeLimitReached (delivered w))
       \/ (0 < timeRemaining (store w) /\ Exists facedAway (delivered w)
           /\ Forall (fun r => ~ timeLimitReached r) (delivered w))
  else 0 < timeRemaining (store w)
       /\ Forall (fun r => Result.terminationReason r = None) (delivered w).

(** Without speech synthesis nothing is ever spoken: only the timeouts of
    the start and of the face warning can be pending, the candidate may not
    respond, the timer has not started, and a result can only come from
    face-away violations. *)
Definition silentTimeout (p : Pending) : Prop :=
  match callback p with
  | StartSpeaking _ _ | HideFaceWarning => True
  | _ => False
  end.

Definition silent (w : World) : Prop :=
  utterances w = []
  /\ Forall silentTimeout (timeouts w)
  /\ canUserRespond (store w) = false
  /\ isAIReading (store w) = false
  /\ timerStarted (store w) = false
  /\ timeRemaining (store w) = duration config * 60
  /\ currentQuestion (store w) = 0%nat
  /\ filter is_candidate (messages (store w)) = []
  /\ Forall facedAway (delivered w).

End Component.

(** [formatTime] *)
Definition formatTime (seconds : Z) : string :=
  let mins := seconds / 60 in
  let secs := Z.rem seconds 60 in
  (JS.padStart 2 "0" (JS.showZ mins) ++ ":" ++ JS.padStart 2 "0" (JS.showZ secs))%string.

(** [getTimerColor] *)
Definition getTimerColor (seconds : Z) : string :=
  if seconds <=? 60 then "bg-red-600 border-red-500"
  else if seconds <=? 120 then "bg-orange-600 border-orange-500"
  else "bg-black border-gray-600".

(** [autoCorrectTranscript] *)
Definition fillerWords : list string :=
  ["um"; "uh"; "er"; "ah"; "like"; "you know"; "sort of"; "kind of"; "basically"].

(** The chain of [.replace(/\b...\b/g, ...)] calls, in its order. *)
Definition grammarFixes : list (string * string) :=
  [("i", "I"); ("i'm", "I'm"); ("i've", "I've"); ("i'll", "I'll"); ("i'd", "I'd");
   ("im", "I'm"); ("dont", "don't"); ("wont", "won't"); ("cant", "can't");
   ("isnt", "isn't"); ("hasnt", "hasn't"); ("wasnt", "wasn't"); ("arent", "aren't");
   ("werent", "weren't"); ("havent", "haven't"); ("couldnt", "couldn't");
   ("wouldnt", "wouldn't"); ("shouldnt", "shouldn't")].

Definition removeFillers (fillers : list string) (text : string) : string :=
  fold_left (fun corrected filler => JS.replaceWord true filler "" corrected) fillers text.

Definition fixGrammar (fixes : list (string * string)) (corrected : string) : string :=
  fold_left (fun corrected rule => JS.replaceWord false (fst rule) (snd rule) corrected)
    fixes corrected.

Definition cleanSpaces (corrected : string) : string :=
  JS.trim (JS.replaceSpaces corrected).

Definition autoCorrectWith (fillers : list string) (fixes : list (string * string))
    (text : string) : string :=
  cleanSpaces (fixGrammar fixes (removeFillers fillers text)).

Definition autoCorrectTranscript (text : string) : string :=
  autoCorrectWith fillerWords grammarFixes text.


(** The pattern [/\bpat\b/] matches somewhere in [s], which follows
    [prev]. *)
Fixpoint occurs (ignoreCase : bool) (pat : string) (prev : option ascii) (s : string) : bool :=
  match s with
  | EmptyString => false
  | String a rest =>
      JS.wordAt ignoreCase pat prev s || occurs ignoreCase pat (Some a) rest
  end.


(** The text is one word: word characters only, at least one. *)
Fixpoint allWord (s : string) : bool :=
  match s with
  | EmptyString => true
  | String a rest => JS.is_word a && allWord rest
  end.

Definition oneWord (s : string) : bool :=
  JS.truthy s && allWord s.

(** The pattern starts and ends with a word character. *)
Fixpoint endsWithWord (last : bool) (s : string) : bool :=
  match s with
  | EmptyString => last
  | String a rest => endsWithWord (JS.is_word a) rest
  end.

Definition wordToWord (pat : string) : bool :=
  JS.is_word_opt (JS.head pat) && endsWithWord false pat.

(** The fillers of one word. *)
Definition singleWordFillers : list string := filter oneWord fillerWords.

(** The fixes for [i'm], [i've], [i'll] and [i'd], which come after the one
    for [i]. *)
Definition afterLoneI (rule : string * string) : bool :=
  match fst rule with
  | String "i" (String "'" _) => true
  | _ => false
  end.

End Live.
(** ** The scoring policy as the specification words it *)

Module Spec.

(** [round(100 * questionsAnswered / totalQuestions)], computed exactly,
    halves rounded up. *)
Definition score (questionsAnswered totalQuestions : nat) : Z :=
  Qfloor (100 * inject_Z (Z.of_nat questionsAnswered) / inject_Z (Z.of_nat totalQuestions)
          + (1 # 2))%Q.

(** [passed = (reason == completed) OR (score >= 60)] *)
Definition passed (completed : bool) (questionsAnswered totalQuestions : nat) : bool :=
  completed || (60 <=? score questionsAnswered totalQuestions).

End Spec.

(** ** Configurations and runs referred to by the statements below *)

Module ChatRuns.
Import Chat.

(** A browser with speech synthesis, speech recognition and a microphone. *)
Definition browser : Browser := mkBrowser true true true.

Definition oneQuestion : AssessmentConfig :=
  mkConfig 10 ["Q0"] true true true 2 false.

Definition twoQuestions : AssessmentConfig :=
  mkConfig 10 ["Q0"; "Q1"] true true true 2 false.

Definition threeQuestions : AssessmentConfig :=
  mkConfig 10 ["Q0"; "Q1"; "Q2"] true true true 2 false.

Definition twentyQuestions : AssessmentConfig :=
  mkConfig 10 (repeat "Tell me about yourself." 20) true true true 2 false.


Definition noQuestions : AssessmentConfig :=
  mkConfig 10 [] true true true 2 false.

(** A render in which [k] questions have been answered. *)
Definition answered (k : nat) : State :=
  with_questionsAnswered (fun _ => k) initialState.

Definition mediumAlert : SecurityAlert :=
  mkAlert "multiple_faces" "Multiple faces detected" "medium".

Definition highAlert : SecurityAlert :=
  mkAlert "tab_switch" "Candidate left the page" "high".

(** Mount, the welcome message is shown and spoken, question 0 is asked. *)
Definition askFirst : list Event :=
  [Mount; TimeoutFires 0; SpeechEnds 0; TimeoutFires 1].

(** ... and question 0 has been spoken: the candidate may answer. *)
Definition opening : list Event :=
  askFirst ++ [SpeechEnds 0].

(** Question [k] is spoken (three seconds) and left unanswered until its
    30-second timeout fires; the page timer ticks meanwhile. *)
Definition unanswered (k : nat) : list Event :=
  repeat IntervalFires 3 ++ [SpeechEnds 0] ++ repeat IntervalFires 30
  ++ [TimeoutFires (2 + k)].

(** Question 0 is answered by voice and question 1 by typing; then an alert
    of high severity arrives, the closing message is spoken and the result
    handed over. *)
Definition twoAnswersThenViolation : list Event :=
  opening
  ++ [ClickMicrophone; RecognitionResult "" "I have led two teams."]
  ++ [TimeoutFires 3; TimeoutFires 4; SpeechEnds 0]
  ++ [TypeText "I enjoy teamwork."; ClickSend; TimeoutFires 6; TimeoutFires 7]
  ++ [SecurityAlertRaised highAlert; SpeechEnds 0; TimeoutFires 8].



(** Two alerts of medium severity while question 0 waits for an answer. *)
Definition twoAlerts : list Event :=
  opening ++ [SecurityAlertRaised mediumAlert; SecurityAlertRaised mediumAlert].

(** Eighteen questions go unanswered; question 18 is spoken with five seconds
    left on the page timer, and the candidate types an answer in the last
    second before the timer expires. *)
Definition lastSecondAnswer : list Event :=
  askFirst ++ flat_map unanswered (seq 0 18)
  ++ repeat IntervalFires 3 ++ [SpeechEnds 0] ++ repeat IntervalFires 2
  ++ [TypeText "I have led two teams."; ClickSend].

(** No question is ever answered: every 30-second timeout fires, then the
    closing message is spoken and the result handed over. *)
Definition skipAll (n : nat) : list Event :=
  askFirst
  ++ flat_map (fun k => [SpeechEnds 0; TimeoutFires (2 + k)]) (seq 0 n)
  ++ [SpeechEnds 0; TimeoutFires (2 + n)].

(** A high-severity alert ends the session while question 0 waits for an
    answer; the closing message is spoken and the result handed over; then
    the 30-second timeout of question 0, which nothing cleared, fires. *)
Definition violationThenTimeout : list Event :=
  opening
  ++ [SecurityAlertRaised highAlert; SpeechEnds 0; TimeoutFires 3]
  ++ [TimeoutFires 2; SpeechEnds 0; TimeoutFires 4].

(** The candidate starts dictating, says nothing for 30 seconds so that
    question 1 is asked, and the recogniser delivers a final transcript while
    question 1 is being spoken. *)
Definition dictatedWhileSpeaking : list Event :=
  opening ++ [ClickMicrophone; TimeoutFires 2; RecognitionResult "" "I enjoy teamwork."].



(** A high-severity alert arrives while question 0 waits for an answer. *)
Definition endedByAlert : list Event :=
  opening ++ [SecurityAlertRaised highAlert].

(** The welcome message is spoken, question 0 is asked, and what is then
    spoken ends and its timeout fires. *)
Definition welcomeOnly : list Event :=
  askFirst ++ [SpeechEnds 0; TimeoutFires 2].

End ChatRuns.

Module LiveRuns.
Import Live.

(** One question, one minute. *)
Definition oneQuestion : AssessmentConfig :=
  mkConfig 1 ["Q0"] true true true 2.

Definition twoQuestions : AssessmentConfig :=
  mkConfig 5 ["Q0"; "Q1"] true true true 2.

Definition faceSeen : FaceDetectionData := mkFaceData true 1.

(** Start, the welcome message with question 0 is spoken to the end. *)
Definition opening : list Event :=
  [ClickStart; TimeoutFires 0; SpeechStarts 0; SpeechEnds 0].

(** Two face-away violations after the first question was read. *)
Definition twoViolations : list Event :=
  opening ++ [FaceAwayViolation; FaceAwayViolation].

(** The only question is answered with three seconds left; the reply is
    composed after two seconds, the page timer expires after three, and the
    completion scheduled by the reply fires after five. *)
Definition answerThenExpiry : list Event :=
  opening ++ [FaceDetectionUpdate faceSeen] ++ repeat IntervalFires 57
  ++ [TypeText "I have led two teams."; ClickSend]
  ++ [IntervalFires; IntervalFires; TimeoutFires 1; IntervalFires; TimeoutFires 2].




End LiveRuns.

(** ** The rational model of binary64 against the kernel's *)

Module Binary64Check.

(** [(a / b) * 100] by the kernel's floating-point unit ... *)
Definition kernel_ratio (a b : nat) : JS.number :=
  JS.of_spec_float
    (Prim2SF (JS.float_of_Z (Z.of_nat a) / JS.float_of_Z (Z.of_nat b)
              * JS.float_of_Z 100)%float).

(** ... and by [JS.div] and [JS.mul]. *)
Definition model_ratio (a b : nat) : JS.number :=
  JS.mul (JS.div (JS.of_nat a) (JS.of_nat b)) (JS.of_Z 100).


(** With [k] questions behind and [n] in all, the header of the
    live-transcription variant shows a whole percentage between 1 and 100,
    and 100 exactly at the last question. *)
Definition progress_ok (n k : nat) : bool :=
  match JS.round (JS.mul (JS.div (JS.of_nat (k + 1)) (JS.of_nat n)) (JS.of_Z 100)) with
  | JS.Finite q =>
      (Qden q =? 1)%positive && (1 <=? Qnum q) && (Qnum q <=? 100)
      && Bool.eqb (Qnum q =? 100) (k + 1 =? n)%nat
  | _ => false
  end.

End Binary64Check.

(** ** The clock face, to compare [formatTime] with *)

Module Clock.

(** The decimal digit [n]. *)
Definition digit (n : Z) : ascii := ascii_of_nat (48 + Z.to_nat n).

(** Tens and units of the minutes, a colon, tens and units of the seconds. *)
Definition clockFace (seconds : Z) : string :=
  String (digit (seconds / 600))
    (String (digit (seconds / 60 mod 10))
       (String ":"
          (String (digit (seconds mod 60 / 10))
             (String (digit (seconds mod 10)) EmptyString)))).

(** The seconds a clock face stands for. *)
Definition digitValue (a : ascii) : Z := Z.of_nat (nat_of_ascii a) - 48.

Definition clockValue (s : string) : Z :=
  match s with
  | String a (String b (String _ (String c (String d EmptyString)))) =>
      600 * digitValue a + 60 * digitValue b + 10 * digitValue c + digitValue d
  | _ => 0
  end.

Definition clockFace_agrees (n : nat) : bool :=
  String.eqb (Chat.formatTime (Z.of_nat n)) (clockFace (Z.of_nat n)).

Definition clockValue_agrees (n : nat) : bool :=
  clockValue (Chat.formatTime (Z.of_nat n)) =? Z.of_nat n.

End Clock.

(** * Numbers *)

Lemma JS_eqb_eq (a b : JS.number) : JS.eqb a b = true -> a = b.
Proof.
  destruct a as [[xn xd] | s | ], b as [[yn yd] | t | ]; simpl; try discriminate; auto.
  - intros H. apply andb_prop in H. destruct H as [Hn Hd].
    apply Z.eqb_eq in Hn. apply Pos.eqb_eq in Hd. now subst.
  - intros H. apply eqb_prop in H. now subst.
Qed.

Lemma forallb_seq (f : nat -> bool) (a len k : nat) :
  forallb f (seq a len) = true -> (a <= k < a + len)%nat -> f k = true.
Proof.
  intros H Hk. rewrite forallb_forall in H. apply H. apply in_seq. exact Hk.
Qed.

(** On every pair of counts up to 100 the rational model of binary64
    computes [(a / b) * 100] as the kernel's floating-point unit does. *)
Lemma binary64_matches_kernel (a b : nat) :
  (a <= 100)%nat -> (b <= 100)%nat -> Binary64Check.model_ratio a b = Binary64Check.kernel_ratio a b.
Proof.
  intros Ha Hb. apply JS_eqb_eq.
  assert (H : forallb (fun a => forallb (fun b => JS.eqb (Binary64Check.model_ratio a b) (Binary64Check.kernel_ratio a b))
                                  (seq 0 101)) (seq 0 101) = true)
    by (vm_compute; reflexivity).
  apply (forallb_seq _ 0 101 a) in H; [ | lia ].
  apply (forallb_seq _ 0 101 b) in H; [ exact H | lia ].
Qed.


Lemma nearest_even_ge (n d : Z) : 0 < d -> n / d <= JS.nearest_even n d.
Proof.
  intros Hd. unfold JS.nearest_even.
  destruct (2 * (n mod d) ?= d); [ destruct (Z.even (n / d)) | | ]; lia.
Qed.

Lemma Qred_num_pos (q : Q) : 0 < Qnum q -> 0 < Qnum (Qred q).
Proof.
  intros H. pose proof (Qred_correct q) as E. unfold Qeq in E.
  assert (0 < Z.pos (Qden q)) by lia. assert (0 < Z.pos (Qden (Qred q))) by lia.
  nia.
Qed.

Lemma round_pos_self (r : positive) : JS.round_pos r r = 1%Q.
Proof.
  unfold JS.round_pos. cbv zeta. rewrite Z.sub_diag. unfold JS.scaled.
  change (Z.max 0 (- (0 - 52))) with 52. change (Z.max 0 (0 - 52)) with 0.
  change (2 ^ 0) with 1. rewrite Z.mul_1_r.
  replace (2 ^ 52 * Z.pos r <=? Z.pos r * 2 ^ 52) with true
    by (symmetry; apply Z.leb_le; lia).
  cbv iota. change (Z.max 0 (- (0 - 52))) with 52. change (Z.max 0 (0 - 52)) with 0.
  change (2 ^ 0) with 1. rewrite Z.mul_1_r.
  unfold JS.nearest_even. cbv zeta.
  rewrite (Z.mul_comm (Z.pos r)), Z.div_mul, Z.mod_mul by lia.
  change (2 * 0) with 0. change (0 ?= Z.pos r) with Lt.
  vm_compute. reflexivity.
Qed.

Lemma binary64_div_self (x : Q) : 0 < Qnum x -> JS.binary64 (x / x)%Q = 1%Q.
Proof.
  destruct x as [[ | a | a] b]; simpl; try lia. intros _.
  unfold JS.binary64. simpl. rewrite (Pos.mul_comm b a). apply round_pos_self.
Qed.

Lemma binary64_num_pos (p : positive) : 0 < Qnum (JS.binary64 (inject_Z (Z.pos p))).
Proof.
  unfold JS.binary64, inject_Z. simpl Qnum. simpl Qden. unfold JS.round_pos.
  change (Z.log2 (Z.pos 1)) with 0. rewrite Z.sub_0_r.
  set (lead := Z.log2 (Z.pos p)).
  assert (Hlead : 2 ^ lead <= Z.pos p) by (apply Z.log2_spec; lia).
  assert (Hl0 : 0 <= lead) by apply Z.log2_nonneg.
  destruct (JS.scaled p 1 (lead - 52)) as [n0 d0].
  set (e := if 2 ^ 52 * d0 <=? n0 then lead - 52 else lead - 53).
  assert (He : e < lead) by (unfold e; destruct (2 ^ 52 * d0 <=? n0); lia).
  clearbody e. unfold JS.scaled.
  set (n := Z.pos p * 2 ^ Z.max 0 (- e)). set (d := Z.pos 1 * 2 ^ Z.max 0 e).
  assert (Hd : 0 < d) by (unfold d; apply Z.mul_pos_pos; [ lia | apply Z.pow_pos_nonneg; lia ]).
  assert (Hnd : d <= n).
  { unfold n, d. destruct (Z.leb_spec e 0).
    - rewrite (Z.max_l 0 e) by lia. change (2 ^ 0) with 1.
      assert (0 < 2 ^ Z.max 0 (- e)) by (apply Z.pow_pos_nonneg; lia). nia.
    - rewrite (Z.max_r 0 e), (Z.max_l 0 (- e)) by lia. change (2 ^ 0) with 1.
      assert (2 ^ e <= 2 ^ lead) by (apply Z.pow_le_mono_r; lia). lia. }
  assert (Hm : 0 < JS.nearest_even n d).
  { pose proof (nearest_even_ge n d Hd). 
    assert (1 <= n / d) by (apply Z.div_le_lower_bound; lia). lia. }
  apply Qred_num_pos.
  destruct (0 <=? e) eqn:E; simpl.
  - apply Z.leb_le in E. apply Z.mul_pos_pos; [ exact Hm | apply Z.pow_pos_nonneg; lia ].
  - exact Hm.
Qed.

Lemma percentage_all (n : nat) : (1 <= n)%nat -> Chat.percentage n n = JS.Finite 100.
Proof.
  intros Hn. unfold Chat.percentage, JS.of_nat, JS.of_Z at 1 2.
  destruct (Z.of_nat n) as [ | p | p] eqn:E; try lia.
  pose proof (binary64_num_pos p) as Hp.
  set (x := JS.binary64 (inject_Z (Z.pos p))) in *.
  unfold JS.div. unfold JS.is_zero.
  replace (Qnum x =? 0) with false by (symmetry; apply Z.eqb_neq; lia).
  rewrite binary64_div_self by exact Hp.
  vm_compute. reflexivity.
Qed.

(** * Lists *)

Section Lists.
Context {A : Type}.

Lemma filter_filter_length (P Q : A -> bool) (l : list A) :
  (List.length (filter P (filter Q l)) <= List.length (filter P l))%nat.
Proof.
  induction l as [ | a l IH]; simpl; auto.
  destruct (Q a), (P a) eqn:E; simpl; rewrite ?E; simpl; lia.
Qed.

Lemma filter_found (P Q : A -> bool) (l : list A) (a : A) :
  find Q l = Some a ->
  (List.length (filter P (filter (fun x => negb (Q x)) l)) + (if P a then 1 else 0)
   <= List.length (filter P l))%nat.
Proof.
  induction l as [ | b l IH]; simpl; [ discriminate | ].
  destruct (Q b) eqn:E; simpl.
  - intros H. injection H as ->.
    pose proof (filter_filter_length P (fun x => negb (Q x)) l).
    destruct (P a); simpl; lia.
  - intros H. specialize (IH H). destruct (P b); simpl; lia.
Qed.

Lemma filter_removeNth (P : A -> bool) (l : list A) (j : nat) (a : A) :
  nth_error l j = Some a ->
  (List.length (filter P (Chat.removeNth j l)) + (if P a then 1 else 0)
   = List.length (filter P l))%nat.
Proof.
  unfold Chat.removeNth. revert j. induction l as [ | b l IH]; intros [ | j]; simpl;
    try discriminate.
  - intros H. injection H as ->. destruct (P a); simpl; lia.
  - intros H. specialize (IH j H). simpl in IH. destruct (P b); simpl; lia.
Qed.

End Lists.

Section ListsForall.
Context {A : Type}.

Lemma Forall_filter_keep (P : A -> Prop) (f : A -> bool) (l : list A) :
  Forall P l -> Forall P (filter f l).
Proof.
  intros H. rewrite Forall_forall in *. intros x Hx. apply filter_In in Hx. now apply H.
Qed.

Lemma Forall_removeNth (P : A -> Prop) (j : nat) (l : list A) :
  Forall P l -> Forall P (Chat.removeNth j l).
Proof.
  unfold Chat.removeNth. revert j.
  induction l as [ | a l IH]; intros [ | j] H; simpl; auto.
  - now inversion H.
  - inversion H; subst. constructor; auto.
Qed.

Lemma Forall_snoc (P : A -> Prop) (l : list A) (x : A) :
  Forall P l -> P x -> Forall P (l ++ [x]).
Proof. intros H Hx. apply Forall_app. split; auto. Qed.

Lemma Forall_found (P : A -> Prop) (f : A -> bool) (l : list A) (x : A) :
  Forall P l -> find f l = Some x -> P x.
Proof.
  intros H Hf. apply find_some in Hf. rewrite Forall_forall in H. now apply H.
Qed.

Lemma Forall_nth_error (P : A -> Prop) (l : list A) (j : nat) (x : A) :
  Forall P l -> nth_error l j = Some x -> P x.
Proof.
  intros H Hn. apply nth_error_In in Hn. rewrite Forall_forall in H. now apply H.
Qed.

End ListsForall.

(** * Lists with fresh keys *)

Section FreshKeys.
Context {A : Type}.
Variable key : A -> nat.


Lemma find_below (n : nat) (l : list A) :
  Forall (fun p => (key p < n)%nat) l -> find (fun p => (key p =? n)%nat) l = None.
Proof.
  induction 1 as [ | a l Ha _ IH]; simpl; auto.
  assert (E : (key a =? n)%nat = false) by (apply Nat.eqb_neq; lia).
  now rewrite E.
Qed.




End FreshKeys.

(** * The chat-panel variant as a transition system *)

Module ChatFacts.
Import Chat ChatRuns.

Ltac unfold_handlers :=
  repeat progress unfold dispatch, initialize, initializeAudio, initializeSpeechRecognition,
    runTimeout, utteranceDone, intervalCallback, handleSendMessage, toggleMicrophone,
    startRecording, stopRecording, onresult, onend, handleSecurityAlert,
    handleFaceDetectionUpdate, handleFaceAwayViolation, askQuestion, endAssessment,
    speakText, onComplete, clearTimeout, setTimeout, uuidv4, onAssessmentComplete,
    setMessages, setInputMessage, setIsRecording, setIsTyping, setCurrentQuestionIndex,
    setTimeRemaining, setTimerActive, setSecurityAlerts, setFaceDetectionData,
    setInterimTranscript, setIsAISpeaking, setIsMicMuted, setWaitingForUserResponse,
    setUserHasResponded, setIsAssessmentTerminated, setTerminationReason,
    setShowTerminationLoader, setQuestionTimeoutRef, setAssessmentInitialized,
    setQuestionsAnswered, setState, when, andThen, skip in *.

Ltac split_cases :=
  repeat match goal with
    | |- context [match ?x with _ => _ end] =>
        match type of x with
        | bool => destruct x eqn:?
        | option _ => destruct x eqn:?
        | Timeout => destruct x eqn:?
        | OnComplete => destruct x eqn:?
        | nat => destruct x eqn:?
        end; cbn -[interimCount filter List.length] in *
    end.

Lemma render_store before w : store (render before w) = store w.
Proof.
  unfold render.
  destruct (sameTimerDeps before (store w));
    destruct (Bool.eqb (isAssessmentTerminated before) (isAssessmentTerminated (store w)));
    reflexivity.
Qed.

Lemma render_timeouts before w : timeouts (render before w) = timeouts w.
Proof.
  unfold render.
  destruct (sameTimerDeps before (store w));
    destruct (Bool.eqb (isAssessmentTerminated before) (isAssessmentTerminated (store w)));
    reflexivity.
Qed.

Lemma render_utterances before w : utterances (render before w) = utterances w.
Proof.
  unfold render.
  destruct (sameTimerDeps before (store w));
    destruct (Bool.eqb (isAssessmentTerminated before) (isAssessmentTerminated (store w)));
    reflexivity.
Qed.

Lemma render_starters before w : starters (render before w) = starters w.
Proof. unfold starters. now rewrite render_store, render_timeouts, render_utterances. Qed.

Lemma step_store config window e w :
  store (step config window e w) = store (dispatch config window e w).
Proof. unfold step. apply render_store. Qed.

(** Every step that turns the timer on uses up one of the [starters]. *)
Lemma chat_timer_step config window e w :
  ((if negb (timerActive (store w)) && timerActive (store (step config window e w))
    then 1 else 0)
   + starters (step config window e w) <= starters w)%nat.
Proof.
  unfold step. rewrite render_starters, render_store. unfold starters.
  pose proof (fun h => filter_filter_length leadsToFirstQuestion
                         (fun p => negb (handle p =? h)%nat) (timeouts w)) as HF.
  destruct (timerActive (store w)) eqn:ET;
    destruct e as [ | h | j | | | | | | | | | | ];
    unfold_handlers; cbn -[filter List.length];
    try (pose proof (filter_removeNth isWelcome (utterances w) j) as HU;
         destruct (nth_error (utterances w) j) as [u | ] eqn:E;
         [ specialize (HU u eq_refl); unfold isWelcome at 2 in HU | ]);
    try (pose proof (filter_found leadsToFirstQuestion (fun p => (handle p =? h)%nat)
                       (timeouts w)) as HT;
         destruct (find (fun p => (handle p =? h)%nat) (timeouts w)) as [p | ] eqn:E;
         [ specialize (HT p eq_refl); unfold leadsToFirstQuestion at 2 in HT | ]);
    cbn -[filter List.length]; rewrite ?ET;
    split_cases;
    rewrite ?Nat.add_1_r, ?filter_app, ?length_app; cbn -[filter List.length];
    rewrite ?ET; simpl;
    try match goal with
      | |- context [filter (fun p0 => negb (handle p0 =? ?x)%nat) (timeouts w)] =>
          pose proof (HF x)
      end;
    try congruence; try lia.
  all: try (match goal with
       | H : (?q =? 0)%nat && _ = true |- _ =>
           apply andb_prop in H; destruct H as [H _]; apply Nat.eqb_eq in H; subst q
       end; simpl in *; lia).
  all: match goal with
       | H : (_ + 1 =? 0)%nat && _ = true |- _ =>
           rewrite Nat.add_1_r in H; simpl in H; discriminate H
       end.
Qed.

(** The timer is turned on at most once in a run. *)
Lemma chat_timer_starts_bounded config window events w :
  (timerStarts config window events w + starters (run config window events w)
   <= starters w)%nat.
Proof.
  revert w. induction events as [ | e events IH]; intros w; simpl.
  - lia.
  - pose proof (chat_timer_step config window e w). specialize (IH (step config window e w)).
    unfold run in *. lia.
Qed.

(** It is turned on only by the timeout that asks question 0. *)
Lemma chat_timer_only_first_question config window e w :
  timerActive (store w) = false ->
  timerActive (store (step config window e w)) = true ->
  asksFirstQuestion e w = true.
Proof.
  rewrite step_store. intros ET. unfold asksFirstQuestion.
  destruct e as [ | h | j | | | | | | | | | | ];
    unfold_handlers; cbn;
    try (destruct (nth_error (utterances w) j) as [u | ] eqn:E);
    try (destruct (find (fun p => (handle p =? h)%nat) (timeouts w)) as [p | ] eqn:E);
    cbn; rewrite ?ET; split_cases; rewrite ?ET; try congruence.
  all: match goal with
       | H : (_ + 1 =? 0)%nat && _ = true |- _ =>
           rewrite Nat.add_1_r in H; simpl in H; discriminate H
       end.
Qed.

(** ** Interim messages *)

Lemma interimCount_app l1 l2 :
  interimCount (l1 ++ l2) = (interimCount l1 + interimCount l2)%nat.
Proof. unfold interimCount. now rewrite filter_app, length_app. Qed.

Lemma interimCount_not_interim l : interimCount (filter not_interim l) = 0%nat.
Proof.
  unfold interimCount, interim, not_interim. induction l as [ | m l IH]; simpl; auto.
  destruct (is_interim_id (id m)) eqn:E; simpl; auto. now rewrite E.
Qed.



(** ** The initialisation flag *)





Lemma run_app config window a b w :
  run config window (a ++ b) w = run config window b (run config window a w).
Proof. unfold run. apply fold_left_app. Qed.

Lemma render_delivered before w : delivered (render before w) = delivered w.
Proof.
  unfold render.
  destruct (sameTimerDeps before (store w));
    destruct (Bool.eqb (isAssessmentTerminated before) (isAssessmentTerminated (store w)));
    reflexivity.
Qed.

Lemma render_nextTimeout before w : nextTimeout (render before w) = nextTimeout w.
Proof.
  unfold render.
  destruct (sameTimerDeps before (store w));
    destruct (Bool.eqb (isAssessmentTerminated before) (isAssessmentTerminated (store w)));
    reflexivity.
Qed.

(** ** A session in which no question is answered *)

Ltac through_render :=
  rewrite ?render_timeouts, ?render_nextTimeout, ?render_utterances, ?render_delivered,
    ?render_store.

Ltac open_world w :=
  destruct w as [st to nt ut nu iv fm rc li dl]; cbn in *; subst.

Lemma speaking_first config window :
  speechSynthesis window = true ->
  (1 <= List.length (questions config))%nat ->
  speaking config 0 (run config window askFirst initialWorld).
Proof.
  destruct config as [d qs f1 f2 f3 mv ar], window as [ss sr gm].
  cbn. intros ->. destruct qs as [ | q rest]; cbn; [ lia | intros _ ].
  destruct sr, gm; vm_compute; repeat split; reflexivity.
Qed.

Ltac symbolic :=
  unfold_handlers; cbn -[Nat.ltb Nat.leb Nat.eqb];
  rewrite ?Nat.eqb_refl; cbn -[Nat.ltb Nat.leb Nat.eqb].

Lemma speaking_awaiting config window k w :
  speaking config k w -> awaiting k (step config window (SpeechEnds 0) w).
Proof.
  intros (Ht & Hn & Hu & Hd & Hq). open_world w.
  unfold awaiting, step. through_render. symbolic. auto.
Qed.

Lemma awaiting_speaking config window k w :
  speechSynthesis window = true ->
  awaiting k w -> (k + 1 < List.length (questions config))%nat ->
  speaking config (k + 1) (step config window (TimeoutFires (2 + k)) w).
Proof.
  intros Hs (Ht & Hn & Hu & Hd & Hq) Hk. open_world w.
  assert (H1 : (k + 1 <? List.length (questions config))%nat = true)
    by (apply Nat.ltb_lt; lia).
  assert (H2 : (List.length (questions config) <=? k + 1)%nat = false)
    by (apply Nat.leb_gt; lia).
  assert (H3 : (k + 1 =? 0)%nat = false) by (apply Nat.eqb_neq; lia).
  unfold speaking, step. through_render. symbolic.
  rewrite H1, H2, H3, Hs. cbn. rewrite Nat.eqb_refl, Nat.add_1_r. cbn. auto.
Qed.

Lemma awaiting_closing config window k w :
  speechSynthesis window = true ->
  awaiting k w -> (k + 1 = List.length (questions config))%nat ->
  closing config (step config window (TimeoutFires (2 + k)) w).
Proof.
  intros Hs (Ht & Hn & Hu & Hd & Hq) Hk. open_world w.
  assert (H1 : (k + 1 <? List.length (questions config))%nat = false)
    by (apply Nat.ltb_ge; lia).
  unfold closing, step. through_render. symbolic.
  rewrite H1, Hs. cbn. rewrite Nat.eqb_refl, <- Hk, Nat.add_1_r. cbn. auto 10.
Qed.

Lemma closing_delivered config window w :
  closing config w ->
  let w' := run config window
              [SpeechEnds 0; TimeoutFires (2 + List.length (questions config))] w in
  delivered w' = [assessmentResult config initialState completed]
  /\ isAssessmentTerminated (store w') = true
  /\ terminationReason (store w') = Some completed
  /\ questionsAnswered (store w') = 0%nat.
Proof.
  intros (Ht & Hn & Hu & Hd & Hi & Hr & Hq). open_world w.
  unfold run. simpl fold_left. unfold step. through_render. symbolic.
  through_render. symbolic. through_render. cbn. auto.
Qed.

(** Questions [k], [k + 1], ..., [k + m - 1] time out one after the other. *)
Lemma skipping config window m : forall k w,
  speechSynthesis window = true ->
  speaking config k w -> (k + m < List.length (questions config))%nat ->
  speaking config (k + m)
    (run config window
       (flat_map (fun k => [SpeechEnds 0; TimeoutFires (2 + k)]) (seq k m)) w).
Proof.
  induction m as [ | m IH]; intros k w Hs Hw Hk.
  - simpl. now rewrite Nat.add_0_r.
  - change (seq k (S m)) with (k :: seq (S k) m).
    change (flat_map ?f (k :: ?l)) with ([SpeechEnds 0; TimeoutFires (2 + k)] ++ flat_map f l).
    rewrite run_app.
    change (run config window [SpeechEnds 0; TimeoutFires (2 + k)] w)
      with (step config window (TimeoutFires (2 + k)) (step config window (SpeechEnds 0) w)).
    replace (k + S m)%nat with (S k + m)%nat by lia.
    apply IH; [ exact Hs | | lia ].
    pose proof (awaiting_speaking config window k _ Hs (speaking_awaiting config window k w Hw))
      as H.
    rewrite Nat.add_1_r in H. apply H. lia.
Qed.

(** The whole of [skipAll]. *)
Lemma skipAll_delivers config window :
  speechSynthesis window = true ->
  (1 <= List.length (questions config))%nat ->
  let w := run config window (skipAll (List.length (questions config))) initialWorld in
  delivered w = [assessmentResult config initialState completed]
  /\ isAssessmentTerminated (store w) = true
  /\ terminationReason (store w) = Some completed
  /\ questionsAnswered (store w) = 0%nat.
Proof.
  intros Hs Hn. set (n := List.length (questions config)) in *.
  unfold skipAll. rewrite !run_app.
  apply closing_delivered.
  assert (Hn1 : n = S (n - 1)) by lia.
  rewrite Hn1 at 1. rewrite seq_S, flat_map_app, run_app.
  change (flat_map ?f [?k]) with ([SpeechEnds 0; TimeoutFires (2 + k)]).
  change (run config window [SpeechEnds 0; TimeoutFires (2 + ?k)] ?w)
    with (step config window (TimeoutFires (2 + k)) (step config window (SpeechEnds 0) w)).
  apply awaiting_closing; [ exact Hs | | fold n; lia ].
  apply speaking_awaiting.
  apply skipping; [ exact Hs | | fold n; lia ].
  apply speaking_first; [ exact Hs | exact Hn ].
Qed.

(** ** The 30-second timeout of a question *)

(** When the utterance of question [i] completes, the timeout is armed. *)
Lemma question_spoken_arms (c : State) (i : nat) (q : string) (w : World) :
  let w' := utteranceDone (mkUtterance q (QuestionSpoken c i)) w in
  timeouts w' = timeouts w ++ [mkPending (nextTimeout w) 30000 (QuestionTimeout c i)]
  /\ waitingForUserResponse (store w') = true
  /\ questionTimeoutRef (store w') = Some (nextTimeout w)
  /\ isAISpeaking (store w') = false
  /\ questionsAnswered (store w') = questionsAnswered (store w).
Proof. unfold_handlers. cbn. auto. Qed.

(** If it fires on a question that has a successor, that one is asked. *)
Lemma question_timeout_advances config window c i w :
  speechSynthesis window = true ->
  isAssessmentTerminated c = false ->
  waitingForUserResponse c = false ->
  userHasResponded c = false ->
  (i + 1 < List.length (questions config))%nat ->
  let w' := runTimeout config window (QuestionTimeout c i) w in
  currentQuestionIndex (store w') = (i + 1)%nat
  /\ questionsAnswered (store w') = questionsAnswered (store w)
  /\ isAssessmentTerminated (store w') = isAssessmentTerminated (store w)
  /\ terminationReason (store w') = terminationReason (store w)
  /\ isAISpeaking (store w') = true
  /\ utterances w'
     = utterances w
       ++ [mkUtterance (nth (i + 1) (questions config) "") (QuestionSpoken c (i + 1))]
  /\ delivered w' = delivered w.
Proof.
  intros Hs Ht Hw Hr Hi.
  assert (H1 : (i + 1 <? List.length (questions config))%nat = true)
    by (apply Nat.ltb_lt; lia).
  assert (H2 : (List.length (questions config) <=? i + 1)%nat = false)
    by (apply Nat.leb_gt; lia).
  assert (H3 : (i + 1 =? 0)%nat = false) by (apply Nat.eqb_neq; lia).
  unfold_handlers. cbn -[Nat.ltb Nat.leb Nat.eqb].
  rewrite Ht, Hw, Hr, H1. cbn -[Nat.ltb Nat.leb Nat.eqb]. rewrite H2, H3, Hs. cbn. auto 10.
Qed.

(** If it fires on the last question, the session ends as completed. *)
Lemma question_timeout_completes config window c i w :
  speechSynthesis window = true ->
  isAssessmentTerminated c = false ->
  userHasResponded c = false ->
  (i + 1 = List.length (questions config))%nat ->
  let w' := runTimeout config window (QuestionTimeout c i) w in
  isAssessmentTerminated (store w') = true
  /\ terminationReason (store w') = Some completed
  /\ currentQuestionIndex (store w') = currentQuestionIndex (store w)
  /\ questionsAnswered (store w') = questionsAnswered (store w)
  /\ utterances w'
     = utterances w
       ++ [mkUtterance (completionMessage config completed (List.length (questions config)))
             (CompletionSpoken (assessmentResult config c completed))]
  /\ delivered w' = delivered w.
Proof.
  intros Hs Ht Hr Hi.
  assert (H1 : (i + 1 <? List.length (questions config))%nat = false)
    by (apply Nat.ltb_ge; lia).
  unfold_handlers. cbn -[Nat.ltb Nat.leb Nat.eqb].
  rewrite Ht, Hr, H1. cbn -[Nat.ltb Nat.leb Nat.eqb]. rewrite Hs.
  destruct (isRecording c); cbn; auto 10.
Qed.

(** ** Submissions *)



(** ** Interim messages *)





(** ** The timer *)

(** The step that turns the timer on queues the utterance of question 0. *)
Lemma timer_starts_with_question config window e w :
  speechSynthesis window = true ->
  timerActive (store w) = false ->
  timerActive (store (step config window e w)) = true ->
  exists c,
    utterances (step config window e w)
    = utterances w ++ [mkUtterance (nth 0 (questions config) "") (QuestionSpoken c 0)].
Proof.
  unfold step. rewrite render_store, render_utterances. intros Hs ET.
  destruct e as [ | h | j | | | | | | | | | | ];
    unfold_handlers; cbn;
    try (destruct (nth_error (utterances w) j) as [u | ] eqn:E);
    try (destruct (find (fun p => (handle p =? h)%nat) (timeouts w)) as [p | ] eqn:E);
    cbn; rewrite ?ET, ?Hs; split_cases; rewrite ?ET; try congruence.
  all: try match goal with
       | H : (_ + 1 =? 0)%nat && _ = true |- _ =>
           rewrite Nat.add_1_r in H; simpl in H; discriminate H
       end.
  apply andb_prop in Heqb1. destruct Heqb1 as [H0 _]. apply Nat.eqb_eq in H0. subst.
  intros _. now exists c.
Qed.

(** ** Results *)

Lemma render_resultsBuilt config before w :
  resultsBuilt config w -> resultsBuilt config (render before w).
Proof.
  unfold resultsBuilt. now rewrite render_timeouts, render_utterances, render_delivered.
Qed.

Ltac forall_cases :=
  repeat match goal with
    | |- _ /\ _ => split
    | |- Forall _ (_ ++ [_]) => apply Forall_snoc
    | |- Forall _ (filter _ _) => apply Forall_filter_keep
    | |- Forall _ (removeNth _ _) => apply Forall_removeNth
    | |- Forall _ ?l => assumption
    | |- deliversBuilt _ _ => exact I
    | |- speaksBuilt _ _ => exact I
    end.

Lemma built_step config window e w :
  resultsBuilt config w -> resultsBuilt config (step config window e w).
Proof.
  intros (HT & HU & HD). apply render_resultsBuilt. unfold resultsBuilt.
  destruct e as [ | h | j | | | | | | | | | | ];
    unfold_handlers; cbn;
    try (destruct (nth_error (utterances w) j) as [u | ] eqn:E;
         [ pose proof (Forall_nth_error _ _ _ _ HU E) as Hu; unfold speaksBuilt in Hu | ]);
    try (destruct (find (fun p => (handle p =? h)%nat) (timeouts w)) as [p | ] eqn:E;
         [ pose proof (Forall_found _ _ _ _ HT E) as Hp; unfold deliversBuilt in Hp | ]);
    cbn; split_cases; forall_cases.
  all: unfold speaksBuilt, deliversBuilt, built; cbn; eauto.
Qed.

Lemma built_run config window events w :
  resultsBuilt config w -> resultsBuilt config (run config window events w).
Proof.
  revert w. induction events as [ | e events IH]; intros w H; simpl; auto.
  apply IH. now apply built_step.
Qed.

(** Every result handed over in a run was built by [endAssessment]. *)
Lemma delivered_built config window events r :
  In r (delivered (run config window events initialWorld)) -> built config r.
Proof.
  intros H.
  assert (H0 : resultsBuilt config initialWorld) by (repeat split; constructor).
  destruct (built_run config window events initialWorld H0) as (_ & _ & HD).
  rewrite Forall_forall in HD. now apply HD.
Qed.

End ChatFacts.

(** * The live-transcription variant as a transition system *)

Module LiveFacts.
Import Live.

Ltac unfold_live_handlers :=
  repeat progress unfold step, dispatch, startAssessment, sendMessage, runTimeout, toggleMute,
    onstart, onend, onerror, speakText, intervalCallback, handleFaceAwayViolation,
    handleFaceDetectionUpdate, handleSecurityAlert, dateNow, onAssessmentComplete, alert,
    setTimeout, setIsMuted, setIsAssessmentActive, setCurrentQuestion, setMessages,
    setInputText, setIsAITyping, setTimeRemaining, setTimerStarted, setSecurityAlerts,
    setFinalTranscript, setFaceDetectionData, setFaceWarningCount, setShowFaceWarning,
    setIsAssessmentTerminated, setIsAIReading, setCanUserRespond, setState, when,
    andThen, skip in *.

Ltac split_live_cases :=
  repeat match goal with
    | |- context [match ?x with _ => _ end] =>
        match type of x with
        | bool => destruct x eqn:?
        | option _ => destruct x eqn:?
        | Timeout => destruct x eqn:?
        end; cbn -[filter List.length] in *
    end.

Lemma removeNth_same {A} (j : nat) (l : list A) : removeNth j l = Chat.removeNth j l.
Proof. reflexivity. Qed.

(** Every step that sets [timerStarted] uses up one of the [starters]. *)
Lemma live_timer_step config speech e w :
  ((if negb (timerStarted (store w)) && timerStarted (store (step config speech e w))
    then 1 else 0)
   + starters (step config speech e w) <= starters w)%nat.
Proof.
  unfold starters, startEnabled.
  pose proof (fun h => filter_filter_length speaksWelcome
                         (fun p => negb (handle p =? h)%nat) (timeouts w)) as HF.
  destruct (timerStarted (store w)) eqn:ET;
    destruct e as [ | h | j | j | j | | | | | | | | ];
    unfold_live_handlers; cbn -[filter List.length];
    try (pose proof (filter_removeNth isFirstQuestion (utterances w) j) as HU;
         rewrite <- removeNth_same in HU;
         destruct (nth_error (utterances w) j) as [u | ] eqn:E;
         [ specialize (HU u eq_refl) | ]);
    try (pose proof (filter_found speaksWelcome (fun p => (handle p =? h)%nat)
                       (timeouts w)) as HT;
         destruct (find (fun p => (handle p =? h)%nat) (timeouts w)) as [p | ] eqn:E;
         [ specialize (HT p eq_refl); unfold speaksWelcome at 2 in HT | ]);
    cbn -[filter List.length]; rewrite ?ET;
    split_live_cases;
    rewrite ?filter_app, ?length_app; cbn -[filter List.length];
    rewrite ?ET; simpl;
    try congruence; try lia.
  all: unfold startEnabled in *; congruence.
Qed.

Lemma live_timer_starts_bounded config speech events w :
  (timerStarts config speech events w + starters (run config speech events w)
   <= starters w)%nat.
Proof.
  revert w. induction events as [ | e events IH]; intros w; simpl.
  - lia.
  - pose proof (live_timer_step config speech e w). specialize (IH (step config speech e w)).
    unfold run in *. lia.
Qed.

(** [timerStarted] is set only by the end or the error of an utterance
    flagged as the first question. *)
Lemma live_timer_only_first_question config speech e w :
  timerStarted (store w) = false ->
  timerStarted (store (step config speech e w)) = true ->
  firstQuestionCompleted e w = true.
Proof.
  intros ET. unfold firstQuestionCompleted.
  destruct e as [ | h | j | j | j | | | | | | | | ];
    unfold_live_handlers; cbn;
    try (destruct (nth_error (utterances w) j) as [u | ] eqn:E);
    try (destruct (find (fun p => (handle p =? h)%nat) (timeouts w)) as [p | ] eqn:E);
    cbn; rewrite ?ET; split_live_cases; rewrite ?ET; try congruence.
Qed.

(** Once the start button is gone it never comes back. *)
Lemma start_disabled_step config speech e w :
  startEnabled (store w) = false ->
  startEnabled (store (step config speech e w)) = false.
Proof.
  unfold startEnabled. intros H.
  destruct e as [ | h | j | j | j | | | | | | | | ];
    unfold_live_handlers; cbn;
    try (destruct (nth_error (utterances w) j) as [u | ] eqn:E);
    try (destruct (find (fun p => (handle p =? h)%nat) (timeouts w)) as [p | ] eqn:E);
    cbn; rewrite ?H; split_live_cases; auto.
  all: unfold startEnabled in *; congruence.
Qed.




End LiveFacts.

(** * The result object of the chat-panel variant *)





(** * Violations *)

(** A report that reaches a terminated session is ignored. *)
Lemma alert_after_termination config window c alert w :
  Chat.isAssessmentTerminated c = true ->
  Chat.handleSecurityAlert config window c alert w = w
  /\ Chat.handleFaceAwayViolation config window c w = w.
Proof.
  intros H. unfold Chat.handleSecurityAlert, Chat.handleFaceAwayViolation.
  now rewrite H.
Qed.

(** C2, on the code: with maxViolations = 2, two reports of medium severity
    leave the session running, because [handleSecurityAlert] compares the
    number of alerts of its render, taken before the new alert is appended,
    with the maximum; the third report terminates it.  In the
    live-transcription variant the second face-away violation terminates the
    session and hands over a result, and a third one hands over a second
    result. *)
Theorem C2_third_report_terminates :
  let w2 := Chat.run ChatRuns.twoQuestions ChatRuns.browser ChatRuns.twoAlerts
              Chat.initialWorld in
  let w3 := Chat.step ChatRuns.twoQuestions ChatRuns.browser
              (Chat.SecurityAlertRaised ChatRuns.mediumAlert) w2 in
  let v2 := Live.run LiveRuns.twoQuestions true LiveRuns.twoViolations
              (Live.initialWorld LiveRuns.twoQuestions) in
  let v3 := Live.step LiveRuns.twoQuestions true Live.FaceAwayViolation v2 in
  Chat.maxViolations ChatRuns.twoQuestions = 2%nat
  /\ List.length (Chat.securityAlerts (Chat.store w2)) = 2%nat
  /\ Chat.isAssessmentTerminated (Chat.store w2) = false
  /\ List.length (Chat.securityAlerts (Chat.store w3)) = 3%nat
  /\ Chat.isAssessmentTerminated (Chat.store w3) = true
  /\ Chat.terminationReason (Chat.store w3) = Some Chat.violation
  /\ Live.isAssessmentTerminated (Live.store v2) = true
  /\ List.length (Live.delivered v2) = 1%nat
  /\ List.length (Live.delivered v3) = 2%nat.
Proof. vm_compute. repeat split; reflexivity. Qed.

(** * One result *)

(** C3, on the code: a high-severity alert ends a one-question session and
    its result is handed over; the 30-second timeout of question 0 is still
    pending, and when it fires it ends the session a second time, from the
    render of the initialisation effect, in which the session is not
    terminated: a second result, completed with score 100, is handed over.
    In the live-transcription variant the page timer expires between the
    last answer and the completion that answer scheduled, and both hand over
    a result. *)
Theorem C3_two_results_delivered :
  map (fun r => (Chat.Result.status r, Chat.Result.score r, Chat.Result.passed r))
      (Chat.delivered
         (Chat.run ChatRuns.oneQuestion ChatRuns.browser ChatRuns.violationThenTimeout
            Chat.initialWorld))
  = [("terminated", JS.Finite 0, false); ("completed", JS.Finite 100, true)]
  /\ map Live.Result.terminationReason
       (Live.delivered
          (Live.run LiveRuns.oneQuestion true LiveRuns.answerThenExpiry
             (Live.initialWorld LiveRuns.oneQuestion)))
     = [Some "Assessment terminated: Time limit reached."; None].
Proof. vm_compute. split; reflexivity. Qed.

(** * Expiry of the page timer *)

(** When the interval fires with at most one second left, the session ends
    with reason timeout and the result is computed from the render that set
    the interval up. *)
Lemma interval_expiry config window c w :
  Chat.speechSynthesis window = true ->
  Chat.isAssessmentTerminated c = false ->
  Chat.timeRemaining (Chat.store w) <= 1 ->
  let w' := Chat.intervalCallback config window c w in
  let r := Chat.assessmentResult config c Chat.timeout in
  Chat.isAssessmentTerminated (Chat.store w') = true
  /\ Chat.terminationReason (Chat.store w') = Some Chat.timeout
  /\ Chat.timeRemaining (Chat.store w') = 0
  /\ (exists msg, Chat.utterances w'
                  = Chat.utterances w ++ [Chat.mkUtterance msg (Chat.CompletionSpoken r)])
  /\ Chat.Result.status r = "terminated"
  /\ Chat.Result.questionsAnswered r = Chat.questionsAnswered c
  /\ Chat.Result.score r
     = Chat.percentage (Chat.questionsAnswered c) (List.length (Chat.questions config)).
Proof.
  intros Hs Ht Hr. unfold Chat.intervalCallback.
  apply Z.leb_le in Hr. rewrite Hr.
  ChatFacts.unfold_handlers. rewrite Ht, Hs.
  destruct (Chat.isRecording c); cbn; repeat split; eauto.
Qed.

(** C4, on the code: in a session of twenty questions the candidate types an
    answer during the last second of the page timer.  The store then counts
    one answered question, but the interval that fires next was set up by
    the render of the previous tick (the timer effect does not depend on
    [questionsAnswered]), so the result reports 0 questions answered and
    score 0. *)
Theorem C4_answer_in_last_second_not_counted :
  let w := Chat.run ChatRuns.twentyQuestions ChatRuns.browser ChatRuns.lastSecondAnswer
             Chat.initialWorld in
  let w' := Chat.run ChatRuns.twentyQuestions ChatRuns.browser
              [Chat.IntervalFires; Chat.SpeechEnds 0; Chat.TimeoutFires 22] w in
  Chat.timeRemaining (Chat.store w) = 1
  /\ Chat.isAssessmentTerminated (Chat.store w) = false
  /\ Chat.questionsAnswered (Chat.store w) = 1%nat
  /\ Chat.terminationReason (Chat.store w') = Some Chat.timeout
  /\ map (fun r => (Chat.Result.status r, Chat.Result.questionsAnswered r,
                    Chat.Result.score r, Chat.Result.passed r))
         (Chat.delivered w')
     = [("terminated", 0%nat, JS.Finite 0, false)]
  /\ Chat.percentage 1 20 = JS.Finite 5.
Proof. vm_compute. repeat split; reflexivity. Qed.

(** * The start of the page timer *)

(** C5, as stated, fails on the chat-panel variant: once the welcome message
    has been spoken and question 0 is asked, the timer is active and ticks
    while question 0 is still being spoken. *)
Lemma C5_timer_runs_while_first_question_is_spoken :
  let w := Chat.run ChatRuns.threeQuestions ChatRuns.browser ChatRuns.askFirst
             Chat.initialWorld in
  Chat.timerActive (Chat.store w) = true
  /\ Chat.isAISpeaking (Chat.store w) = true
  /\ Chat.waitingForUserResponse (Chat.store w) = false
  /\ Chat.utterances w
     = [Chat.mkUtterance "Q0" (Chat.QuestionSpoken Chat.initialState 0)]
  /\ Chat.timeRemaining
       (Chat.store (Chat.step ChatRuns.threeQuestions ChatRuns.browser Chat.IntervalFires w))
     = 599.
Proof. vm_compute. repeat split; reflexivity. Qed.

(** C5, amended: in every run the timer flag becomes true at most once.  In
    the live-transcription variant it does so only at the end or the error of
    the utterance flagged as the first question; in the chat-panel variant it
    does so only at the timeout that asks question 0, the step that queues
    the utterance of question 0, hence before that question has been
    spoken. *)
Theorem C5_timer_started_once :
  (forall config speech events,
     (Live.timerStarts config speech events (Live.initialWorld config) <= 1)%nat)
  /\ (forall config speech e w,
        Live.timerStarted (Live.store w) = false ->
        Live.timerStarted (Live.store (Live.step config speech e w)) = true ->
        Live.firstQuestionCompleted e w = true)
  /\ (forall config window events,
        (Chat.timerStarts config window events Chat.initialWorld <= 1)%nat)
  /\ (forall config window e w,
        Chat.speechSynthesis window = true ->
        Chat.timerActive (Chat.store w) = false ->
        Chat.timerActive (Chat.store (Chat.step config window e w)) = true ->
        Chat.asksFirstQuestion e w = true
        /\ exists c,
             Chat.utterances (Chat.step config window e w)
             = Chat.utterances w
               ++ [Chat.mkUtterance (nth 0 (Chat.questions config) "")
                     (Chat.QuestionSpoken c 0)]).
Proof.
  split; [ | split; [ | split ] ].
  - intros config speech events.
    pose proof (LiveFacts.live_timer_starts_bounded config speech events
                  (Live.initialWorld config)) as H.
    change (Live.starters (Live.initialWorld config)) with 1%nat in H. lia.
  - exact LiveFacts.live_timer_only_first_question.
  - intros config window events.
    pose proof (ChatFacts.chat_timer_starts_bounded config window events Chat.initialWorld) as H.
    change (Chat.starters Chat.initialWorld) with 1%nat in H. lia.
  - intros config window e w Hs H0 H1. split.
    + now apply (ChatFacts.chat_timer_only_first_question config window).
    + now apply ChatFacts.timer_starts_with_question.
Qed.

Lemma C5_timer_started_once_witness :
  Live.firstQuestionCompleted (Live.SpeechEnds 0)
    (Live.run LiveRuns.twoQuestions true
       [Live.ClickStart; Live.TimeoutFires 0; Live.SpeechStarts 0]
       (Live.initialWorld LiveRuns.twoQuestions)) = true
  /\ Chat.asksFirstQuestion (Chat.TimeoutFires 1)
       (Chat.run ChatRuns.twoQuestions ChatRuns.browser
          [Chat.Mount; Chat.TimeoutFires 0; Chat.SpeechEnds 0] Chat.initialWorld) = true.
Proof.
  destruct C5_timer_started_once as (_ & HL & _ & HC). split.
  - apply (HL LiveRuns.twoQuestions true); vm_compute; reflexivity.
  - apply (HC ChatRuns.twoQuestions ChatRuns.browser); vm_compute; reflexivity.
Defined.

(** * The response timeout of a question *)

(** C6, as stated, fails on the last question: when the 30-second timeout of
    the only question fires, no question is asked next and the session ends
    (with reason completed). *)
Lemma C6_timeout_on_last_question_ends_session :
  let w := Chat.run ChatRuns.oneQuestion ChatRuns.browser ChatRuns.opening
             Chat.initialWorld in
  let w' := Chat.step ChatRuns.oneQuestion ChatRuns.browser (Chat.TimeoutFires 2) w in
  Chat.waitingForUserResponse (Chat.store w) = true
  /\ Chat.isAssessmentTerminated (Chat.store w) = false
  /\ Chat.questionsAnswered (Chat.store w) = 0%nat
  /\ Chat.isAssessmentTerminated (Chat.store w') = true
  /\ Chat.terminationReason (Chat.store w') = Some Chat.completed
  /\ Chat.currentQuestionIndex (Chat.store w') = 0%nat
  /\ map Chat.text (Chat.utterances w')
     = ["Congratulations! You have successfully completed the assessment. Your responses have been recorded and will be analyzed."].
Proof. vm_compute. repeat split; reflexivity. Qed.

(** C6, amended: let question [i] have been asked by a render [c] (which
    then saw the session neither terminated nor waiting) that saw no
    response.  When the utterance of question [i] completes, a 30-second
    timeout is armed.  When it fires and question [i] is not the last one,
    question [i + 1] is asked, the count of answered questions and the
    termination flag are unchanged and no result is produced; when question
    [i] is the last one, the session ends with reason completed, the count of
    answered questions unchanged. *)
Theorem C6_question_timeout config window c i q w :
  Chat.speechSynthesis window = true ->
  Chat.isAssessmentTerminated c = false ->
  Chat.waitingForUserResponse c = false ->
  Chat.userHasResponded c = false ->
  (i < List.length (Chat.questions config))%nat ->
  let armed := Chat.utteranceDone (Chat.mkUtterance q (Chat.QuestionSpoken c i)) w in
  let fired := Chat.runTimeout config window (Chat.QuestionTimeout c i) w in
  Chat.timeouts armed
  = Chat.timeouts w ++ [Chat.mkPending (Chat.nextTimeout w) 30000 (Chat.QuestionTimeout c i)]
  /\ Chat.waitingForUserResponse (Chat.store armed) = true
  /\ Chat.questionsAnswered (Chat.store fired) = Chat.questionsAnswered (Chat.store w)
  /\ Chat.delivered fired = Chat.delivered w
  /\ ((i + 1 < List.length (Chat.questions config))%nat ->
      Chat.currentQuestionIndex (Chat.store fired) = (i + 1)%nat
      /\ Chat.isAssessmentTerminated (Chat.store fired)
         = Chat.isAssessmentTerminated (Chat.store w)
      /\ Chat.utterances fired
         = Chat.utterances w
           ++ [Chat.mkUtterance (nth (i + 1) (Chat.questions config) "")
                 (Chat.QuestionSpoken c (i + 1))])
  /\ ((i + 1 = List.length (Chat.questions config))%nat ->
      Chat.isAssessmentTerminated (Chat.store fired) = true
      /\ Chat.terminationReason (Chat.store fired) = Some Chat.completed).
Proof.
  intros Hs Ht Hw Hr Hi armed fired.
  destruct (ChatFacts.question_spoken_arms c i q w) as (A1 & A2 & _).
  split; [ exact A1 | ]. split; [ exact A2 | ].
  destruct (Nat.eq_dec (i + 1) (List.length (Chat.questions config))) as [E | E].
  - destruct (ChatFacts.question_timeout_completes config window c i w Hs Ht Hr E)
      as (B1 & B2 & _ & B4 & _ & B6).
    repeat split; auto; lia.
  - assert (Hlt : (i + 1 < List.length (Chat.questions config))%nat) by lia.
    destruct (ChatFacts.question_timeout_advances config window c i w Hs Ht Hw Hr Hlt)
      as (B1 & B2 & B3 & _ & _ & B6 & B7).
    repeat split; auto; lia.
Qed.

Lemma C6_question_timeout_witness :
  let fired := Chat.runTimeout ChatRuns.threeQuestions ChatRuns.browser
                 (Chat.QuestionTimeout Chat.initialState 0) Chat.initialWorld in
  Chat.currentQuestionIndex (Chat.store fired) = 1%nat
  /\ Chat.questionsAnswered (Chat.store fired) = 0%nat
  /\ Chat.isAssessmentTerminated (Chat.store fired) = false.
Proof.
  assert (Hi : (0 < List.length (Chat.questions ChatRuns.threeQuestions))%nat)
    by (simpl; lia).
  destruct (C6_question_timeout ChatRuns.threeQuestions ChatRuns.browser Chat.initialState
              0%nat "Q0" Chat.initialWorld eq_refl eq_refl eq_refl eq_refl Hi)
    as (_ & _ & Hq & _ & Hadv & _).
  assert (Hn : (0 + 1 < List.length (Chat.questions ChatRuns.threeQuestions))%nat)
    by (simpl; lia).
  destruct (Hadv Hn) as (H1 & H2 & _).
  cbv zeta. split; [ exact H1 | ]. split; [ exact Hq | exact H2 ].
Defined.

(** * Submissions out of turn *)




(** * Starting *)



(** * Interim messages *)



(** * A session without answers *)

(** C10: when every question, the last one included, times out without a
    response, exactly one result is handed over; its status is "completed",
    it reports all questions as answered, score 100 and passed, while the
    store still counts no answered question and records the reason
    completed. *)
Theorem C10_all_timeouts_complete config window :
  Chat.speechSynthesis window = true ->
  (1 <= List.length (Chat.questions config))%nat ->
  let n := List.length (Chat.questions config) in
  let w := Chat.run config window (ChatRuns.skipAll n) Chat.initialWorld in
  exists r,
    Chat.delivered w = [r]
    /\ Chat.Result.status r = "completed"
    /\ Chat.Result.terminationReason r = None
    /\ Chat.Result.questionsAnswered r = n
    /\ Chat.Result.totalQuestions r = n
    /\ Chat.Result.score r = JS.Finite 100
    /\ Chat.Result.passed r = true
    /\ Chat.terminationReason (Chat.store w) = Some Chat.completed
    /\ Chat.questionsAnswered (Chat.store w) = 0%nat.
Proof.
  intros Hs Hn n w.
  destruct (ChatFacts.skipAll_delivers config window Hs Hn) as (Hd & _ & Hr & Hq).
  exists (Chat.assessmentResult config Chat.initialState Chat.completed).
  split; [ exact Hd | ].
  repeat split; auto.
  apply percentage_all. exact Hn.
Qed.

Lemma C10_all_timeouts_complete_witness :
  exists r,
    Chat.delivered
      (Chat.run ChatRuns.threeQuestions ChatRuns.browser (ChatRuns.skipAll 3)
         Chat.initialWorld) = [r]
    /\ Chat.Result.questionsAnswered r = 3%nat
    /\ Chat.Result.score r = JS.Finite 100
    /\ Chat.Result.passed r = true.
Proof.
  assert (Hn : (1 <= List.length (Chat.questions ChatRuns.threeQuestions))%nat)
    by (simpl; lia).
  destruct (C10_all_timeouts_complete ChatRuns.threeQuestions ChatRuns.browser eq_refl Hn)
    as (r & Hd & _ & _ & Hq & _ & Hs & Hp & _).
  exists r. split; [ exact Hd | ]. split; [ exact Hq | ]. split; [ exact Hs | exact Hp ].
Defined.

(** * Invariants of the chat-panel variant *)

Module ChatInvariants.
Import Chat ChatRuns ChatFacts.

Lemma render_recognition before w : recognition (render before w) = recognition w.
Proof.
  unfold render.
  destruct (sameTimerDeps before (store w));
    destruct (Bool.eqb (isAssessmentTerminated before) (isAssessmentTerminated (store w)));
    reflexivity.
Qed.

Lemma render_settled config before w :
  settled config w -> settled config (render before w).
Proof.
  unfold settled, unmounted.
  now rewrite render_store, render_timeouts, render_utterances, render_recognition.
Qed.

Ltac bool_facts :=
  repeat match goal with
    | H : ?x = true |- _ => is_var x; subst x
    | H : ?x = false |- _ => is_var x; subst x
    | H : _ && _ = true |- _ => apply andb_prop in H; destruct H
    | H : negb _ = true |- _ => apply negb_true_iff in H
    | H : negb _ = false |- _ => apply negb_false_iff in H
    | H : _ || _ = false |- _ => apply orb_false_elim in H; destruct H
    | H : (_ <=? _)%nat = false |- _ => apply Nat.leb_gt in H
    | H : (_ <? _)%nat = true |- _ => apply Nat.ltb_lt in H
    | H : (_ <? _)%nat = false |- _ => apply Nat.ltb_ge in H
    end.

Ltac case_flags :=
  repeat match goal with
    | |- context [isAssessmentTerminated ?c] => destruct (isAssessmentTerminated c)
    | |- context [waitingForUserResponse ?c] => destruct (waitingForUserResponse c)
    | |- context [userHasResponded ?c] => destruct (userHasResponded c)
    | H : context [isAssessmentTerminated ?c] |- _ => destruct (isAssessmentTerminated c)
    | H : context [waitingForUserResponse ?c] |- _ => destruct (waitingForUserResponse c)
    | H : context [userHasResponded ?c] |- _ => destruct (userHasResponded c)
    end.

Ltac settle :=
  unfold timeoutSettled, utteranceSettled, quiet, asked,
    micEnabled, textareaEnabled, sendEnabled in *;
  cbn [callback onEnd] in *;
  case_flags;
  rewrite ?orb_true_r, ?andb_false_r in *;
  cbn [negb andb orb] in *;
  try congruence;
  try (apply Nat.ltb_lt; bool_facts; lia).

Ltac settled_cases :=
  repeat match goal with
    | |- _ /\ _ => split
    | |- _ = false -> _ => intros ?
    | |- Forall _ (_ ++ [_]) => apply Forall_snoc
    | |- Forall _ (filter _ _) => apply Forall_filter_keep
    | |- Forall _ (removeNth _ _) => apply Forall_removeNth
    | |- Forall _ ?l => assumption
    | |- True => exact I
    end.

Lemma settled_step config window e w :
  settled config w -> settled config (step config window e w).
Proof.
  intros (HK & HT & HU & HR). apply render_settled. unfold settled, unmounted in *.
  destruct (assessmentInitialized (store w)) eqn:EI;
    [ clear HK | destruct (HK eq_refl) as (K1 & K2 & K3 & K4 & K5); clear HK ].
  all: destruct e as [ | h | j | | | | | | | | | | ];
    unfold_handlers; cbn.
  all: try (destruct (nth_error (utterances w) j) as [u | ] eqn:E;
         [ pose proof (Forall_nth_error _ _ _ _ HU E) as Hu; unfold utteranceSettled in Hu;
           try (pose proof (Forall_nth_error _ _ _ _ K5 E) as Ku; unfold closes in Ku) | ]).
  all: try (destruct (find (fun p => (handle p =? h)%nat) (timeouts w)) as [p | ] eqn:E;
         [ pose proof (Forall_found _ _ _ _ HT E) as Hp; unfold timeoutSettled in Hp;
           try (pose proof (Forall_found _ _ _ _ K4 E) as Kp; unfold delivers in Kp) | ]).
  all: cbn; rewrite ?EI; cbn.
  all: split_cases.
  all: settled_cases.
  all: try congruence.
  all: try (unfold timeoutSettled, utteranceSettled, delivers, closes; cbn; congruence).
  all: settle.
Qed.

(** What every step keeps, every run keeps. *)
Lemma run_invariant (P : World -> Prop) config window :
  (forall e w, P w -> P (step config window e w)) ->
  forall events w, P w -> P (run config window events w).
Proof.
  intros Hstep events. induction events as [ | e events IH]; intros w H; simpl; auto.
Qed.

Lemma settled_initial config : settled config initialWorld.
Proof.
  unfold settled, unmounted. cbn. repeat split; auto.
Qed.

Lemma settled_run config window events :
  settled config (run config window events initialWorld).
Proof.
  apply (run_invariant (settled config)).
  - intros e w. apply settled_step.
  - apply settled_initial.
Qed.

(** The render captured by a pending question timeout. *)
Lemma pending_question_timeout config window events h p c i :
  let w := run config window events initialWorld in
  find (fun p => (handle p =? h)%nat) (timeouts w) = Some p ->
  callback p = QuestionTimeout c i ->
  isAssessmentTerminated c = false /\ waitingForUserResponse c = false
  /\ userHasResponded c = false /\ (i < List.length (questions config))%nat.
Proof.
  intros w Hf Hc.
  destruct (settled_run config window events) as (_ & HT & _ & _).
  pose proof (Forall_found _ _ _ _ HT Hf) as Hp.
  unfold timeoutSettled in Hp. rewrite Hc in Hp. unfold asked in Hp.
  bool_facts. auto.
Qed.

(** ** The page timer *)

Lemma sameTimerDeps_spec a b :
  sameTimerDeps a b = true
  <-> timerActive a = timerActive b
      /\ timeRemaining a = timeRemaining b
      /\ isAssessmentTerminated a = isAssessmentTerminated b.
Proof.
  unfold sameTimerDeps. rewrite !andb_true_iff, Z.eqb_eq.
  split.
  - intros [[H1 H2] H3]. apply Bool.eqb_prop in H1, H3. auto.
  - intros (H1 & H2 & H3). rewrite H1, H2, H3, !Bool.eqb_reflx. auto.
Qed.

Lemma timerMayRun_deps a b :
  sameTimerDeps a b = true -> timerMayRun a = timerMayRun b.
Proof.
  intros H. apply sameTimerDeps_spec in H. destruct H as (H1 & H2 & H3).
  unfold timerMayRun. now rewrite H1, H2, H3.
Qed.

Lemma dispatch_interval config window e w :
  interval (dispatch config window e w) = interval w.
Proof.
  destruct e; unfold_handlers; cbn; split_cases; congruence.
Qed.

Lemma ticking_step config window e w :
  ticking w -> ticking (step config window e w).
Proof.
  intros H. unfold step, render.
  set (d := dispatch config window e w).
  assert (Hi : interval d = interval w) by apply dispatch_interval.
  destruct (sameTimerDeps (store w) (store d)) eqn:ES.
  - assert (Ht : ticking d).
    { unfold ticking in *. rewrite Hi. rewrite <- (timerMayRun_deps _ _ ES).
      destruct (interval w) as [c | ]; auto.
      destruct H as [H1 H2]. split; auto.
      apply sameTimerDeps_spec in H1. apply sameTimerDeps_spec in ES.
      apply sameTimerDeps_spec. intuition congruence. }
    destruct (Bool.eqb (isAssessmentTerminated (store w)) (isAssessmentTerminated (store d)));
      exact Ht.
  - assert (Ht : ticking
                   (on_interval
                      (fun _ => if timerMayRun (store d) then Some (store d) else None) d)).
    { unfold ticking. cbn. destruct (timerMayRun (store d)) eqn:EM; auto.
      split; auto. apply sameTimerDeps_spec. auto. }
    destruct (Bool.eqb (isAssessmentTerminated (store w)) (isAssessmentTerminated (store d)));
      exact Ht.
Qed.

Lemma terminated_step config window e w :
  isAssessmentTerminated (store w) = true ->
  isAssessmentTerminated (store (step config window e w)) = true.
Proof.
  intros H. rewrite step_store.
  destruct e; unfold_handlers; cbn; split_cases; auto; congruence.
Qed.

(** A step leaves the time remaining alone or, when it is the interval
    firing while the timer is active and the session not terminated, lowers
    it by one. *)
Lemma tick_step config window e w :
  ticking w -> timerInRange w ->
  let w' := step config window e w in
  timerInRange w'
  /\ (timeRemaining (store w') = timeRemaining (store w)
      \/ (e = IntervalFires
          /\ timeRemaining (store w') = timeRemaining (store w) - 1
          /\ timerActive (store w) = true
          /\ isAssessmentTerminated (store w) = false)).
Proof.
  intros HT ((H0 & H1) & HZ) w'. subst w'. unfold timerInRange.
  rewrite step_store. unfold ticking in HT.
  destruct (interval w) as [ci | ] eqn:EI;
    destruct e; unfold_handlers; cbn -[Z.leb Z.sub]; rewrite ?EI; cbn -[Z.leb Z.sub].
  all: split_cases.
  all: try (repeat split; auto; lia).
  all: destruct HT as [HS HM]; apply sameTimerDeps_spec in HS; destruct HS as (S1 & S2 & S3);
    unfold timerMayRun in HM; apply andb_prop in HM; destruct HM as [HM M3];
    apply andb_prop in HM; destruct HM as [M1 M2];
    apply negb_true_iff in M3; apply Z.ltb_lt in M2.
  all: try congruence.
  all: try apply Z.leb_le in Heqb; try apply Z.leb_gt in Heqb.
  all: repeat split; auto; try lia.
  all: right; repeat split; auto; lia.
Qed.

Lemma timer_initial : ticking initialWorld /\ timerInRange initialWorld.
Proof.
  unfold ticking, timerInRange. cbn. repeat split; try lia; discriminate.
Qed.

Lemma timer_run config window events :
  let w := run config window events initialWorld in
  ticking w /\ timerInRange w.
Proof.
  apply (run_invariant (fun w => ticking w /\ timerInRange w)).
  - intros e w [H1 H2]. split.
    + now apply ticking_step.
    + now apply tick_step.
  - apply timer_initial.
Qed.

Lemma terminated_run config window events w :
  isAssessmentTerminated (store w) = true ->
  isAssessmentTerminated (store (run config window events w)) = true.
Proof.
  apply (run_invariant (fun w => isAssessmentTerminated (store w) = true)).
  intros e w0. apply terminated_step.
Qed.

(** Once the session is terminated the time remaining no longer changes. *)
Lemma frozen_run config window events w :
  ticking w -> timerInRange w ->
  isAssessmentTerminated (store w) = true ->
  timeRemaining (store (run config window events w)) = timeRemaining (store w).
Proof.
  revert w. induction events as [ | e events IH]; intros w HT HR Ht; simpl; auto.
  destruct (tick_step config window e w HT HR) as (HR' & [Hs | (_ & _ & _ & Hn)]).
  - rewrite IH; auto.
    + now apply ticking_step.
    + now apply terminated_step.
  - congruence.
Qed.

(** ** Handles of timeouts *)





(** ** Typed answers *)



(** ** The render captured by the recogniser *)




(** ** Dictated answers *)


(** ** The loader *)

Lemma loaderHasReason_step config window e w :
  loaderHasReason w -> loaderHasReason (step config window e w).
Proof.
  unfold loaderHasReason. rewrite step_store. intros H.
  destruct (showTerminationLoader (store w)) eqn:EL;
    [ destruct (H eq_refl) as [H1 H2]; clear H | clear H ].
  all: destruct e; unfold_handlers; cbn; rewrite ?EL; cbn; split_cases.
  all: try (intros _; split; [ assumption || reflexivity | assumption || discriminate ]).
  all: try (intros ?; congruence).
Qed.

Lemma loaderHasReason_run config window events :
  loaderHasReason (run config window events initialWorld).
Proof.
  apply (run_invariant loaderHasReason).
  - intros e w. apply loaderHasReason_step.
  - unfold loaderHasReason. cbn. discriminate.
Qed.

(** ** Alerts *)

Lemma alerts_step config window e w :
  exists more,
    securityAlerts (store (step config window e w)) = securityAlerts (store w) ++ more.
Proof.
  rewrite step_store.
  destruct e; unfold_handlers; cbn; split_cases;
    try (exists []; now rewrite app_nil_r); eexists; reflexivity.
Qed.

Lemma alerts_run config window events : forall w,
  exists more,
    securityAlerts (store (run config window events w)) = securityAlerts (store w) ++ more.
Proof.
  induction events as [ | e events IH]; intros w; simpl.
  - exists []. now rewrite app_nil_r.
  - destruct (IH (step config window e w)) as [m2 H2].
    destruct (alerts_step config window e w) as [m1 H1].
    exists (m1 ++ m2). unfold run in *. now rewrite H2, H1, app_assoc.
Qed.

(** ** Without a speech recogniser *)

Lemma render_listening before w : listening (render before w) = listening w.
Proof.
  unfold render.
  destruct (sameTimerDeps before (store w));
    destruct (Bool.eqb (isAssessmentTerminated before) (isAssessmentTerminated (store w)));
    reflexivity.
Qed.

Lemma deaf_step config window e w :
  speechRecognition window = false ->
  deaf w -> deaf (step config window e w).
Proof.
  intros Hs (H1 & H2 & H3 & H4 & H5). unfold deaf, step.
  rewrite render_recognition, render_listening, render_store.
  destruct e; unfold_handlers; cbn -[interimCount]; rewrite ?Hs, ?H1, ?H2;
    cbn -[interimCount]; split_cases;
    rewrite ?interimCount_app, ?interimCount_not_interim; cbn;
    rewrite ?Nat.add_0_r; auto 10; try congruence.
Qed.

Lemma deaf_run config window events :
  speechRecognition window = false -> deaf (run config window events initialWorld).
Proof.
  intros Hs. apply (run_invariant deaf).
  - intros e w. now apply deaf_step.
  - unfold deaf. cbn. auto.
Qed.

(** ** An empty list of questions *)

Lemma percentage_of_none (q : nat) :
  percentage q 0 = (if (q =? 0)%nat then JS.NaN else JS.Infinity false).
Proof.
  destruct q as [ | q]; [ reflexivity | ].
  assert (Hp : 0 < Qnum (JS.binary64 (inject_Z (Z.of_nat (S q))))).
  { rewrite Nat2Z.inj_succ, <- Z.add_1_r.
    destruct (Z.of_nat q + 1) as [ | p | p] eqn:E; try lia.
    apply binary64_num_pos. }
  assert (E1 : JS.is_zero (JS.binary64 (inject_Z (Z.of_nat (S q)))) = false)
    by (apply Z.eqb_neq; lia).
  assert (E2 : JS.is_neg (JS.binary64 (inject_Z (Z.of_nat (S q)))) = false)
    by (apply Z.ltb_ge; lia).
  unfold percentage, JS.of_nat, JS.of_Z.
  change (JS.binary64 (inject_Z (Z.of_nat 0))) with 0%Q.
  unfold JS.div.
  change (JS.is_zero 0%Q) with true. cbv iota.
  rewrite E1, E2. reflexivity.
Qed.

End ChatInvariants.

(** * Invariants of the live-transcription variant *)

Module LiveInvariants.
Import Live LiveFacts.

Lemma live_run_invariant (P : World -> Prop) config speech :
  (forall e w, P w -> P (step config speech e w)) ->
  forall events w, P w -> P (run config speech events w).
Proof.
  intros Hstep events. induction events as [ | e events IH]; intros w H; simpl; auto.
Qed.

Ltac live_events e h j :=
  destruct e as [ | h | j | j | j | | | | | | | | ].

Lemma live_terminated_step config speech e w :
  isAssessmentTerminated (store w) = true ->
  isAssessmentTerminated (store (step config speech e w)) = true.
Proof.
  intros H. live_events e h j; unfold_live_handlers; cbn;
    unfold startEnabled; rewrite ?H, ?andb_false_r; split_live_cases; auto; congruence.
Qed.

Lemma live_tick_step config speech e w :
  timerInRange config w ->
  let w' := step config speech e w in
  timerInRange config w'
  /\ (timeRemaining (store w') = timeRemaining (store w)
      \/ (e = IntervalFires
          /\ timerMayRun (store w) = true
          /\ timeRemaining (store w') = timeRemaining (store w) - 1
          /\ (1 < timeRemaining (store w) ->
              delivered w' = delivered w /\ isAssessmentTerminated (store w') = false)
          /\ (timeRemaining (store w) = 1 ->
              isAssessmentTerminated (store w') = true
              /\ exists r, delivered w' = delivered w ++ [r]
                           /\ Result.terminationReason r
                              = Some "Assessment terminated: Time limit reached."))).
Proof.
  intros [H1 H2] w'. subst w'. unfold timerInRange.
  live_events e h j; unfold_live_handlers; cbn -[Z.leb Z.sub Z.mul].
  all: split_live_cases.
  all: try (split; [ split; assumption | left; reflexivity ]).
  all: unfold timerMayRun in *;
    repeat match goal with
      | H : _ && _ = true |- _ => apply andb_prop in H; destruct H
      end;
    repeat match goal with
      | H : negb _ = true |- _ => apply negb_true_iff in H
      | H : (_ <? _) = true |- _ => apply Z.ltb_lt in H
      | H : (_ <=? _) = true |- _ => apply Z.leb_le in H
      | H : (_ <=? _) = false |- _ => apply Z.leb_gt in H
      end.
  all: split; [ split; intros; lia | right ].
  all: repeat split; auto; try lia; try (intros; lia).
  all: try (rewrite H, H0; reflexivity).
  eexists. split; reflexivity.
Qed.

Lemma live_timer_run config speech events :
  timerInRange config (run config speech events (initialWorld config)).
Proof.
  apply (live_run_invariant (timerInRange config)).
  - intros e w H. now apply live_tick_step.
  - unfold timerInRange. cbn. lia.
Qed.


(** After termination a step changes neither the time remaining, nor the
    text typed, nor the candidate's messages. *)
Lemma live_frozen_step config speech e w :
  isAssessmentTerminated (store w) = true ->
  let w' := step config speech e w in
  timeRemaining (store w') = timeRemaining (store w)
  /\ inputText (store w') = inputText (store w)
  /\ filter is_candidate (messages (store w')) = filter is_candidate (messages (store w)).
Proof.
  intros H. live_events e h j; unfold_live_handlers; cbn -[filter];
    unfold startEnabled, sendEnabled, textareaEnabled, inputAreaRendered, timerMayRun;
    rewrite ?H, ?andb_false_r; cbn -[filter]; split_live_cases; auto.
  all: rewrite filter_app; cbn; rewrite app_nil_r; auto.
Qed.


(** ** Results *)

Ltac coherent_cases :=
  repeat match goal with
    | |- _ /\ _ => split
    | |- Forall _ (_ ++ [_]) => apply Forall_snoc
    | |- Forall _ (filter _ _) => apply Forall_filter_keep
    | |- Forall _ ?l => assumption
    | |- carriesAnswer _ => exact I
    end.

Lemma coherent_step config speech e w :
  resultsCoherent config w -> resultsCoherent config (step config speech e w).
Proof.
  intros (HQ & HT & HD). unfold resultsCoherent.
  live_events e h j; unfold_live_handlers; cbn -[filter].
  all: try (destruct (find (fun p => (handle p =? h)%nat) (timeouts w)) as [p | ] eqn:E;
         [ pose proof (Forall_found _ _ _ _ HT E) as Hp; unfold carriesAnswer in Hp | ]).
  all: cbn -[filter]; split_live_cases; coherent_cases.
  all: try assumption.
  all: try (apply Nat.ltb_lt in Heqb; lia).
  all: unfold carriesAnswer, coherent; cbn -[filter]; auto.
  all: try (destruct (List.length (questions config));
            [ discriminate | apply Nat.leb_le in Heqb0; lia ]).
  all: rewrite ?filter_app, ?map_app, ?length_app, ?length_map; cbn;
    unfold is_candidate; rewrite ?Hp; cbn; repeat split; auto; lia.
Qed.

Lemma coherent_run config speech events :
  resultsCoherent config (run config speech events (initialWorld config)).
Proof.
  apply (live_run_invariant (resultsCoherent config)).
  - intros e w. apply coherent_step.
  - unfold resultsCoherent. cbn. repeat split; auto; lia.
Qed.

(** ** What the terminated panel says *)

Ltac cause_cases :=
  repeat match goal with
    | |- _ /\ _ => split
    | |- Forall _ (_ ++ [_]) => apply Forall_snoc
    | |- Forall _ ?l => assumption
    end.

Lemma causeRecorded_step config speech e w :
  causeRecorded w -> causeRecorded (step config speech e w).
Proof.
  unfold causeRecorded, timeLimitReached, facedAway. intros H.
  destruct (isAssessmentTerminated (store w)) eqn:ET.
  - pose proof (live_terminated_step config speech e w ET) as ET'. rewrite ET'.
    destruct (live_frozen_step config speech e w ET) as (Ht & _ & _). rewrite Ht.
    destruct H as [[H0 HE] | (H0 & HE & HF)]; [ left | right ]; (split; [ exact H0 | ]).
    + live_events e h j; unfold_live_handlers; cbn -[Z.leb];
        unfold startEnabled, sendEnabled, textareaEnabled, muteEnabled, inputAreaRendered,
          timerMayRun; rewrite ?ET, ?andb_false_r; cbn -[Z.leb];
        split_live_cases; auto.
      all: apply Exists_app; left; assumption.
    + live_events e h j; unfold_live_handlers; cbn -[Z.leb];
        unfold startEnabled, sendEnabled, textareaEnabled, muteEnabled, inputAreaRendered,
          timerMayRun; rewrite ?ET, ?andb_false_r; cbn -[Z.leb];
        split_live_cases; auto.
      all: split; [ apply Exists_app; left; assumption | ].
      all: apply Forall_snoc; [ assumption | cbn; discriminate ].
  - destruct H as [H0 HF].
    live_events e h j; unfold_live_handlers; cbn -[Z.leb Z.sub];
      rewrite ?ET; cbn -[Z.leb Z.sub]; split_live_cases; rewrite ?ET;
      cbn -[Z.leb Z.sub]; try congruence.
    all: assert (HF' : Forall (fun r : AssessmentResult =>
                                 Result.terminationReason r
                                 <> Some "Assessment terminated: Time limit reached.")
                         (delivered w))
        by (eapply Forall_impl; [ | exact HF ]; cbn; intros r Hr; congruence).
    all: repeat match goal with
           | H : (_ <=? _) = false |- _ => apply Z.leb_gt in H
           end.
    all: try (split; [ lia || assumption | cause_cases; auto ]).
    all: try (left; split;
              [ reflexivity | apply Exists_app; right; constructor; reflexivity ]).
    all: try (right; split; [ assumption | split;
              [ apply Exists_app; right; constructor; reflexivity
              | apply Forall_snoc; [ assumption | cbn; discriminate ] ] ]).
Qed.

Lemma causeRecorded_run config speech events :
  0 < duration config ->
  causeRecorded (run config speech events (initialWorld config)).
Proof.
  intros Hd. apply (live_run_invariant causeRecorded).
  - intros e w. apply causeRecorded_step.
  - unfold causeRecorded. cbn. split; [ lia | constructor ].
Qed.

(** ** The question shown *)

Lemma questionInRange_step config speech e w :
  (currentQuestion (store w) = 0%nat
   \/ currentQuestion (store w) < List.length (questions config))%nat ->
  (currentQuestion (store (step config speech e w)) = 0%nat
   \/ currentQuestion (store (step config speech e w)) < List.length (questions config))%nat.
Proof.
  intros H. live_events e h j; unfold_live_handlers; cbn -[Nat.ltb];
    split_live_cases; auto.
  all: right; apply Nat.ltb_lt; assumption.
Qed.

Lemma questionInRange_run config speech events :
  (1 <= List.length (questions config))%nat ->
  (currentQuestion (store (run config speech events (initialWorld config)))
   < List.length (questions config))%nat.
Proof.
  intros Hn.
  assert (H : (currentQuestion (store (run config speech events (initialWorld config))) = 0
               \/ currentQuestion (store (run config speech events (initialWorld config)))
                  < List.length (questions config))%nat).
  { apply (live_run_invariant
             (fun w => (currentQuestion (store w) = 0
                        \/ currentQuestion (store w) < List.length (questions config))%nat)).
    - intros e w. apply questionInRange_step.
    - left. reflexivity. }
  lia.
Qed.

Lemma progress_checked (n k : nat) :
  (1 <= n <= 100)%nat -> (k < n)%nat -> Binary64Check.progress_ok n k = true.
Proof.
  intros Hn Hk.
  assert (A : forallb (fun n => forallb (Binary64Check.progress_ok n) (seq 0 n)) (seq 1 100)
              = true) by (vm_compute; reflexivity).
  apply (forallb_seq _ 1 100 n) in A; [ | lia ].
  apply (forallb_seq _ 0 n k) in A; [ exact A | lia ].
Qed.

(** ** Lists that only grow *)

Lemma live_alerts_step config speech e w :
  exists more,
    securityAlerts (store (step config speech e w)) = securityAlerts (store w) ++ more.
Proof.
  live_events e h j; unfold_live_handlers; cbn; split_live_cases;
    try (exists []; now rewrite app_nil_r); eexists; reflexivity.
Qed.

Lemma live_alerts_run config speech events : forall w,
  exists more,
    securityAlerts (store (run config speech events w)) = securityAlerts (store w) ++ more.
Proof.
  induction events as [ | e events IH]; intros w; simpl.
  - exists []. now rewrite app_nil_r.
  - destruct (IH (step config speech e w)) as [m2 H2].
    destruct (live_alerts_step config speech e w) as [m1 H1].
    exists (m1 ++ m2). unfold run in *. now rewrite H2, H1, app_assoc.
Qed.

Lemma live_messages_step config speech e w :
  startEnabled (store w) = false ->
  exists more, messages (store (step config speech e w)) = messages (store w) ++ more.
Proof.
  intros H. live_events e h j; unfold_live_handlers; cbn; rewrite ?H; split_live_cases;
    try (exists []; now rewrite app_nil_r); eexists; reflexivity.
Qed.

Lemma live_messages_run config speech events : forall w,
  startEnabled (store w) = false ->
  exists more, messages (store (run config speech events w)) = messages (store w) ++ more.
Proof.
  induction events as [ | e events IH]; intros w H; simpl.
  - exists []. now rewrite app_nil_r.
  - destruct (IH (step config speech e w) (start_disabled_step config speech e w H))
      as [m2 H2].
    destruct (live_messages_step config speech e w H) as [m1 H1].
    exists (m1 ++ m2). unfold run in *. now rewrite H2, H1, app_assoc.
Qed.

(** ** Taking turns *)

Lemma turns_step config speech e w :
  isAIReading (store w) && canUserRespond (store w) = false ->
  isAIReading (store (step config speech e w))
  && canUserRespond (store (step config speech e w)) = false.
Proof.
  intros H. live_events e h j; unfold_live_handlers; cbn; split_live_cases;
    cbn; rewrite ?andb_false_r; auto.
  all: rewrite ?H, ?andb_false_r; auto.
  all: destruct (isAIReading (store w)); cbn in *; congruence.
Qed.

Lemma turns_run config speech events :
  isAIReading (store (run config speech events (initialWorld config)))
  && canUserRespond (store (run config speech events (initialWorld config))) = false.
Proof.
  apply (live_run_invariant
           (fun w => isAIReading (store w) && canUserRespond (store w) = false)).
  - intros e w. apply turns_step.
  - reflexivity.
Qed.

(** ** Without speech synthesis *)

Ltac silent_cases :=
  repeat match goal with
    | |- _ /\ _ => split
    | |- Forall _ (_ ++ [_]) => apply Forall_snoc
    | |- Forall _ (filter _ _) => apply Forall_filter_keep
    | |- Forall _ ?l => assumption
    | |- silentTimeout _ => exact I
    end.

Lemma silent_step config e w :
  silent config w -> silent config (step config false e w).
Proof.
  intros (HU & HT & HC & HR & HS & HM & HQ & HF & HD). unfold silent.
  live_events e h j; unfold_live_handlers; cbn -[Z.mul].
  all: rewrite ?HU; cbn -[Z.mul].
  all: try (destruct (find (fun p => (handle p =? h)%nat) (timeouts w)) as [p | ] eqn:E;
         [ pose proof (Forall_found _ _ _ _ HT E) as Hp; unfold silentTimeout in Hp | ]).
  all: try (destruct j; cbn -[Z.mul]).
  all: unfold textareaEnabled, sendEnabled, timerMayRun; rewrite ?HC, ?HS, ?HR;
    rewrite ?orb_true_r, ?andb_false_r; cbn -[Z.mul].
  all: split_live_cases; silent_cases; auto; try contradiction.
  reflexivity.
Qed.

Lemma silent_run config events :
  silent config (run config false events (initialWorld config)).
Proof.
  apply (live_run_invariant (silent config)).
  - intros e w. apply silent_step.
  - unfold silent. cbn -[Z.mul]. repeat split; auto.
Qed.

(** ** A session in which every question is answered *)

Import LiveRuns.

Ltac open_live_world w :=
  destruct w as [st to nt ut ck dg dl]; cbn in *; subst.






Lemma live_run_app config speech a b w :
  run config speech (a ++ b) w = run config speech b (run config speech a w).
Proof. unfold run. apply fold_left_app. Qed.





End LiveInvariants.

(** * The clock *)

Module ClockFacts.
Import Clock.

Lemma formatTime_clockFace (seconds : Z) :
  0 <= seconds < 6000 -> Chat.formatTime seconds = clockFace seconds.
Proof.
  intros H.
  assert (A : forallb clockFace_agrees (seq 0 (60 * 100)) = true) by (vm_compute; reflexivity).
  apply (forallb_seq _ 0 (60 * 100)%nat (Z.to_nat seconds)) in A; [ | lia ].
  unfold clockFace_agrees in A. rewrite Z2Nat.id in A by lia.
  now apply String.eqb_eq.
Qed.

Lemma clockValue_formatTime (seconds : Z) :
  0 <= seconds < 6000 -> clockValue (Chat.formatTime seconds) = seconds.
Proof.
  intros H.
  assert (A : forallb clockValue_agrees (seq 0 (60 * 100)) = true) by (vm_compute; reflexivity).
  apply (forallb_seq _ 0 (60 * 100)%nat (Z.to_nat seconds)) in A; [ | lia ].
  unfold clockValue_agrees in A. rewrite Z2Nat.id in A by lia.
  now apply Z.eqb_eq.
Qed.

End ClockFacts.

(** * The corrections of a transcript *)

Module TranscriptFacts.
Import Live.

(** ** White space *)







(** ** Replacements *)

(** Where the pattern matches nowhere the text is returned as it is. *)
Lemma replaceWord_absent ignoreCase pat rep s : forall prev,
  occurs ignoreCase pat prev s = false ->
  JS.replaceWordFrom ignoreCase pat rep prev 0 s = s.
Proof.
  induction s as [ | a rest IH]; intros prev H; [ reflexivity | ].
  cbn [occurs] in H. apply orb_false_iff in H. destruct H as [H1 H2].
  cbn [JS.replaceWordFrom]. rewrite H1. f_equal. now apply IH.
Qed.

(** White space is no word character. *)
Lemma space_not_word a : JS.is_space a = true -> JS.is_word a = false.
Proof.
  destruct a as [[] [] [] [] [] [] [] []]; vm_compute; congruence.
Qed.






(** ** The fix for a lone [i] *)

Lemma loneI_head rest prev :
  JS.is_word_opt (JS.head (JS.replaceWordFrom false "i" "I" prev 0 rest))
  = JS.is_word_opt (JS.head rest).
Proof.
  destruct rest as [ | b r]; [ reflexivity | ].
  cbn [JS.replaceWordFrom].
  destruct (JS.wordAt false "i" prev (String b r)) eqn:E; [ | reflexivity ].
  unfold JS.wordAt, JS.wordEnds in E. cbn [JS.literal] in E.
  unfold JS.same in E. destruct (Ascii.eqb_spec "i"%char b) as [ <- | ]; [ reflexivity | ].
  now rewrite andb_false_r in E.
Qed.

(** After the fix for [i] no lone [i] is left. *)
Lemma loneI_gone s : forall prev prev',
  JS.is_word_opt prev = JS.is_word_opt prev' ->
  occurs false "i" prev' (JS.replaceWordFrom false "i" "I" prev 0 s) = false.
Proof.
  induction s as [ | a rest IH]; intros prev prev' Hp; [ reflexivity | ].
  cbn [JS.replaceWordFrom].
  destruct (JS.wordAt false "i" prev (String a rest)) eqn:E.
  - change (String.length "i" - 1)%nat with 0%nat.
    change ("I" ++ ?x)%string with (String "I" x).
    cbn [occurs]. apply orb_false_iff. split.
    + unfold JS.wordAt, JS.wordEnds. cbn [JS.literal]. unfold JS.same.
      change (Ascii.eqb "i" "I") with false. cbv iota. apply andb_false_r.
    + apply IH. unfold JS.wordAt, JS.wordEnds in E. cbn [JS.literal] in E. unfold JS.same in E.
      destruct (Ascii.eqb_spec "i"%char a) as [ <- | ]; [ reflexivity | ].
      now rewrite andb_false_r in E.
  - cbn [occurs]. apply orb_false_iff. split; [ | now apply IH ].
    unfold JS.wordAt, JS.wordEnds in *. cbn [JS.literal] in *. unfold JS.boundary in *.
    cbn [JS.head] in *. rewrite <- Hp.
    destruct (JS.same false "i" a); [ | now rewrite andb_false_r in * ].
    now rewrite loneI_head.
Qed.

(** Where [i'...] matches, so does [i]. *)
Lemma loneI_prefix pat prev s :
  JS.wordAt false (String "i" (String "'" pat)) prev s = true ->
  JS.wordAt false "i" prev s = true.
Proof.
  unfold JS.wordAt, JS.wordEnds. cbn [JS.literal]. intros H.
  apply andb_true_iff in H. destruct H as [H1 H2]. rewrite H1. cbn [andb].
  destruct s as [ | a [ | b rest]]; try discriminate H2.
  - destruct (JS.same false "i" a); discriminate H2.
  - destruct (JS.same false "i" a) eqn:Ea; [ | discriminate H2 ].
    unfold JS.same in *.
    destruct (Ascii.eqb_spec "'"%char b) as [ <- | ]; [ | discriminate H2 ].
    apply Ascii.eqb_eq in Ea. now subst a.
Qed.

Lemma loneI_absent pat s : forall prev,
  occurs false "i" prev s = false ->
  occurs false (String "i" (String "'" pat)) prev s = false.
Proof.
  induction s as [ | a rest IH]; intros prev H; [ reflexivity | ].
  cbn [occurs] in *. apply orb_false_iff in H. destruct H as [H1 H2].
  rewrite (IH _ H2), orb_false_r.
  destruct (JS.wordAt false (String "i" (String "'" pat)) prev (String a rest)) eqn:E;
    [ | reflexivity ].
  apply loneI_prefix in E. congruence.
Qed.

(** The fixes for [i'm], [i've], [i'll] and [i'd] find nothing to replace. *)
Lemma afterLoneI_idle rule s :
  afterLoneI rule = true ->
  occurs false "i" None s = false ->
  JS.replaceWord false (fst rule) (snd rule) s = s.
Proof.
  intros Hr Hs. unfold afterLoneI in Hr.
  destruct (fst rule) as [ | p [ | q pat]]; try discriminate Hr.
  - destruct p as [[] [] [] [] [] [] [] []]; discriminate Hr.
  - destruct p as [[] [] [] [] [] [] [] []]; try discriminate Hr.
    destruct q as [[] [] [] [] [] [] [] []]; try discriminate Hr.
    apply replaceWord_absent. now apply loneI_absent.
Qed.

Lemma fixGrammar_idle fixes : forall s,
  occurs false "i" None s = false ->
  forallb afterLoneI fixes = true ->
  fixGrammar fixes s = s.
Proof.
  unfold fixGrammar.
  induction fixes as [ | f fixes IH]; intros s Hs Hf; [ reflexivity | ].
  cbn [forallb] in Hf. apply andb_true_iff in Hf. destruct Hf as [H1 H2].
  cbn [fold_left]. rewrite (afterLoneI_idle f s H1 Hs). now apply IH.
Qed.

Lemma fixGrammar_app a b s : fixGrammar (a ++ b) s = fixGrammar b (fixGrammar a s).
Proof. unfold fixGrammar. apply fold_left_app. Qed.

Lemma fixGrammar_loneI s :
  fixGrammar grammarFixes s
  = fixGrammar (filter (fun rule => negb (afterLoneI rule)) grammarFixes) s.
Proof.
  change grammarFixes
    with ([("i", "I")] ++ firstn 4 (skipn 1 grammarFixes) ++ skipn 5 grammarFixes) at 1.
  change (filter (fun rule => negb (afterLoneI rule)) grammarFixes)
    with ([("i", "I")] ++ skipn 5 grammarFixes).
  rewrite !fixGrammar_app. f_equal.
  apply fixGrammar_idle; [ | reflexivity ].
  unfold fixGrammar. cbn [fold_left fst snd]. unfold JS.replaceWord. now apply loneI_gone.
Qed.

(** ** Fillers of one word *)

Lemma upper_word a : JS.is_word (JS.upper a) = JS.is_word a.
Proof. destruct a as [[] [] [] [] [] [] [] []]; reflexivity. Qed.

Lemma same_word ignoreCase p a :
  JS.same ignoreCase p a = true -> JS.is_word a = JS.is_word p.
Proof.
  unfold JS.same. destruct ignoreCase; intros H; apply Ascii.eqb_eq in H.
  - now rewrite <- (upper_word a), <- (upper_word p), H.
  - now subst.
Qed.

Lemma wordEnds_prev ignoreCase pat p p' s :
  JS.is_word_opt p = JS.is_word_opt p' ->
  JS.wordEnds ignoreCase pat p s = JS.wordEnds ignoreCase pat p' s.
Proof.
  intros H. unfold JS.wordEnds. destruct pat as [ | c pat]; cbn [JS.literal].
  - unfold JS.boundary. now rewrite H.
  - reflexivity.
Qed.

Lemma wordAt_prev ignoreCase pat p p' s :
  JS.is_word_opt p = JS.is_word_opt p' ->
  JS.wordAt ignoreCase pat p s = JS.wordAt ignoreCase pat p' s.
Proof.
  intros H. unfold JS.wordAt. rewrite (wordEnds_prev ignoreCase pat p p' s H).
  unfold JS.boundary. now rewrite H.
Qed.

Lemma occurs_prev ignoreCase pat p p' s :
  JS.is_word_opt p = JS.is_word_opt p' ->
  occurs ignoreCase pat p s = occurs ignoreCase pat p' s.
Proof.
  intros H. destruct s as [ | a rest]; [ reflexivity | ].
  cbn [occurs]. now rewrite (wordAt_prev ignoreCase pat p p' _ H).
Qed.

(** A pattern that starts with a word character matches at no other
    character. *)
Lemma wordEnds_nonword ignoreCase pat p s :
  JS.is_word_opt (JS.head pat) = true ->
  JS.is_word_opt (JS.head s) = false ->
  JS.wordEnds ignoreCase pat p s = false.
Proof.
  intros Hp Hs. unfold JS.wordEnds.
  destruct pat as [ | c pat]; [ discriminate | ]. cbn [JS.literal].
  destruct s as [ | a rest]; [ reflexivity | ].
  destruct (JS.same ignoreCase c a) eqn:E; [ | reflexivity ].
  apply same_word in E. cbn in Hp, Hs. congruence.
Qed.

Lemma wordAt_nonword ignoreCase pat p s :
  JS.is_word_opt (JS.head pat) = true ->
  JS.is_word_opt (JS.head s) = false ->
  JS.wordAt ignoreCase pat p s = false.
Proof.
  intros Hp Hs. unfold JS.wordAt. rewrite (wordEnds_nonword _ _ _ _ Hp Hs).
  apply andb_false_r.
Qed.

(** Nor does it match inside a word. *)
Lemma wordAt_inside ignoreCase pat p s :
  JS.is_word_opt (JS.head pat) = true ->
  JS.is_word_opt p = true ->
  JS.wordAt ignoreCase pat p s = false.
Proof.
  intros Hp Hprev.
  destruct (JS.is_word_opt (JS.head s)) eqn:Hs.
  - unfold JS.wordAt, JS.boundary. now rewrite Hprev, Hs.
  - now apply wordAt_nonword.
Qed.

(** What [literal] returns. *)
Lemma literal_last ignoreCase pat : forall p s l t,
  JS.literal ignoreCase pat p s = Some (l, t) ->
  JS.is_word_opt l = endsWithWord (JS.is_word_opt p) pat.
Proof.
  induction pat as [ | c pat IH]; intros p s l t H; cbn [JS.literal] in H.
  - now inversion H.
  - destruct s as [ | a rest]; [ discriminate | ].
    destruct (JS.same ignoreCase c a) eqn:E; [ | discriminate ].
    rewrite (IH _ _ _ _ H). cbn [endsWithWord JS.is_word_opt].
    now rewrite (same_word _ _ _ E).
Qed.

Lemma endsWithWord_any pat b b' :
  JS.truthy pat = true -> endsWithWord b pat = endsWithWord b' pat.
Proof. destruct pat; [ discriminate | reflexivity ]. Qed.

Lemma literal_length ignoreCase pat : forall p s l t,
  JS.literal ignoreCase pat p s = Some (l, t) ->
  (String.length t + String.length pat = String.length s)%nat.
Proof.
  induction pat as [ | c pat IH]; intros p s l t H; cbn [JS.literal] in H.
  - inversion H. cbn. lia.
  - destruct s as [ | a rest]; [ discriminate | ].
    destruct (JS.same ignoreCase c a); [ | discriminate ].
    apply IH in H. cbn [String.length]. lia.
Qed.

Lemma literal_occurs ignoreCase pat ci f : forall p0 p s l t,
  JS.literal ignoreCase pat p0 s = Some (l, t) ->
  occurs ci f p s = false ->
  occurs ci f (match pat with EmptyString => p | _ => l end) t = false.
Proof.
  induction pat as [ | c pat IH]; intros p0 p s l t H Ho; cbn [JS.literal] in H.
  - inversion H. now subst.
  - destruct s as [ | a rest]; [ discriminate | ].
    destruct (JS.same ignoreCase c a); [ | discriminate ].
    cbn [occurs] in Ho. apply orb_false_iff in Ho. destruct Ho as [_ Ho].
    specialize (IH (Some a) (Some a) rest l t H Ho).
    destruct pat; [ | exact IH ].
    cbn [JS.literal] in H. inversion H. now subst.
Qed.

Lemma literal_skip ignoreCase pat ci Q rep : forall p0 p s l t,
  JS.literal ignoreCase pat p0 s = Some (l, t) ->
  JS.replaceWordFrom ci Q rep p (String.length pat) s
  = JS.replaceWordFrom ci Q rep (match pat with EmptyString => p | _ => l end) 0 t.
Proof.
  induction pat as [ | c pat IH]; intros p0 p s l t H; cbn [JS.literal] in H.
  - inversion H. now subst.
  - destruct s as [ | a rest]; [ discriminate | ].
    destruct (JS.same ignoreCase c a); [ | discriminate ].
    cbn [String.length JS.replaceWordFrom].
    rewrite (IH (Some a) (Some a) rest l t H).
    destruct pat; [ | reflexivity ].
    cbn [JS.literal] in H. inversion H. now subst.
Qed.

Lemma literal_first ignoreCase pat p a rest r :
  JS.literal ignoreCase pat p (String a rest) = Some r ->
  JS.is_word_opt (JS.head pat) = true ->
  JS.is_word a = true.
Proof.
  intros H Hp. destruct pat as [ | c pat]; [ discriminate | ].
  cbn [JS.literal] in H. destruct (JS.same ignoreCase c a) eqn:E; [ | discriminate ].
  now rewrite (same_word _ _ _ E).
Qed.

Lemma literal_last_word ignoreCase pat p s l t :
  wordToWord pat = true ->
  JS.literal ignoreCase pat p s = Some (l, t) ->
  JS.is_word_opt l = true.
Proof.
  intros Hp H. unfold wordToWord in Hp. apply andb_true_iff in Hp. destruct Hp as [Hh He].
  rewrite (literal_last _ _ _ _ _ _ H), <- He.
  apply endsWithWord_any. now destruct pat.
Qed.

Lemma match_occurs ignoreCase pat ci f p p0 s l t :
  JS.truthy pat = true ->
  JS.literal ignoreCase pat p0 s = Some (l, t) ->
  occurs ci f p s = false ->
  occurs ci f l t = false.
Proof.
  intros Hp H Ho. pose proof (literal_occurs _ _ _ _ _ _ _ _ _ H Ho) as R.
  now destruct pat.
Qed.

Lemma match_skip ignoreCase pat ci Q rep p a rest l t :
  JS.truthy pat = true ->
  JS.literal ignoreCase pat p (String a rest) = Some (l, t) ->
  JS.replaceWordFrom ci Q rep (Some a) (String.length pat - 1) rest
  = JS.replaceWordFrom ci Q rep l 0 t.
Proof.
  intros Hp H. pose proof (literal_skip _ _ ci Q rep _ (Some a) _ _ _ H) as R.
  destruct pat as [ | c pat]; [ discriminate | ].
  rewrite <- R. cbn [String.length JS.replaceWordFrom].
  replace (S (String.length pat) - 1)%nat with (String.length pat) by lia. reflexivity.
Qed.

Section OneWord.

Variable f : string.
Hypothesis f_word : oneWord f = true.

Lemma f_head : JS.is_word_opt (JS.head f) = true.
Proof.
  unfold oneWord in f_word. destruct f as [ | c f']; [ discriminate | ].
  cbn in *. now apply andb_true_iff in f_word.
Qed.

(** The text after the word does not matter beyond its first character. *)
Lemma wordEnds_app g : forall p x rest,
  allWord g = true ->
  JS.is_word_opt (JS.head rest) = false ->
  JS.wordEnds true g p (x ++ rest) = JS.wordEnds true g p x.
Proof.
  unfold JS.wordEnds.
  induction g as [ | c g IH]; intros p x rest Hg Hr; cbn [JS.literal].
  - unfold JS.boundary. destruct x; [ cbn; now rewrite Hr | reflexivity ].
  - cbn [allWord] in Hg. apply andb_true_iff in Hg. destruct Hg as [Hc Hg].
    destruct x as [ | a x]; cbn [append].
    + destruct rest as [ | r rest]; [ reflexivity | ].
      destruct (JS.same true c r) eqn:E; [ | reflexivity ].
      apply same_word in E. cbn in Hr. congruence.
    + destruct (JS.same true c a); [ | reflexivity ]. now apply IH.
Qed.

Lemma occurs_app : forall x p rest,
  JS.is_word_opt (JS.head rest) = false ->
  occurs true f p (x ++ rest) = false <->
  occurs true f p x = false
  /\ occurs true f (match x with EmptyString => p | _ => None end) rest = false.
Proof.
  assert (Hf : allWord f = true).
  { unfold oneWord in f_word. now apply andb_true_iff in f_word. }
  induction x as [ | a x IH]; intros p rest Hr; cbn [append].
  - cbn [occurs]. tauto.
  - cbn [occurs]. rewrite !orb_false_iff.
    unfold JS.wordAt. change (String a (x ++ rest)%string) with (String a x ++ rest)%string.
    rewrite (wordEnds_app f p (String a x) rest Hf Hr).
    change (JS.boundary p (String a x ++ rest)) with (JS.boundary p (String a x)).
    rewrite (IH (Some a) rest Hr).
    assert (E : occurs true f (match x with EmptyString => Some a | _ => None end) rest
                = occurs true f None rest).
    { destruct rest as [ | r rest]; [ reflexivity | ]. cbn [occurs].
      rewrite !(wordAt_nonword true f _ _ f_head Hr). reflexivity. }
    rewrite E. tauto.
Qed.

Section Replacement.

Variable ignoreCase : bool.
Variable pat rep : string.
Hypothesis pat_words : wordToWord pat = true.
Hypothesis rep_clean : occurs true f None rep = false.

Let RW := JS.replaceWordFrom ignoreCase pat rep.

Lemma pat_head : JS.is_word_opt (JS.head pat) = true.
Proof. unfold wordToWord in pat_words. now apply andb_true_iff in pat_words. Qed.

Lemma copy_nonmatch p a rest :
  JS.wordAt ignoreCase pat p (String a rest) = false ->
  RW p 0 (String a rest) = String a (RW (Some a) 0 rest).
Proof. intros H. unfold RW. cbn [JS.replaceWordFrom]. now rewrite H. Qed.

(** Inside a word the text is copied. *)
Lemma wordEnds_copied g : forall p q q' s,
  allWord g = true ->
  JS.is_word_opt p = true ->
  JS.is_word_opt q = JS.is_word_opt q' ->
  JS.wordEnds true g q (RW p 0 s) = JS.wordEnds true g q' s.
Proof.
  induction g as [ | c g IH]; intros p q q' s Hg Hp Hq.
  - unfold JS.wordEnds. cbn [JS.literal]. unfold JS.boundary. rewrite Hq. f_equal.
    destruct s as [ | a rest]; [ reflexivity | ].
    now rewrite (copy_nonmatch _ _ _ (wordAt_inside _ _ _ _ pat_head Hp)).
  - cbn [allWord] in Hg. apply andb_true_iff in Hg. destruct Hg as [Hc Hg].
    destruct s as [ | a rest]; [ reflexivity | ].
    rewrite (copy_nonmatch _ _ _ (wordAt_inside _ _ _ _ pat_head Hp)).
    unfold JS.wordEnds. cbn [JS.literal].
    destruct (JS.same true c a) eqn:E; [ | reflexivity ].
    apply same_word in E.
    apply (IH (Some a) (Some a) (Some a) rest Hg); [ cbn; congruence | reflexivity ].
Qed.

Lemma head_copied p s :
  JS.is_word_opt (JS.head s) = false ->
  JS.is_word_opt (JS.head (RW p 0 s)) = false.
Proof.
  intros H. destruct s as [ | a rest]; [ reflexivity | ].
  now rewrite (copy_nonmatch _ _ _ (wordAt_nonword _ _ _ _ pat_head H)).
Qed.

(** Replacing [pat] leaves no [f] in the text when the pattern is [f]
    itself, and brings none in when there was none. *)
Lemma replace_keeps_clean n : forall s prev prev',
  (String.length s <= n)%nat ->
  JS.is_word_opt prev = JS.is_word_opt prev' \/ JS.is_word_opt (JS.head s) = false ->
  (forall p t, JS.wordAt true f p t = true -> JS.wordAt ignoreCase pat p t = true)
  \/ occurs true f prev s = false ->
  occurs true f prev' (RW prev 0 s) = false.
Proof.
  assert (Hf : allWord f = true).
  { unfold oneWord in f_word. now apply andb_true_iff in f_word. }
  induction n as [ | n IH]; intros s prev prev' Hn Hp Ho.
  { destruct s; [ reflexivity | cbn in Hn; lia ]. }
  destruct s as [ | a rest]; [ reflexivity | ].
  destruct (JS.wordAt ignoreCase pat prev (String a rest)) eqn:Em.
  - (* the pattern matches here *)
    unfold RW. cbn [JS.replaceWordFrom]. rewrite Em.
    pose proof Em as Em'. unfold JS.wordAt in Em'.
    apply andb_true_iff in Em'. destruct Em' as [Hb He].
    unfold JS.wordEnds in He.
    destruct (JS.literal ignoreCase pat prev (String a rest)) as [[last rest'] | ] eqn:El;
      [ | discriminate ].
    pose proof pat_head as Hph.
    assert (Hpt : JS.truthy pat = true) by (destruct pat; [ discriminate | reflexivity ]).
    pose proof (literal_last_word _ _ _ _ _ _ pat_words El) as Hlast.
    assert (Hrest : JS.is_word_opt (JS.head rest') = false).
    { unfold JS.boundary in He. rewrite Hlast in He.
      now destruct (JS.is_word_opt (JS.head rest')). }
    pose proof (literal_first _ _ _ _ _ _ El Hph) as Ha.
    assert (Hprev' : JS.is_word_opt prev' = false).
    { unfold JS.boundary in Hb. cbn [JS.head JS.is_word_opt] in Hb, Hp.
      rewrite Ha in Hb, Hp.
      destruct Hp as [Hp | Hp]; [ | discriminate ].
      rewrite <- Hp. now destruct (JS.is_word_opt prev). }
    rewrite (match_skip _ _ ignoreCase pat rep _ _ _ _ _ Hpt El).
    assert (Hlen : (String.length rest' <= n)%nat).
    { apply literal_length in El. cbn [String.length] in Hn.
      destruct pat; [ discriminate | cbn [String.length] in El; lia ]. }
    assert (Hcont : forall q,
               occurs true f q (JS.replaceWordFrom ignoreCase pat rep last 0 rest') = false).
    { intros q. apply (IH rest' _ q Hlen); [ now right | ].
      destruct Ho as [Ho | Ho]; [ now left | right ].
      exact (match_occurs _ _ _ _ _ _ _ _ _ Hpt El Ho). }
    apply occurs_app.
    + apply head_copied. exact Hrest.
    + split; [ | apply Hcont ].
      rewrite (occurs_prev true f prev' None rep); [ exact rep_clean | ].
      exact Hprev'.
  - (* the character is copied *)
    rewrite (copy_nonmatch _ _ _ Em). cbn [occurs]. apply orb_false_iff. split.
    + assert (Hno : JS.wordAt true f prev (String a rest) = false).
      { destruct Ho as [Ho | Ho].
        - destruct (JS.wordAt true f prev (String a rest)) eqn:E; [ | reflexivity ].
          apply Ho in E. congruence.
        - cbn [occurs] in Ho. now apply orb_false_iff in Ho. }
      destruct (JS.is_word a) eqn:Ha.
      * destruct Hp as [Hp | Hp]; [ | cbn in Hp; congruence ].
        rewrite <- Hno. unfold JS.wordAt, JS.boundary. cbn [JS.head]. rewrite Hp. f_equal.
        pose proof f_head as Hfh.
        destruct f as [ | c g] eqn:Ef; [ discriminate | ].
        unfold JS.wordEnds. cbn [JS.literal].
        destruct (JS.same true c a); [ | reflexivity ].
        cbn [allWord] in Hf. apply andb_true_iff in Hf. destruct Hf as [_ Hg].
        apply (wordEnds_copied g (Some a) (Some a) (Some a) rest Hg); [ exact Ha | reflexivity ].
      * apply wordAt_nonword; [ exact f_head | exact Ha ].
    + apply (IH rest (Some a) (Some a)); [ cbn [String.length] in Hn; lia | now left | ].
      destruct Ho as [Ho | Ho]; [ now left | right ].
      cbn [occurs] in Ho. now apply orb_false_iff in Ho.
Qed.

End Replacement.

Lemma oneWord_wordToWord : wordToWord f = true.
Proof.
  unfold wordToWord. rewrite f_head. cbn [andb].
  pose proof f_word as H. unfold oneWord in H. apply andb_true_iff in H.
  destruct H as [Ht Hw]. revert Ht Hw. generalize false. generalize f. intros g.
  induction g as [ | c g IH]; intros b Ht Hw; [ discriminate | ].
  cbn [endsWithWord]. cbn [allWord] in Hw. apply andb_true_iff in Hw.
  destruct Hw as [Hc Hg]. destruct g as [ | d g']; [ exact Hc | ].
  apply IH; [ reflexivity | exact Hg ].
Qed.

(** Removing a filler removes it. *)
Lemma filler_removed s :
  occurs true f None (JS.replaceWord true f "" s) = false.
Proof.
  unfold JS.replaceWord.
  apply (replace_keeps_clean true f "" oneWord_wordToWord eq_refl (String.length s)); auto.
Qed.

(** The other replacements bring none in. *)
Lemma replaceWord_clean ignoreCase pat rep s :
  wordToWord pat = true ->
  occurs true f None rep = false ->
  occurs true f None s = false ->
  occurs true f None (JS.replaceWord ignoreCase pat rep s) = false.
Proof.
  intros Hp Hr Hs. unfold JS.replaceWord.
  apply (replace_keeps_clean ignoreCase pat rep Hp Hr (String.length s)); auto.
Qed.

(** Cleaning the white space brings none in either. *)
Lemma wordEnds_spaces g : forall q s,
  allWord g = true ->
  JS.wordEnds true g q (JS.replaceSpacesFrom false s) = JS.wordEnds true g q s.
Proof.
  unfold JS.wordEnds.
  induction g as [ | c g IH]; intros q s Hg; cbn [JS.literal].
  - unfold JS.boundary. f_equal. destruct s as [ | a rest]; [ reflexivity | ].
    cbn [JS.replaceSpacesFrom]. destruct (JS.is_space a) eqn:Ea; [ | reflexivity ].
    cbn [JS.head JS.is_word_opt]. now rewrite (space_not_word a Ea).
  - cbn [allWord] in Hg. apply andb_true_iff in Hg. destruct Hg as [Hc Hg].
    destruct s as [ | a rest]; [ reflexivity | ].
    cbn [JS.replaceSpacesFrom]. destruct (JS.is_space a) eqn:Ea.
    + destruct (JS.same true c a) eqn:E1.
      { apply same_word in E1. rewrite (space_not_word a Ea) in E1. congruence. }
      destruct (JS.same true c " ") eqn:E2; [ | reflexivity ].
      apply same_word in E2. rewrite Hc in E2. discriminate E2.
    + destruct (JS.same true c a); [ | reflexivity ]. now apply IH.
Qed.

Lemma wordAt_step g p p' a rest rest' :
  oneWord g = true ->
  JS.is_word_opt p = JS.is_word_opt p' \/ JS.is_word a = false ->
  (forall h q, allWord h = true -> JS.wordEnds true h q rest' = JS.wordEnds true h q rest) ->
  JS.wordAt true g p' (String a rest') = JS.wordAt true g p (String a rest).
Proof.
  intros Hg Hp He. unfold oneWord in Hg. apply andb_true_iff in Hg.
  destruct Hg as [Ht Hw]. destruct g as [ | c g]; [ discriminate | ].
  cbn [allWord] in Hw. apply andb_true_iff in Hw. destruct Hw as [Hc Hw].
  destruct (JS.is_word a) eqn:Ha.
  - destruct Hp as [Hp | Hp]; [ | discriminate ].
    unfold JS.wordAt, JS.boundary. cbn [JS.head]. rewrite Hp. f_equal.
    unfold JS.wordEnds. cbn [JS.literal].
    destruct (JS.same true c a); [ | reflexivity ]. now apply He.
  - rewrite !wordAt_nonword; auto.
Qed.

Lemma occurs_spaces : forall s p p' inRun,
  occurs true f p s = false ->
  (inRun = true -> JS.is_word_opt p' = false) ->
  JS.is_word_opt p = JS.is_word_opt p' \/ JS.is_word_opt (JS.head s) = false ->
  occurs true f p' (JS.replaceSpacesFrom inRun s) = false.
Proof.
  induction s as [ | a rest IH]; intros p p' inRun Ho Hr Hp; [ reflexivity | ].
  cbn [occurs] in Ho. apply orb_false_iff in Ho. destruct Ho as [Ho1 Ho2].
  cbn [JS.replaceSpacesFrom]. destruct (JS.is_space a) eqn:Ea.
  - pose proof (space_not_word a Ea) as Ha. destruct inRun.
    + apply (IH (Some a) p' true Ho2 Hr). left. cbn. rewrite Ha. symmetry. now apply Hr.
    + cbn [occurs]. apply orb_false_iff. split.
      * apply wordAt_nonword; [ exact f_head | reflexivity ].
      * apply (IH (Some a) (Some " "%char) true Ho2); [ reflexivity | ].
        left. cbn. now rewrite Ha.
  - cbn [occurs]. apply orb_false_iff. split.
    + etransitivity; [ | exact Ho1 ].
      apply wordAt_step; [ exact f_word | exact Hp | ].
      intros h q Hh. now apply wordEnds_spaces.
    + apply (IH (Some a) (Some a) false Ho2); [ discriminate | now left ].
Qed.

Lemma occurs_trimStart : forall s p,
  occurs true f p s = false ->
  JS.is_word_opt p = false ->
  occurs true f None (JS.trimStart s) = false.
Proof.
  induction s as [ | a rest IH]; intros p Ho Hp; [ reflexivity | ].
  cbn [JS.trimStart]. destruct (JS.is_space a) eqn:Ea.
  - cbn [occurs] in Ho. apply orb_false_iff in Ho. destruct Ho as [_ Ho].
    apply (IH (Some a) Ho). cbn. now apply space_not_word.
  - now rewrite (occurs_prev true f None p).
Qed.

Lemma wordEnds_trimEnd g : forall q s,
  allWord g = true ->
  JS.wordEnds true g q (JS.trimEnd s) = JS.wordEnds true g q s.
Proof.
  unfold JS.wordEnds.
  induction g as [ | c g IH]; intros q s Hg; cbn [JS.literal].
  - unfold JS.boundary. f_equal. destruct s as [ | a rest]; [ reflexivity | ].
    cbn [JS.trimEnd]. destruct (JS.blank (String a rest)) eqn:Eb; [ | reflexivity ].
    cbn [JS.blank] in Eb. apply andb_true_iff in Eb. destruct Eb as [Ea _].
    cbn [JS.head JS.is_word_opt]. now rewrite (space_not_word a Ea).
  - cbn [allWord] in Hg. apply andb_true_iff in Hg. destruct Hg as [Hc Hg].
    destruct s as [ | a rest]; [ reflexivity | ].
    cbn [JS.trimEnd]. destruct (JS.blank (String a rest)) eqn:Eb.
    + cbn [JS.blank] in Eb. apply andb_true_iff in Eb. destruct Eb as [Ea _].
      destruct (JS.same true c a) eqn:E1; [ | reflexivity ].
      apply same_word in E1. rewrite (space_not_word a Ea) in E1. congruence.
    + destruct (JS.same true c a); [ | reflexivity ]. now apply IH.
Qed.

Lemma occurs_trimEnd : forall s p,
  occurs true f p s = false -> occurs true f p (JS.trimEnd s) = false.
Proof.
  induction s as [ | a rest IH]; intros p Ho; [ reflexivity | ].
  cbn [occurs] in Ho. apply orb_false_iff in Ho. destruct Ho as [Ho1 Ho2].
  cbn [JS.trimEnd]. destruct (JS.blank (String a rest)); [ reflexivity | ].
  cbn [occurs]. apply orb_false_iff. split; [ | now apply IH ].
  etransitivity; [ | exact Ho1 ].
  apply wordAt_step; [ exact f_word | now left | ].
  intros h q Hh. now apply wordEnds_trimEnd.
Qed.

Lemma cleanSpaces_clean s :
  occurs true f None s = false -> occurs true f None (cleanSpaces s) = false.
Proof.
  intros H. unfold cleanSpaces, JS.trim, JS.replaceSpaces.
  apply occurs_trimEnd. apply (occurs_trimStart _ None); [ | reflexivity ].
  apply (occurs_spaces s None None false H); [ discriminate | now left ].
Qed.

(** The chains of replacements. *)
Lemma removeFillers_clean fillers : forall s,
  forallb wordToWord fillers = true ->
  occurs true f None s = false ->
  occurs true f None (removeFillers fillers s) = false.
Proof.
  unfold removeFillers.
  induction fillers as [ | g fillers IH]; intros s Hf Hs; [ exact Hs | ].
  cbn [forallb] in Hf. apply andb_true_iff in Hf. destruct Hf as [H1 H2].
  cbn [fold_left]. apply (IH _ H2). now apply replaceWord_clean.
Qed.

Lemma removeFillers_removes fillers : forall s,
  forallb wordToWord fillers = true ->
  In f fillers ->
  occurs true f None (removeFillers fillers s) = false.
Proof.
  induction fillers as [ | g fillers IH]; intros s Hf Hin; [ contradiction | ].
  cbn [forallb] in Hf. apply andb_true_iff in Hf. destruct Hf as [H1 H2].
  destruct Hin as [ -> | Hin ].
  - apply (removeFillers_clean fillers _ H2). apply filler_removed.
  - apply (IH _ H2 Hin).
Qed.

Lemma fixGrammar_clean fixes : forall s,
  forallb (fun rule => wordToWord (fst rule) && negb (occurs true f None (snd rule))) fixes
  = true ->
  occurs true f None s = false ->
  occurs true f None (fixGrammar fixes s) = false.
Proof.
  unfold fixGrammar.
  induction fixes as [ | g fixes IH]; intros s Hf Hs; [ exact Hs | ].
  cbn [forallb] in Hf. apply andb_true_iff in Hf. destruct Hf as [H1 H2].
  apply andb_true_iff in H1. destruct H1 as [Hp Hr]. apply negb_true_iff in Hr.
  cbn [fold_left]. apply (IH _ H2). now apply replaceWord_clean.
Qed.

End OneWord.

(** No filler of one word is left in a corrected transcript. *)
Lemma fillers_gone f text :
  In f singleWordFillers ->
  occurs true f None (autoCorrectTranscript text) = false.
Proof.
  intros Hin. unfold singleWordFillers in Hin. apply filter_In in Hin.
  destruct Hin as [Hin Hf].
  unfold autoCorrectTranscript, autoCorrectWith.
  apply (cleanSpaces_clean f Hf). apply (fixGrammar_clean f Hf).
  - cbn [fillerWords In] in Hin.
    repeat (destruct Hin as [ <- | Hin ]; [ try reflexivity; discriminate Hf | ]).
    contradiction.
  - apply (removeFillers_removes f Hf); [ reflexivity | exact Hin ].
Qed.

End TranscriptFacts.

(** * Further properties of the chat-panel variant *)

(** X1: in every run of the chat panel the time remaining stays between 0
    and 600 seconds, whatever the configured duration; it is 0 only once the
    session is terminated; a step leaves it unchanged or, when the interval
    fires while the timer is active and the session not terminated, lowers
    it by one.  So the timer badge is never blue and the hint under the time
    never reads "Keep going!". *)
Theorem chat_timer_counts_down
    (config : Chat.AssessmentConfig) (window : Chat.Browser) (events : list Chat.Event)
    (e : Chat.Event) :
  let w := Chat.run config window events Chat.initialWorld in
  let w' := Chat.step config window e w in
  0 <= Chat.timeRemaining (Chat.store w) <= 600
  /\ (Chat.timeRemaining (Chat.store w) = 0 ->
      Chat.isAssessmentTerminated (Chat.store w) = true)
  /\ (Chat.timeRemaining (Chat.store w') = Chat.timeRemaining (Chat.store w)
      \/ (e = Chat.IntervalFires
          /\ Chat.timeRemaining (Chat.store w') = Chat.timeRemaining (Chat.store w) - 1
          /\ Chat.timerActive (Chat.store w) = true
          /\ Chat.isAssessmentTerminated (Chat.store w) = false))
  /\ Chat.timerHint (Chat.timeRemaining (Chat.store w)) <> "Keep going!"
  /\ Chat.timerBadge (Chat.timeRemaining (Chat.store w)) <> "bg-blue-100 text-blue-700".
Proof.
  intros w w'.
  destruct (ChatInvariants.timer_run config window events) as [HT HR].
  fold w in HT, HR.
  destruct (ChatInvariants.tick_step config window e w HT HR) as [_ Hstep].
  destruct HR as [[H0 H1] HZ].
  repeat split; auto.
  - unfold Chat.timerHint.
    destruct (Chat.timeRemaining (Chat.store w) <=? 300); [ discriminate | ].
    assert (E : (Chat.timeRemaining (Chat.store w) <=? 600) = true) by (apply Z.leb_le; lia).
    rewrite E. discriminate.
  - unfold Chat.timerBadge.
    destruct (Chat.timeRemaining (Chat.store w) <=? 300); [ discriminate | ].
    assert (E : (Chat.timeRemaining (Chat.store w) <=? 600) = true) by (apply Z.leb_le; lia).
    rewrite E. discriminate.
Qed.

(** X2: once a run of the chat panel has terminated the session, every
    continuation leaves it terminated, leaves the time remaining as it was,
    and keeps the microphone button, the text area and the send button
    disabled. *)
Theorem chat_termination_is_final
    (config : Chat.AssessmentConfig) (window : Chat.Browser)
    (before after : list Chat.Event) :
  let w := Chat.run config window before Chat.initialWorld in
  let w' := Chat.run config window after w in
  Chat.isAssessmentTerminated (Chat.store w) = true ->
  Chat.isAssessmentTerminated (Chat.store w') = true
  /\ Chat.timeRemaining (Chat.store w') = Chat.timeRemaining (Chat.store w)
  /\ Chat.micEnabled (Chat.store w') = false
  /\ Chat.textareaEnabled (Chat.store w') = false
  /\ Chat.sendEnabled (Chat.store w') = false.
Proof.
  intros w w' Ht.
  destruct (ChatInvariants.timer_run config window before) as [HT HR]. fold w in HT, HR.
  pose proof (ChatInvariants.terminated_run config window after w Ht) as Ht'. fold w' in Ht'.
  split; [ exact Ht' | ]. split.
  - apply ChatInvariants.frozen_run; assumption.
  - unfold Chat.micEnabled, Chat.textareaEnabled, Chat.sendEnabled.
    rewrite Ht', !orb_true_r, !andb_false_r. auto.
Qed.

Lemma chat_termination_is_final_witness :
  let w' := Chat.run ChatRuns.threeQuestions ChatRuns.browser
              (ChatRuns.endedByAlert
               ++ [Chat.IntervalFires; Chat.TypeText "I enjoy teamwork."; Chat.ClickSend])
              Chat.initialWorld in
  Chat.isAssessmentTerminated (Chat.store w') = true
  /\ Chat.timeRemaining (Chat.store w') = 600.
Proof.
  cbv zeta. rewrite ChatFacts.run_app.
  destruct (chat_termination_is_final ChatRuns.threeQuestions ChatRuns.browser
              ChatRuns.endedByAlert
              [Chat.IntervalFires; Chat.TypeText "I enjoy teamwork."; Chat.ClickSend])
    as (H1 & H2 & _).
  - vm_compute. reflexivity.
  - split; [ exact H1 | ]. rewrite H2. vm_compute. reflexivity.
Defined.

(** X3: in every run of the chat panel with speech synthesis, whenever a
    pending 30-second question timeout fires, the count of answered
    questions is unchanged and either its question has a successor, which
    becomes the current question and is spoken, or it is the last question
    and the session is ended with reason completed.  The render the timeout
    captured never shows a response, so it never fires without effect. *)
Theorem chat_question_timeout_always_acts
    (config : Chat.AssessmentConfig) (window : Chat.Browser) (events : list Chat.Event)
    (h : nat) (p : Chat.Pending) (c : Chat.State) (i : nat) :
  let w := Chat.run config window events Chat.initialWorld in
  let w' := Chat.step config window (Chat.TimeoutFires h) w in
  Chat.speechSynthesis window = true ->
  find (fun p => (Chat.handle p =? h)%nat) (Chat.timeouts w) = Some p ->
  Chat.callback p = Chat.QuestionTimeout c i ->
  Chat.questionsAnswered (Chat.store w') = Chat.questionsAnswered (Chat.store w)
  /\ Chat.delivered w' = Chat.delivered w
  /\ (((i + 1 < List.length (Chat.questions config))%nat
       /\ Chat.currentQuestionIndex (Chat.store w') = (i + 1)%nat
       /\ Chat.utterances w'
          = Chat.utterances w
            ++ [Chat.mkUtterance (nth (i + 1) (Chat.questions config) "")
                  (Chat.QuestionSpoken c (i + 1))])
      \/ ((i + 1 = List.length (Chat.questions config))%nat
          /\ Chat.isAssessmentTerminated (Chat.store w') = true
          /\ Chat.terminationReason (Chat.store w') = Some Chat.completed
          /\ Chat.utterances w'
             = Chat.utterances w
               ++ [Chat.mkUtterance
                     (Chat.completionMessage config Chat.completed
                        (List.length (Chat.questions config)))
                     (Chat.CompletionSpoken
                        (Chat.assessmentResult config c Chat.completed))])).
Proof.
  intros w w' Hs Hf Hc.
  destruct (ChatInvariants.pending_question_timeout config window events h p c i Hf Hc)
    as (Ht & Hw & Hr & Hi).
  unfold w', Chat.step.
  rewrite ChatFacts.render_store, ChatFacts.render_delivered, ChatFacts.render_utterances.
  unfold Chat.dispatch. fold w. rewrite Hf, Hc.
  set (w0 := Chat.clearTimeout h w).
  assert (E0 : Chat.store w0 = Chat.store w /\ Chat.delivered w0 = Chat.delivered w
               /\ Chat.utterances w0 = Chat.utterances w) by (repeat split; reflexivity).
  destruct E0 as (E1 & E2 & E3). rewrite <- E1, <- E2, <- E3. clearbody w0.
  destruct (Nat.eq_dec (i + 1) (List.length (Chat.questions config))) as [E | E].
  - destruct (ChatFacts.question_timeout_completes config window c i w0 Hs Ht Hr E)
      as (B1 & B2 & _ & B4 & B5 & B6).
    split; [ exact B4 | ]. split; [ exact B6 | ]. right. auto.
  - assert (Hlt : (i + 1 < List.length (Chat.questions config))%nat) by lia.
    destruct (ChatFacts.question_timeout_advances config window c i w0 Hs Ht Hw Hr Hlt)
      as (B1 & B2 & _ & _ & _ & B6 & B7).
    split; [ exact B2 | ]. split; [ exact B7 | ]. left. auto.
Qed.

Lemma chat_question_timeout_always_acts_witness :
  let w := Chat.run ChatRuns.threeQuestions ChatRuns.browser ChatRuns.opening
             Chat.initialWorld in
  let w' := Chat.step ChatRuns.threeQuestions ChatRuns.browser (Chat.TimeoutFires 2) w in
  Chat.questionsAnswered (Chat.store w') = 0%nat
  /\ Chat.currentQuestionIndex (Chat.store w') = 1%nat.
Proof.
  cbv zeta.
  destruct (chat_question_timeout_always_acts ChatRuns.threeQuestions ChatRuns.browser
              ChatRuns.opening 2
              (Chat.mkPending 2 30000 (Chat.QuestionTimeout Chat.initialState 0))
              Chat.initialState 0 eq_refl)
    as (H1 & _ & [(_ & H2 & _) | (H2 & _)]).
  - vm_compute. reflexivity.
  - reflexivity.
  - split; [ rewrite H1; vm_compute; reflexivity | exact H2 ].
  - vm_compute in H2. discriminate H2.
Defined.





(** X6: for a number of seconds from 0 to 5999 (every time remaining that
    the chat panel reaches lies in that range), [formatTime], which the two
    variants share, gives exactly five characters: tens and units of the
    minutes, a colon, tens and units of the seconds; reading them back gives
    the number of seconds, so different times are shown differently. *)
Theorem formatTime_is_a_clock_face (seconds : Z) :
  0 <= seconds < 6000 ->
  Chat.formatTime seconds = Clock.clockFace seconds
  /\ Live.formatTime seconds = Clock.clockFace seconds
  /\ String.length (Chat.formatTime seconds) = 5%nat
  /\ Clock.clockValue (Chat.formatTime seconds) = seconds
  /\ (forall other, 0 <= other < 6000 ->
      Chat.formatTime other = Chat.formatTime seconds -> other = seconds).
Proof.
  intros H.
  pose proof (ClockFacts.formatTime_clockFace seconds H) as HF.
  split; [ exact HF | ]. split; [ exact HF | ]. split; [ now rewrite HF | ].
  split; [ now apply ClockFacts.clockValue_formatTime | ].
  intros other Ho E.
  rewrite <- (ClockFacts.clockValue_formatTime other Ho), E.
  now apply ClockFacts.clockValue_formatTime.
Qed.

Lemma formatTime_is_a_clock_face_witness :
  Chat.formatTime 599 = "09:59" /\ Live.formatTime 75 = "01:15".
Proof.
  split.
  - rewrite (proj1 (formatTime_is_a_clock_face 599 ltac:(lia))). reflexivity.
  - rewrite (proj1 (proj2 (formatTime_is_a_clock_face 75 ltac:(lia)))). reflexivity.
Defined.

(** X7: in every run of the chat panel, while the termination loader is
    shown the session is terminated with a reason, so the loader shows one
    of its three titles and never "Processing"; the microphone button, the
    text area and the send button are then not available. *)
Theorem chat_loader_names_the_reason
    (config : Chat.AssessmentConfig) (window : Chat.Browser) (events : list Chat.Event) :
  let w := Chat.run config window events Chat.initialWorld in
  let shown := Chat.getLoaderContent (Chat.terminationReason (Chat.store w)) in
  Chat.showTerminationLoader (Chat.store w) = true ->
  Chat.isAssessmentTerminated (Chat.store w) = true
  /\ Chat.title shown <> "Processing"
  /\ (Chat.title shown = "Assessment Completed"
      \/ Chat.title shown = "Assessment Terminated"
      \/ Chat.title shown = "Time Limit Exceeded")
  /\ Chat.micEnabled (Chat.store w) = false
  /\ Chat.textareaEnabled (Chat.store w) = false
  /\ Chat.sendEnabled (Chat.store w) = false.
Proof.
  intros w shown Hl.
  destruct (ChatInvariants.loaderHasReason_run config window events Hl) as [Ht Hr].
  fold w in Ht, Hr. subst shown.
  split; [ exact Ht | ].
  unfold Chat.micEnabled, Chat.textareaEnabled, Chat.sendEnabled. rewrite Hl. cbn [negb andb].
  destruct (Chat.terminationReason (Chat.store w)) as [[ | | ] | ]; cbn;
    try congruence; repeat split; auto; discriminate.
Qed.

Lemma chat_loader_names_the_reason_witness :
  Chat.title
    (Chat.getLoaderContent
       (Chat.terminationReason
          (Chat.store
             (Chat.run ChatRuns.threeQuestions ChatRuns.browser ChatRuns.endedByAlert
                Chat.initialWorld))))
  <> "Processing".
Proof.
  apply (chat_loader_names_the_reason ChatRuns.threeQuestions ChatRuns.browser
           ChatRuns.endedByAlert).
  vm_compute. reflexivity.
Defined.

(** X8: every result a run of the chat panel hands over reports the number
    of configured questions as the total and counts the alerts it lists;
    either it is completed (status "completed", no termination reason,
    passed, all questions reported as answered), or it is terminated with
    the violation text, or terminated with the time-limit text and no time
    remaining. *)
Theorem chat_results_are_well_formed
    (config : Chat.AssessmentConfig) (window : Chat.Browser) (events : list Chat.Event)
    (r : Chat.AssessmentResult) :
  In r (Chat.delivered (Chat.run config window events Chat.initialWorld)) ->
  Chat.Result.totalQuestions r = List.length (Chat.questions config)
  /\ Chat.Result.securityAlertsCount r = List.length (Chat.Result.securityAlerts r)
  /\ ((Chat.Result.status r = "completed"
       /\ Chat.Result.terminationReason r = None
       /\ Chat.Result.passed r = true
       /\ Chat.Result.questionsAnswered r = Chat.Result.totalQuestions r)
      \/ (Chat.Result.status r = "terminated"
          /\ Chat.Result.terminationReason r
             = Some "Session terminated due to security violations")
      \/ (Chat.Result.status r = "terminated"
          /\ Chat.Result.terminationReason r
             = Some "Session terminated due to time limit exceeded"
          /\ Chat.Result.timeRemaining r = 0)).
Proof.
  intros Hin.
  destruct (ChatFacts.delivered_built config window events r Hin) as (c & reason & ->).
  split; [ reflexivity | ]. split; [ reflexivity | ].
  destruct reason; cbn; auto 10.
Qed.

Lemma chat_results_are_well_formed_witness :
  exists r,
    In r (Chat.delivered
            (Chat.run ChatRuns.threeQuestions ChatRuns.browser
               ChatRuns.twoAnswersThenViolation Chat.initialWorld))
    /\ Chat.Result.totalQuestions r = 3%nat.
Proof.
  assert (H : exists r,
             In r (Chat.delivered
                     (Chat.run ChatRuns.threeQuestions ChatRuns.browser
                        ChatRuns.twoAnswersThenViolation Chat.initialWorld)))
    by (vm_compute; eexists; left; reflexivity).
  destruct H as [r Hin]. exists r. split; [ exact Hin | ].
  exact (proj1 (chat_results_are_well_formed ChatRuns.threeQuestions ChatRuns.browser
                  ChatRuns.twoAnswersThenViolation r Hin)).
Defined.

(** X15: the chat panel never removes or rewrites a security alert: the
    alerts after a longer run are those after any prefix of it, followed by
    the ones raised since. *)
Theorem chat_alerts_are_kept
    (config : Chat.AssessmentConfig) (window : Chat.Browser)
    (before after : list Chat.Event) :
  exists more,
    Chat.securityAlerts
      (Chat.store (Chat.run config window (before ++ after) Chat.initialWorld))
    = Chat.securityAlerts
        (Chat.store (Chat.run config window before Chat.initialWorld)) ++ more.
Proof.
  rewrite ChatFacts.run_app. apply ChatInvariants.alerts_run.
Qed.

(** X16: in a browser without speech recognition the chat panel never
    records: whatever happens, no recogniser exists, none is listening, the
    panel does not show itself as recording, and the conversation holds no
    interim transcript, neither in its own state cell nor as a message. *)
Theorem chat_without_speech_recognition
    (config : Chat.AssessmentConfig) (window : Chat.Browser) (events : list Chat.Event) :
  let w := Chat.run config window events Chat.initialWorld in
  Chat.speechRecognition window = false ->
  Chat.recognition w = None
  /\ Chat.listening w = false
  /\ Chat.isRecording (Chat.store w) = false
  /\ Chat.interimTranscript (Chat.store w) = ""
  /\ Chat.interimCount (Chat.messages (Chat.store w)) = 0%nat.
Proof.
  intros w H. exact (ChatInvariants.deaf_run config window events H).
Qed.

Lemma chat_without_speech_recognition_witness :
  Chat.isRecording
    (Chat.store
       (Chat.run ChatRuns.oneQuestion (Chat.mkBrowser true false true)
          (ChatRuns.opening ++ [Chat.ClickMicrophone]) Chat.initialWorld))
  = false.
Proof.
  destruct (chat_without_speech_recognition ChatRuns.oneQuestion
              (Chat.mkBrowser true false true)
              (ChatRuns.opening ++ [Chat.ClickMicrophone]) eq_refl)
    as (_ & _ & H & _).
  exact H.
Defined.

(** X17: when the configuration lists no question, every result the chat
    panel hands over reports zero questions and a score that is no finite
    number: NaN when it counts no answer, plus infinity otherwise.  A
    completed result then counts no answer, scores NaN and is reported as
    passed. *)
Theorem chat_no_questions
    (config : Chat.AssessmentConfig) (window : Chat.Browser) (events : list Chat.Event)
    (r : Chat.AssessmentResult) :
  Chat.questions config = [] ->
  In r (Chat.delivered (Chat.run config window events Chat.initialWorld)) ->
  Chat.Result.totalQuestions r = 0%nat
  /\ Chat.Result.score r
     = (if (Chat.Result.questionsAnswered r =? 0)%nat then JS.NaN else JS.Infinity false)
  /\ (Chat.Result.status r = "completed" ->
      Chat.Result.questionsAnswered r = 0%nat
      /\ Chat.Result.score r = JS.NaN
      /\ Chat.Result.passed r = true).
Proof.
  intros Hq Hin.
  destruct (ChatFacts.delivered_built config window events r Hin) as (c & reason & ->).
  unfold Chat.assessmentResult, Chat.scorePercentage. cbn [Chat.Result.totalQuestions
    Chat.Result.score Chat.Result.questionsAnswered Chat.Result.status Chat.Result.passed].
  rewrite Hq. cbn [List.length].
  split; [ reflexivity | ]. split; [ apply ChatInvariants.percentage_of_none | ].
  destruct reason; cbn; intros H; try discriminate H. auto.
Qed.

Lemma chat_no_questions_witness :
  exists r,
    In r (Chat.delivered
            (Chat.run ChatRuns.noQuestions ChatRuns.browser ChatRuns.welcomeOnly
               Chat.initialWorld))
    /\ Chat.Result.score r = JS.NaN
    /\ Chat.Result.passed r = true.
Proof.
  assert (H : exists r,
             In r (Chat.delivered
                     (Chat.run ChatRuns.noQuestions ChatRuns.browser ChatRuns.welcomeOnly
                        Chat.initialWorld))
             /\ Chat.Result.status r = "completed").
  { vm_compute. eexists. split; [ left; reflexivity | reflexivity ]. }
  destruct H as (r & Hin & Hs).
  exists r. split; [ exact Hin | ].
  destruct (chat_no_questions ChatRuns.noQuestions ChatRuns.browser ChatRuns.welcomeOnly
              r eq_refl Hin) as (_ & _ & H).
  destruct (H Hs) as (_ & H1 & H2). now split.
Defined.

(** * Further properties of the live-transcription variant *)

(** X9: in every run of the live-transcription variant the time remaining
    never exceeds the configured duration and, when that is not negative,
    never falls below 0.  A step leaves it unchanged or, when the interval
    fires while the assessment is active, the timer started, time left and
    the session not terminated, lowers it by one; when that takes it from 1
    to 0 the session is terminated and exactly one result, which gives the
    time limit as the reason, is handed over by that step; otherwise the tick
    hands over nothing. *)
Theorem live_timer_counts_down
    (config : Live.AssessmentConfig) (speech : bool) (events : list Live.Event)
    (e : Live.Event) :
  let w := Live.run config speech events (Live.initialWorld config) in
  let w' := Live.step config speech e w in
  Live.timeRemaining (Live.store w) <= Live.duration config * 60
  /\ (0 <= Live.duration config -> 0 <= Live.timeRemaining (Live.store w))
  /\ (Live.timeRemaining (Live.store w') = Live.timeRemaining (Live.store w)
      \/ (e = Live.IntervalFires
          /\ Live.timerMayRun (Live.store w) = true
          /\ Live.timeRemaining (Live.store w') = Live.timeRemaining (Live.store w) - 1
          /\ (1 < Live.timeRemaining (Live.store w) ->
              Live.delivered w' = Live.delivered w
              /\ Live.isAssessmentTerminated (Live.store w') = false)
          /\ (Live.timeRemaining (Live.store w) = 1 ->
              Live.isAssessmentTerminated (Live.store w') = true
              /\ exists r, Live.delivered w' = Live.delivered w ++ [r]
                           /\ Live.Result.terminationReason r
                              = Some "Assessment terminated: Time limit reached."))).
Proof.
  intros w w'.
  pose proof (LiveInvariants.live_timer_run config speech events) as HR. fold w in HR.
  destruct (LiveInvariants.live_tick_step config speech e w HR) as [_ Hstep].
  destruct HR as [H1 H2]. auto.
Qed.



(** X11: every result a run of the live-transcription variant hands over,
    whichever of the three places built it, counts the alerts it lists,
    lists as responses exactly the candidate's messages of its transcript,
    in order, reports the number of configured questions as the total and no
    more answered questions than that; a result without a termination reason
    counts all messages of its transcript and reports every question as
    answered, a result with one counts the candidate's messages. *)
Theorem live_results_are_coherent
    (config : Live.AssessmentConfig) (speech : bool) (events : list Live.Event)
    (r : Live.AssessmentResult) :
  In r (Live.delivered (Live.run config speech events (Live.initialWorld config))) ->
  Live.coherent config r.
Proof.
  intros Hin.
  destruct (LiveInvariants.coherent_run config speech events) as (_ & _ & HD).
  rewrite Forall_forall in HD. now apply HD.
Qed.

Lemma live_results_are_coherent_witness :
  exists r,
    In r (Live.delivered
            (Live.run LiveRuns.oneQuestion true LiveRuns.answerThenExpiry
               (Live.initialWorld LiveRuns.oneQuestion)))
    /\ Live.Result.userResponses r
       = map Live.content (filter Live.is_candidate (Live.Result.messages r)).
Proof.
  assert (H : exists r,
             In r (Live.delivered
                     (Live.run LiveRuns.oneQuestion true LiveRuns.answerThenExpiry
                        (Live.initialWorld LiveRuns.oneQuestion))))
    by (vm_compute; eexists; left; reflexivity).
  destruct H as [r Hin]. exists r. split; [ exact Hin | ].
  exact (proj1 (proj2 (live_results_are_coherent LiveRuns.oneQuestion true
                         LiveRuns.answerThenExpiry r Hin))).
Defined.



(** X13: in every run of the live-transcription variant with 1 to 100
    questions, the current question is one of the configured questions and
    the percentage the header shows, [Math.round(getProgressPercentage())],
    is a whole number from 1 to 100, which is 100 exactly when the current
    question is the last one. *)
Theorem live_progress_shown
    (config : Live.AssessmentConfig) (speech : bool) (events : list Live.Event) :
  let w := Live.run config speech events (Live.initialWorld config) in
  (1 <= List.length (Live.questions config) <= 100)%nat ->
  (Live.currentQuestion (Live.store w) < List.length (Live.questions config))%nat
  /\ exists p : Z,
       Live.progressShown config (Live.store w) = JS.Finite (inject_Z p)
       /\ 1 <= p <= 100
       /\ (p = 100 <->
           (Live.currentQuestion (Live.store w) + 1)%nat = List.length (Live.questions config)).
Proof.
  intros w Hn.
  assert (Hq : (Live.currentQuestion (Live.store w) < List.length (Live.questions config))%nat)
    by (apply LiveInvariants.questionInRange_run; lia).
  split; [ exact Hq | ].
  pose proof (LiveInvariants.progress_checked _ _ Hn Hq) as H.
  unfold Binary64Check.progress_ok in H.
  unfold Live.progressShown, Live.getProgressPercentage.
  destruct (JS.round _) as [[qn qd] | | ]; try discriminate.
  cbn [Qnum Qden] in H.
  apply andb_prop in H. destruct H as [H H4].
  apply andb_prop in H. destruct H as [H H3].
  apply andb_prop in H. destruct H as [H1 H2].
  apply Pos.eqb_eq in H1. apply Z.leb_le in H2, H3. apply eqb_prop in H4. subst qd.
  exists qn. split; [ reflexivity | ]. split; [ lia | ].
  split.
  - intros ->. apply Nat.eqb_eq. rewrite <- H4. reflexivity.
  - intros E. apply Nat.eqb_eq in E. rewrite E in H4. now apply Z.eqb_eq.
Qed.

Lemma live_progress_shown_witness :
  Live.progressShown LiveRuns.twoQuestions
    (Live.store
       (Live.run LiveRuns.twoQuestions true LiveRuns.opening
          (Live.initialWorld LiveRuns.twoQuestions)))
  = JS.Finite 50.
Proof.
  destruct (live_progress_shown LiveRuns.twoQuestions true LiveRuns.opening)
    as (_ & p & Hp & _).
  - simpl. lia.
  - rewrite Hp. vm_compute in Hp. exact (eq_sym Hp).
Defined.

(** X14: in every run of the live-transcription variant with a positive
    duration, while the session is not terminated no result with a
    termination reason has been handed over; once it is terminated, the
    panel says "time limit reached" exactly when a result giving the time
    limit as the reason has been handed over, and otherwise a result giving
    the face-away violations as the reason has been. *)
Theorem live_termination_cause
    (config : Live.AssessmentConfig) (speech : bool) (events : list Live.Event) :
  let w := Live.run config speech events (Live.initialWorld config) in
  0 < Live.duration config ->
  (Live.isAssessmentTerminated (Live.store w) = false ->
   Forall (fun r => Live.Result.terminationReason r = None) (Live.delivered w))
  /\ (Live.isAssessmentTerminated (Live.store w) = true ->
      (Live.terminationCause (Live.store w) = "time limit reached"
       <-> Exists Live.timeLimitReached (Live.delivered w))
      /\ (Live.terminationCause (Live.store w) <> "time limit reached" ->
          Exists Live.facedAway (Live.delivered w))).
Proof.
  intros w Hd.
  pose proof (LiveInvariants.causeRecorded_run config speech events Hd) as H.
  fold w in H. unfold Live.causeRecorded in H. unfold Live.terminationCause.
  destruct (Live.isAssessmentTerminated (Live.store w)).
  - split; [ discriminate | intros _ ].
    destruct H as [[H0 HE] | (H0 & HE & HF)].
    + rewrite H0. cbn. split; [ tauto | congruence ].
    + assert (E : (Live.timeRemaining (Live.store w) =? 0) = false)
        by (apply Z.eqb_neq; lia).
      rewrite E. split; [ | auto ].
      split; [ discriminate | ].
      intros HX. apply Exists_exists in HX. destruct HX as (r & Hin & Hr).
      rewrite Forall_forall in HF. now destruct (HF r Hin).
  - split; [ intros _; apply H | discriminate ].
Qed.

Lemma live_termination_cause_witness :
  Exists Live.facedAway
    (Live.delivered
       (Live.run LiveRuns.twoQuestions true LiveRuns.twoViolations
          (Live.initialWorld LiveRuns.twoQuestions))).
Proof.
  destruct (live_termination_cause LiveRuns.twoQuestions true LiveRuns.twoViolations)
    as (_ & H).
  - reflexivity.
  - destruct H as [_ H]; [ vm_compute; reflexivity | ].
    apply H. vm_compute. discriminate.
Defined.

(** X18: the live-transcription variant never removes or rewrites a security
    alert, and once the start card is gone it never removes or rewrites a
    message of the transcript: after a longer run both lists are those after
    any prefix of it, followed by what has been added since. *)
Theorem live_log_is_kept
    (config : Live.AssessmentConfig) (speech : bool) (before after : list Live.Event) :
  let w1 := Live.run config speech before (Live.initialWorld config) in
  let w2 := Live.run config speech (before ++ after) (Live.initialWorld config) in
  (exists more,
     Live.securityAlerts (Live.store w2) = Live.securityAlerts (Live.store w1) ++ more)
  /\ (Live.startEnabled (Live.store w1) = false ->
      exists more, Live.messages (Live.store w2) = Live.messages (Live.store w1) ++ more).
Proof.
  intros w1 w2. subst w1 w2. rewrite LiveInvariants.live_run_app. split.
  - apply LiveInvariants.live_alerts_run.
  - apply LiveInvariants.live_messages_run.
Qed.

(** X19: in a browser without speech synthesis the live-transcription
    variant never lets the candidate answer: whatever happens, the candidate
    may not respond, the timer has not started and shows the full duration,
    the question counter stays at the first question, the transcript holds
    no message of the candidate, and every result handed over is a
    termination for face-away violations. *)
Theorem live_without_speech_synthesis
    (config : Live.AssessmentConfig) (events : list Live.Event) :
  let w := Live.run config false events (Live.initialWorld config) in
  Live.canUserRespond (Live.store w) = false
  /\ Live.timerStarted (Live.store w) = false
  /\ Live.timeRemaining (Live.store w) = Live.duration config * 60
  /\ Live.currentQuestion (Live.store w) = 0%nat
  /\ filter Live.is_candidate (Live.messages (Live.store w)) = []
  /\ Forall Live.facedAway (Live.delivered w).
Proof.
  intros w.
  destruct (LiveInvariants.silent_run config events)
    as (_ & _ & HC & _ & HS & HM & HQ & HF & HD).
  auto 10.
Qed.

(** X20: in the live-transcription variant the candidate is never allowed to
    respond while a question is being read: in every state a run reaches,
    [isAIReading] and [canUserRespond] are not both set. *)
Theorem live_turn_taking
    (config : Live.AssessmentConfig) (speech : bool) (events : list Live.Event) :
  let w := Live.run config speech events (Live.initialWorld config) in
  Live.isAIReading (Live.store w) && Live.canUserRespond (Live.store w) = false.
Proof.
  intros w. apply LiveInvariants.turns_run.
Qed.

(** * Properties of the corrected transcript *)


(** X22: the four fixes of [autoCorrectTranscript] for [i'm], [i've],
    [i'll] and [i'd] never change a text: the fix for a lone [i], which runs
    before them, has already written the capital, so the function returns
    what it returns without them. *)
Theorem autoCorrectTranscript_fixes_after_lone_i_are_idle (text : string) :
  Live.autoCorrectTranscript text
  = Live.autoCorrectWith Live.fillerWords
      (filter (fun rule => negb (Live.afterLoneI rule)) Live.grammarFixes) text.
Proof.
  unfold Live.autoCorrectTranscript, Live.autoCorrectWith.
  now rewrite TranscriptFacts.fixGrammar_loneI.
Qed.

(** X23: no filler of one word ([um], [uh], [er], [ah], [like],
    [basically]) is left in the transcript that [autoCorrectTranscript]
    returns, in whatever letter case: the pattern that removes it matches
    nowhere in the result. *)
Theorem autoCorrectTranscript_removes_one_word_fillers (f text : string) :
  In f Live.singleWordFillers ->
  Live.occurs true f None (Live.autoCorrectTranscript text) = false.
Proof.
  apply TranscriptFacts.fillers_gone.
Qed.

Lemma autoCorrectTranscript_removes_one_word_fillers_witness :
  Live.occurs true "like" None
    (Live.autoCorrectTranscript "Um, i was LIKE basically done, you know") = false.
Proof.
  apply (autoCorrectTranscript_removes_one_word_fillers "like").
  vm_compute. auto 10.
Defined.
